(* ===== verification/_CoqProject ===== *)
-Q . S2P
Prelude.v
PyFloat.v
Units.v
Scalars.v
Platform.v
Microphone.v
I2SConfig.v
I2SCodegen.v
AdfMicrophone.v
Normalizer.v
SampleBuffer.v
Engine.v
Negotiation.v
Pipeline.v
