(* ===== verification/Prelude.v ===== *)
(** * Verification of the esphome_audio microphone platforms

    The repository adds two ESPHome microphone platforms.  Their Python
    sources (under src/esphome/components/) are the configuration and
    code-generation half of the program: they validate a user's YAML
    configuration against the ESP32 variant being built for and emit the
    C++ statements that set the microphone up.  The spec also describes the
    C++ runtime these statements drive (sample buffer, gain normalisation,
    acquisition engine, capability negotiation, pipeline controller); that
    code is not in src/, so it is modelled from the spec.

    ** The parts and how they interact

    - [i2s_audio/microphone/__init__.py]: [CONFIG_SCHEMA] is a typed schema
      keyed on [adc_type] ("internal" | "external") that fills the defaults
      of [BASE_SCHEMA] and checks each field, followed by
      [validate_esp32_variant], which reads the build's ESP32 variant and
      rejects PDM on variants outside [PDM_VARIANTS] and the internal ADC on
      variants outside [INTERNAL_ADC_VARIANTS].  [to_code] turns the
      validated dictionary into C++ statements: [set_adc_channel] with the
      channel looked up in [ESP32_VARIANT_ADC1_PIN_TO_CHANNEL], or the I2S
      reader registration, and finally [register_microphone], with an
      [audio_device = {"max_channels": 1}] argument only when the installed
      microphone component's [register_microphone] accepts one.
    - [adf_pipeline/microphone/__init__.py]: a schema with [gain_log2] in
      [0, 7] (default 0) and a [to_code] that sets the gain, registers the
      component, sets the ADF pipeline controller up and registers the
      microphone the same way.
    - Collaborators outside the repository (esphome's [esp32] constants,
      [adc.validate_adc_pin], the ADC pin tables, [microphone]) are
      interfaces: a type class whose laws are what the platform code relies
      on, with the values of esphome as one instance used by the examples.

    ** Files (in dependency order)

    - [Prelude.v] (this file): the result monad for Python's exceptions,
      the state-and-exception monad [cg] for [cg.add] (its state is the
      list of emitted statements), [subscript] for [d[k]] raising
      [KeyError], Python's [in] as [x ∈? l], the hint databases [mic] and
      [mic_rw] and the tactic [inv_ok].
    - [PyFloat.v]: Python floats as IEEE 754 binary64 through the
      Standard Library's [SpecFloat]: [float(text)] of a decimal correctly
      rounded, the doubles of [METRIC_SUFFIXES], the rounded product and
      [x == z] against an int, with the rounding lemmas the bit depth
      needs (whole numbers below [2^53] are exact, larger ones round to at
      least [2^53]).
    - [Units.v]: YAML scalars ([yaml_scalar]), [cv.string], esphome's
      [cv.float_with_unit] and [METRIC_SUFFIXES] (the regex read greedily,
      the value [float(mantissa) * METRIC_SUFFIXES[prefix]] in Python
      floats), through which the I2S platform reads [bits_per_sample]
      ([_validate_bits]).
    - [Scalars.v]: esphome's [cv.boolean], [cv.int_] (with Python's
      [int(s, base)] grammar) and [cv.int_range] (voluptuous's [Range]),
      through which the platforms read [sample_rate], [use_apll], [pdm]
      and [gain_log2].
    - [Platform.v]: ESP32 variants ([esp32.const]), [INTERNAL_ADC_VARIANTS],
      [PDM_VARIANTS]; the ADC pin tables, [validate_adc_pin] and
      [pins.internal_gpio_input_pin_number] as the class [AdcPlatform] with
      its laws, and esphome's tables as its instance [esphome_platform].
    - [Microphone.v]: the emitted C++ statements [stmt], [codegen_error],
      the class [MicrophoneComponent] (does [register_microphone] take
      [audio_device]?), the compatibility block the [to_code]s end with,
      and C++ classes with their
      parents ([cpp_class]) with the typing of generated programs
      ([well_typed]).
    - [I2SConfig.v]: every field, default and check of the I2S schema
      ([BASE_SCHEMA], the two typed schemas, [cv.typed_schema]), with
      voluptuous's collection of the errors of every key as the
      applicative [collect], [validate_esp32_variant] and
      [CONFIG_SCHEMA] = [cv.All(typed_schema, validate_esp32_variant)];
      [with_*] and [set_*] change one key of the input or one entry of
      the result, to state what each optional field does inside the
      whole schema.
    - [I2SCodegen.v]: the class [I2SAudioMicrophone], [to_code] of the I2S
      platform and [set_adc_channel].
    - [AdfMicrophone.v], Module [ADFMicrophone]: the class, the ADF schema
      with [gain_log2], the file's own [audio_device] block and [to_code].
    - [Normalizer.v] (spec 4.3, 4.4): the saturating gain shift and channel
      fitting at the sample widths of [BITS_PER_SAMPLE].
    - [SampleBuffer.v] (spec 4.2, 5): the ring buffer with free-running
      cursors that drops and counts on overrun, its abstraction to a
      bounded FIFO queue and runs of interleaved producer/consumer events.
    - [Engine.v] (spec 4.3, 5): engines with a port, state, parameters and
      buffer; the shared port-owner table; start/stop/produce/consume/fail;
      the parameters an engine gets from the program [to_code] generated
      (the I2S settings only through [register_i2s_reader]);
      the class [PeripheralDriver] for the driver's acceptance of them.
    - [Negotiation.v] (spec 4.5): the offer of the generated registration
      and the consumer's request.
    - [Pipeline.v] (spec 4.6): the controller composed with the modelled
      source: setup runs both [CONFIG_SCHEMA]s and [to_code]; start
      negotiates and starts the engine, rolling back on failure; the
      scheduling loop forwards normalised frames; stop drains, then stops.
      A world is the pipeline with the acquisition system; [world_step]
      interleaves it with every other engine.

    ** What is proved (claim ids of the manifest)

    - The schema (C1-C6): an accepted configuration satisfies the variant
      constraints; every failure is [cv.Invalid] with the specific error;
      PDM and the internal ADC are rejected exactly where the lists say;
      the defaults; field errors are reported before variant errors.
    - Code generation (C7-C12): the statements of each branch in order, the
      [KeyError] an ADC2 pin reaches (a bug: the schema accepts it), the
      gain range and the ADF program.
    - Normalisation (C13-C16): the optimised saturating shift equals
      clamp-after-shift, stays in range, is the identity at gain 0 and is
      monotone, for every gain the ADF schema accepts and both widths.
    - Negotiation (C17-C18): mono requests pass, wider ones fail with
      [CapabilityMismatch], for either kind of [microphone] component.
    - Pipeline (C19-C26): an invariant of every reachable world (engine
      parameters come from a validated configuration and its program);
      the wiring of a start (on the internal ADC no generated statement
      passes the configured sample rate, bit depth, channel or APLL); exclusive ports and rollback; conservation
      of frames with the overrun count; no loss when the consumer keeps
      up; stop flushes the buffer, stop-then-start gives a fresh buffer,
      and nothing is produced after stop.
    - Types of generated code (C27-C28): both [to_code]s create a variable
      of their declared class and apply to it only calls the class's
      parents support.
    - Pipeline, continued (C29-C31): the session refines a bounded FIFO
      queue that drops and counts when full; the scheduling loop empties
      the buffer within [capacity] iterations in every reachable world;
      [stop()] always leaves the engine idle with its port released.
    - Bit depth and the mode keys as the code reads them (C32-C34): a
      plain number is rejected with "Expected bits with unit"; whole
      numbers of bits, read as Python floats, are accepted exactly for 16
      and 32; a [pdm] that is not a boolean is rejected under its key.
    - The optional fields of [BASE_SCHEMA] and the keys of each mode
      (C35-C38), in either mode and whatever the other keys: [sample_rate]
      accepts exactly the integers [cv.int_] reads that are at least 1
      (no upper bound; [sample_rate: true] is 1 Hz); [use_apll] defaults
      to false and takes what [cv.boolean] reads; [channel] defaults to the
      right channel and maps ["left"]/["right"] as [CHANNELS] does; each
      mode requires its pins and rejects the other mode's keys, and the
      external mode fills [i2s_adc] with "generic".  Each accepted value
      gives the configuration without the key with that one entry
      replaced ([CONFIG_SCHEMA_map]).

    ** Bounds and fuel

    Integers are [Z] with their width explicit: samples of 16 or 32 bits
    ([bit_depth]), gains 0..7 ([ADFMicrophone.CONFIG_SCHEMA]).  The ring's
    cursors are unbounded [nat]: a 32-bit cursor wraps only after 2^32
    frames, and the model counts frames exactly instead.  [stop()] drains
    with fuel [capacity]; a well-formed buffer holds at most [capacity]
    frames, so the fuel always suffices ([drain_n_all]).

    ** Not modelled

    YAML documents, mappings and tags ([!secret], [!include], [!lambda])
    and C++ emission (esphome's front end and codegen; only the
    validators the platforms call by name are modelled), the YAML
    loader's implicit typing of scalars (the model starts from the
    boolean, integer or text YAML made of a value; YAML floats are not
    carried, so no [cv.int_] of a float), esphome's check of
    [DEPENDENCIES], non-ASCII digits and whitespace in Python's [int]
    and [str.lower], the order of voluptuous's errors (the model lists them in
    the schema's key order), the parent packages' schemas ([CONFIG_SCHEMA_I2S_COMMON], [CONFIG_SCHEMA_ADC],
    [MICROPHONE_SCHEMA], the ADF controller schema: not under src/), DMA,
    timing and real concurrency (producer and consumer are interleaved
    atomic steps), the consumer task behind [acceptFrame].  The parts of
    the two source files left out of the map are imports of names from
    packages outside the repository, [CODEOWNERS], comments (among them
    the commented-out [register_parented], [set_din_pin] and [set_pdm]
    calls of the I2S [to_code]) and blank lines.

    ** Left out of the runtime model

    The spec mentions, without detail, transient [Starting]/[Stopping]
    engine states, a consumer that blocks when the buffer is empty, and
    transfers of several frames; the model takes start and stop as
    atomic steps, lets the scheduling loop return when the buffer is
    empty, and delivers one frame per transfer.  The C++ runtime is not in
    the repository, so nothing there fixes a cursor width: the ring's
    cursors are unbounded. *)

From stdpp Require Export base list gmap strings.
From Stdlib Require Export ZArith Lia.

(** ** Python's exceptions: the result monad *)

(** A computation of the configuration code either returns a value or
    raises an exception of type [E]. *)
Inductive result (E A : Type) : Type :=
| Ok (a : A)
| Err (e : E).
Arguments Ok {E A} a.
Arguments Err {E A} e.

#[export] Instance result_ret E : MRet (result E) := fun _ a => Ok a.
#[export] Instance result_bind E : MBind (result E) :=
  fun _ _ k m => match m with Ok a => k a | Err e => Err e end.
#[export] Instance result_throw E : MThrow E (result E) := fun _ e => Err e.
#[export] Instance result_fmap E : FMap (result E) :=
  fun _ _ f m => match m with Ok a => Ok (f a) | Err e => Err e end.

(** ** Code generation: [cg.add] appends to the program being built *)

(** [cg S E A] threads the state [S] (the C++ statements emitted so far)
    and may raise [E], as an [async def to_code] does. *)
Definition cg (S E A : Type) : Type := S -> result E (A * S).

#[export] Instance cg_ret S E : MRet (cg S E) := fun _ a s => Ok (a, s).
#[export] Instance cg_bind S E : MBind (cg S E) :=
  fun _ _ k m s => match m s with Ok (a, s') => k a s' | Err e => Err e end.
#[export] Instance cg_throw S E : MThrow E (cg S E) := fun _ e _ => Err e.

(** [cg.add(stmt)]: append one statement to the generated program. *)
Definition emit {X E} (x : X) : cg (list X) E unit := fun s => Ok (tt, s ++ [x]).

(** Lift a fallible pure computation (a dictionary lookup) into [cg]. *)
Definition lift_result {S E A} (r : result E A) : cg S E A :=
  fun s => match r with Ok a => Ok (a, s) | Err e => Err e end.

(** ** Python's [in] on lists and dictionary subscription *)

Declare Scope mic_scope.
Delimit Scope mic_scope with mic.
Open Scope mic_scope.

(** [x in l] for a Python list [l]. *)
Notation "x ∈? l" := (bool_decide (x ∈ l)) (at level 70) : mic_scope.

(** [d[k]] on a dictionary: the value, or [KeyError k]. *)
Definition subscript {K V E} `{Countable K} (keyerr : K -> E) (d : gmap K V) (k : K)
  : result E V :=
  match d !! k with Some v => Ok v | None => Err (keyerr k) end.

(** ** Generic lemmas *)

Section ResultLemmas.
Context {E A B : Type}.

Lemma result_bind_Ok_inv (m : result E A) (k : A -> result E B) b :
  (m ≫= k) = Ok b -> exists a, m = Ok a /\ k a = Ok b.
Proof. destruct m; simpl; [eauto | discriminate]. Qed.

Lemma result_bind_Err_inv (m : result E A) (k : A -> result E B) e :
  (m ≫= k) = Err e -> m = Err e \/ exists a, m = Ok a /\ k a = Err e.
Proof. destruct m; simpl; intros H; [right; eauto | left; congruence]. Qed.

Lemma result_bind_Ok (a : A) (k : A -> result E B) : (Ok a ≫= k) = k a.
Proof. reflexivity. Qed.

Lemma result_bind_Err (e : E) (k : A -> result E B) : (Err e ≫= k) = Err e.
Proof. reflexivity. Qed.
End ResultLemmas.

Section CgLemmas.
Context {S E A B : Type}.

Lemma cg_bind_run (m : cg S E A) (k : A -> cg S E B) s :
  (m ≫= k) s = match m s with Ok (a, s') => k a s' | Err e => Err e end.
Proof. reflexivity. Qed.

Lemma cg_lift_Ok_bind (a : A) (k : A -> cg S E B) s :
  (lift_result (Ok a) ≫= k) s = k a s.
Proof. reflexivity. Qed.

Lemma cg_lift_Err_bind (e : E) (k : A -> cg S E B) s :
  (lift_result (Err e) ≫= k) s = Err e.
Proof. reflexivity. Qed.

Lemma cg_ret_bind (a : A) (k : A -> cg S E B) s : (mret a ≫= k) s = k a s.
Proof. reflexivity. Qed.

Lemma cg_bind_Ok_inv (m : cg S E A) (k : A -> cg S E B) s r :
  (m ≫= k) s = Ok r -> exists a s', m s = Ok (a, s') /\ k a s' = Ok r.
Proof. rewrite cg_bind_run. destruct (m s) as [[a s']|]; [eauto | discriminate]. Qed.
End CgLemmas.

Lemma subscript_Some {K V E} `{Countable K} (ke : K -> E) (d : gmap K V) k v :
  d !! k = Some v -> subscript ke d k = Ok v.
Proof. unfold subscript. by intros ->. Qed.

Lemma subscript_None {K V E} `{Countable K} (ke : K -> E) (d : gmap K V) k :
  d !! k = None -> subscript ke d k = Err (ke k).
Proof. unfold subscript. by intros ->. Qed.

Lemma subscript_Ok_inv {K V E} `{Countable K} (ke : K -> E) (d : gmap K V) k v :
  subscript ke d k = Ok v -> d !! k = Some v.
Proof. unfold subscript. destruct (d !! k); congruence. Qed.

Lemma py_in_true {A} `{EqDecision A} (x : A) (l : list A) :
  (x ∈? l) = true <-> x ∈ l.
Proof. apply bool_decide_eq_true. Qed.

Lemma py_in_false {A} `{EqDecision A} (x : A) (l : list A) :
  (x ∈? l) = false <-> x ∉ l.
Proof. apply bool_decide_eq_false. Qed.

Lemma not_both_None {A B} (x : option A) (y : option B) :
  ¬ (x = None ∧ y = None) -> is_Some x ∨ is_Some y.
Proof. destruct x, y; naive_solver. Qed.

(** Cursors less than [n] apart land in different slots of a ring of [n]. *)
Lemma mod_window_neq (i j n : nat) : 0 < n -> i < j < i + n -> i mod n ≠ j mod n.
Proof.
  intros Hn Hij Heq.
  pose proof (Nat.div_mod_eq i n). pose proof (Nat.div_mod_eq j n).
  pose proof (Nat.mod_upper_bound i n ltac:(lia)).
  set (qi := i / n) in *. set (qj := j / n) in *.
  assert (qi < qj) by nia. nia.
Qed.

Create HintDb mic.
Create Rewrite HintDb mic_rw.
Lemma cg_emit_bind {X E B} (x : X) (k : unit -> cg (list X) E B) s :
  (emit x ≫= k) s = k tt (s ++ [x]).
Proof. reflexivity. Qed.

#[export] Hint Rewrite @result_bind_Ok @result_bind_Err @cg_lift_Ok_bind @cg_lift_Err_bind
  @cg_ret_bind @cg_emit_bind : mic_rw.
#[export] Hint Resolve subscript_Some subscript_None : mic.

(** Decompose a successful chain of binds in a hypothesis. *)
Ltac inv_ok :=
  repeat match goal with
  | H : (_ ≫= _) = Ok _ |- _ =>
      let a := fresh "a" in let Ha := fresh "Ha" in
      apply result_bind_Ok_inv in H as (a & Ha & H)
  | H : Ok _ = Ok _ |- _ => injection H as H; subst
  | H : Err _ = Ok _ |- _ => discriminate H
  | H : Ok _ = Err _ |- _ => discriminate H
  end.
