(* ===== verification/PyFloat.v ===== *)
(** * Python floats: IEEE 754 binary64 with rounding to nearest even

    esphome's [cv.float_with_unit] (see [Units.v]) computes
    [float(mantissa) * METRIC_SUFFIXES[prefix]] with Python floats, which
    are IEEE 754 doubles.  They are modelled with the Standard Library's
    executable specification of binary floating point, [SpecFloat], at
    the binary64 format ([prec = 53], [emax = 1024]):

    - [float(text)] on the text of a decimal [digits / 10^k] is the double
      nearest to the exact value, ties to even (CPython's correctly rounded
      [dtoa]): one rounded division of the two integers, [SFdiv];
    - the multipliers of [METRIC_SUFFIXES] are the Python literals [1e18],
      ..., [1e-18] and the ints [10] and [1]: the double nearest to the
      power of ten;
    - [x * y] is [SFmul], one rounding of the exact product;
    - [x == z] against a Python int ([32.0 in {16: .., 32: ..}]) holds
      when the double is an integer equal to [z]: [float_as_Z].

    The lemmas read the rounding functions of [SpecFloat] on the inputs
    the validator produces: whole numbers below [2^53] are exact, larger
    ones round to at least [2^53], and multiplying a normal double by
    [1.0] gives it back. *)

From S2P Require Import Prelude.
From Stdlib Require Export SpecFloat.

Local Open Scope Z_scope.

(** ** Definitions *)

(** The binary64 format. *)
Definition prec : Z := 53.
Definition emax : Z := 1024.

(** [float(s)] where [s] writes [n / 10^k] in decimal ([n ≥ 0]), with
    the sign [neg]: the nearest double, [-0.0] for a negative zero. *)
Definition float_of_decimal (neg : bool) (n : Z) (k : nat) : spec_float :=
  match n with
  | Zpos p => SFdiv prec emax (S754_finite neg p 0) (S754_finite false (Z.to_pos (10 ^ Z.of_nat k)) 0)
  | _ => S754_zero neg
  end.

(** The Python number [10**e] as a double: the literal [1e<e>] (or the
    ints [10] and [1] of [METRIC_SUFFIXES]). *)
Definition float_of_pow10 (e : Z) : spec_float :=
  if bool_decide (0 ≤ e) then float_of_decimal false (10 ^ e) 0
  else float_of_decimal false 1 (Z.to_nat (- e)).

(** The int a float compares equal to, if any: Python's [x == z]. *)
Definition float_as_Z (f : spec_float) : option Z :=
  match f with
  | S754_zero _ => Some 0
  | S754_finite s m e =>
      (fun z => if s then - z else z) <$>
        (if bool_decide (0 ≤ e) then Some (Zpos m * 2 ^ e)
         else if bool_decide (Zpos m `mod` 2 ^ (- e) = 0) then Some (Zpos m `div` 2 ^ (- e))
         else None)
  | _ => None
  end.

(** ** The rounding functions of [SpecFloat] *)

Lemma emin_binary64 : emin prec emax = -1074.
Proof. reflexivity. Qed.

Lemma digits2_pos_size p : digits2_pos p = Pos.size p.
Proof. induction p as [p IH|p IH|]; simpl; by rewrite ?IH. Qed.

Lemma Zdigits2_log2 z : 0 < z -> Zdigits2 z = Z.log2 z + 1.
Proof.
  intros Hz. destruct z as [|[p|p|]|p]; [lia| | |done|lia];
    simpl; by rewrite digits2_pos_size, Pos2Z.inj_succ.
Qed.

(** The number of binary digits of a number in [[2^(d-1), 2^d)]. *)
Lemma Zdigits2_between z d : 1 ≤ d -> 2 ^ (d - 1) ≤ z < 2 ^ d -> Zdigits2 z = d.
Proof.
  intros Hd Hz. rewrite Zdigits2_log2 by (pose proof (Z.pow_pos_nonneg 2 (d - 1)); lia).
  rewrite (Z.log2_unique z (d - 1)); [lia|lia|]. by rewrite Z.sub_1_r, Z.succ_pred.
Qed.

Lemma Zdigits2_bounds z : 0 < z -> 2 ^ (Zdigits2 z - 1) ≤ z < 2 ^ Zdigits2 z.
Proof.
  intros Hz. rewrite Zdigits2_log2 by done. replace (Z.log2 z + 1 - 1) with (Z.log2 z) by lia.
  by apply Z.log2_spec.
Qed.

Lemma iter_pos_nat {A} (f : A -> A) p x : iter_pos f p x = Nat.iter (Pos.to_nat p) f x.
Proof.
  revert x. induction p as [p IH|p IH|]; intros x; cbn [iter_pos]; rewrite ?IH; [| |done].
  - rewrite Pos2Nat.inj_xI, Nat.iter_succ_r, <-Nat.iter_add. f_equal. lia.
  - rewrite Pos2Nat.inj_xO, <-Nat.iter_add. f_equal. lia.
Qed.

Lemma shr_1_div m r s :
  0 ≤ m -> shr_1 {| shr_m := m; shr_r := r; shr_s := s |}
          = {| shr_m := m `div` 2; shr_r := Z.odd m; shr_s := r || s |}.
Proof.
  intros Hm. destruct m as [|[p|p|]|p]; [done| | |done|lia]; simpl; f_equal.
  - change (Zpos p~1) with (2 * Zpos p + 1). apply (Z.div_unique _ _ _ 1); lia.
  - change (Zpos p~0) with (2 * Zpos p). by rewrite Z.mul_comm, Z.div_mul.
Qed.

(** [k] steps of [shr_1] divide by [2^k]. *)
Lemma shr_iter_m k m r s :
  0 ≤ m -> shr_m (Nat.iter k shr_1 {| shr_m := m; shr_r := r; shr_s := s |}) = m `div` 2 ^ Z.of_nat k.
Proof.
  intros Hm. induction k as [|k IH]; [by rewrite Z.div_1_r|].
  rewrite Nat.iter_succ. destruct (Nat.iter k shr_1 _) as [m' r' s'] eqn:Hi. simpl in IH.
  rewrite shr_1_div by (subst; apply Z.div_pos; lia). simpl. subst.
  rewrite Nat2Z.inj_succ, Z.pow_succ_r, (Z.mul_comm 2), Z.div_div by lia. done.
Qed.

(** ... exactly, on a multiple of [2^k]. *)
Lemma shr_iter_exact k t :
  0 ≤ t -> Nat.iter k shr_1 {| shr_m := t * 2 ^ Z.of_nat k; shr_r := false; shr_s := false |}
           = {| shr_m := t; shr_r := false; shr_s := false |}.
Proof.
  revert t. induction k as [|k IH]; intros t Ht; [by rewrite Z.mul_1_r|].
  rewrite Nat.iter_succ_r, Nat2Z.inj_succ, Z.pow_succ_r by lia.
  replace (t * (2 * 2 ^ Z.of_nat k)) with (t * 2 ^ Z.of_nat k * 2) by ring.
  rewrite shr_1_div, Z.div_mul, Z.odd_mul, andb_false_r by lia. simpl. by apply IH.
Qed.

(** [shr] by [j ≥ 0] positions of a multiple of [2^j]. *)
Lemma shr_exact t e j :
  0 ≤ t -> 0 ≤ j ->
  shr (shr_record_of_loc (t * 2 ^ j) loc_Exact) e j = ({| shr_m := t; shr_r := false; shr_s := false |}, e + j).
Proof.
  intros Ht Hj. destruct j as [|q|q]; [by rewrite Z.mul_1_r, Z.add_0_r| |lia].
  unfold shr, shr_record_of_loc. rewrite iter_pos_nat, <-(positive_nat_Z q), shr_iter_exact by done.
  by rewrite positive_nat_Z.
Qed.

Lemma round_nearest_even_cases m l : round_nearest_even m l = m ∨ round_nearest_even m l = m + 1.
Proof. destruct l as [|[]]; simpl; try destruct (Z.even m); auto. Qed.

(** A normal mantissa ([53] digits) is not shifted again. *)
Lemma shr_fexp_normal m e :
  2 ^ 52 ≤ m < 2 ^ 53 -> -1074 ≤ e ->
  shr_fexp prec emax m e loc_Exact = ({| shr_m := m; shr_r := false; shr_s := false |}, e).
Proof.
  intros Hm He. unfold shr_fexp. rewrite (Zdigits2_between m 53) by lia.
  unfold fexp. rewrite emin_binary64.
  replace (Z.max (53 + e - prec) (-1074) - e) with 0 by (unfold prec; lia).
  reflexivity.
Qed.

(** Rounding a normal mantissa shifted left by [j] is exact. *)
Lemma round_exact sx t j e :
  2 ^ 52 ≤ t < 2 ^ 53 -> -1074 ≤ e ≤ emax - prec -> 0 ≤ j ->
  binary_round_aux prec emax sx (t * 2 ^ j) (e - j) loc_Exact = S754_finite sx (Z.to_pos t) e.
Proof.
  intros Ht He Hj. unfold binary_round_aux. unfold shr_fexp at 1.
  rewrite (Zdigits2_between _ (53 + j)); [|lia|].
  2:{ rewrite Z.pow_add_r by lia. replace (53 + j - 1) with (52 + j) by lia.
      rewrite Z.pow_add_r by lia. nia. }
  unfold fexp. rewrite emin_binary64.
  replace (Z.max (53 + j + (e - j) - prec) (-1074) - (e - j)) with j by (unfold prec; lia).
  rewrite shr_exact by lia. replace (e - j + j) with e by lia. simpl.
  rewrite shr_fexp_normal by lia. simpl. rewrite (proj2 (Z.leb_le e (emax - prec))) by lia.
  destruct t; [lia|done|lia].
Qed.

(** The carry of rounding up to [2^53] moves to the exponent. *)
Lemma shr_fexp_carry e :
  -1074 ≤ e ->
  shr_fexp prec emax (2 ^ 53) e loc_Exact = ({| shr_m := 2 ^ 52; shr_r := false; shr_s := false |}, e + 1).
Proof.
  intros He. unfold shr_fexp. rewrite (Zdigits2_between _ 54) by lia.
  unfold fexp. rewrite emin_binary64.
  by replace (Z.max (54 + e - prec) (-1074) - e) with 1 by (unfold prec; lia).
Qed.

(** A double: infinity, or a normal number [m * 2^e] with [e] in
    [[lo, emax - prec]]. *)
Definition big_double (lo : Z) (f : spec_float) : Prop :=
  f = S754_infinity false
  ∨ ∃ m e, f = S754_finite false m e ∧ 2 ^ 52 ≤ Zpos m < 2 ^ 53 ∧ lo ≤ e ≤ emax - prec.

Lemma big_double_finite lo m e :
  2 ^ 52 ≤ m < 2 ^ 53 -> lo ≤ e ->
  big_double lo (match m with
                 | Z0 => S754_zero false
                 | Zpos m => if Z.leb e (emax - prec) then S754_finite false m e else S754_infinity false
                 | Zneg _ => S754_nan
                 end).
Proof.
  intros Hb He. destruct m as [|m|m]; [lia| |lia].
  destruct (Z.leb_spec e (emax - prec)); [right|by left]. exists m, e. split; [done|lia].
Qed.

(** Rounding a number of [d > 53] digits keeps [53] and moves the rest
    to the exponent: the result is at least [2^53], or infinite. *)
Lemma round_large (p : positive) :
  54 ≤ Zdigits2 (Zpos p) -> big_double 1 (binary_round_aux prec emax false (Zpos p) 0 loc_Exact).
Proof.
  intros Hd. pose proof (Zdigits2_bounds (Zpos p) eq_refl) as Hp.
  set (d := Zdigits2 (Zpos p)) in *. remember (d - 53) as k eqn:Hk.
  assert (2 ^ d = 2 ^ 53 * 2 ^ k ∧ 2 ^ (d - 1) = 2 ^ 52 * 2 ^ k) as [Hk1 Hk2]
    by (rewrite <-!Z.pow_add_r by lia; split; f_equal; lia).
  unfold binary_round_aux. unfold shr_fexp at 1. fold d. unfold fexp. rewrite emin_binary64.
  replace (Z.max (d + 0 - prec) (-1074) - 0) with (Zpos (Z.to_pos k)) by (unfold prec; lia).
  unfold shr, shr_record_of_loc. rewrite iter_pos_nat.
  destruct (Nat.iter _ shr_1 _) as [q r s] eqn:Hq.
  assert (2 ^ 52 ≤ q < 2 ^ 53) as Hqb.
  { assert (q = Zpos p `div` 2 ^ k) as ->.
    { pose proof (shr_iter_m (Pos.to_nat (Z.to_pos k)) (Zpos p) false false) as Hm.
      rewrite Hq, positive_nat_Z, Z2Pos.id in Hm by lia. by apply Hm. }
    split; [apply Z.div_le_lower_bound|apply Z.div_lt_upper_bound]; lia. }
  cbn [shr_m]. rewrite Z2Pos.id by lia.
  destruct (round_nearest_even_cases q (loc_of_shr_record {| shr_m := q; shr_r := r; shr_s := s |}))
    as [-> | ->]; [|destruct (decide (q + 1 = 2 ^ 53)) as [->|Hne]].
  - rewrite shr_fexp_normal by lia. apply big_double_finite; simpl; lia.
  - rewrite shr_fexp_carry by lia. apply big_double_finite; simpl; lia.
  - rewrite shr_fexp_normal by lia. apply big_double_finite; simpl; lia.
Qed.

Lemma div_eucl_1 a : Z.div_eucl a 1 = (a, 0).
Proof.
  pose proof (Z.div_1_r a). pose proof (Z.mod_1_r a). unfold Z.div, Z.modulo in *.
  destruct (Z.div_eucl a 1); simpl in *; congruence.
Qed.

(** [float(s)] on the digits of a whole number: the rounding of [SFdiv]
    by [1], with enough room below [53] digits to be exact. *)
Lemma float_of_decimal_int p :
  float_of_decimal false (Zpos p) 0 =
    if bool_decide (Zdigits2 (Zpos p) ≤ 53)
    then binary_round_aux prec emax false (Zpos p * 2 ^ (54 - Zdigits2 (Zpos p))) (Zdigits2 (Zpos p) - 54) loc_Exact
    else binary_round_aux prec emax false (Zpos p) 0 loc_Exact.
Proof.
  unfold float_of_decimal, SFdiv, SFdiv_core_binary.
  change (Z.to_pos (10 ^ Z.of_nat 0)) with 1%positive. change (Zdigits2 (Zpos 1)) with 1.
  set (d := Zdigits2 (Zpos p)). assert (1 ≤ d) by (unfold d; simpl; lia).
  unfold fexp. rewrite emin_binary64. case_bool_decide.
  - replace (Z.min (Z.max (d + 0 - (1 + 0) - prec) (-1074)) (0 - 0)) with (d - 54) by (unfold prec; lia).
    replace (0 - 0 - (d - 54)) with (Zpos (Z.to_pos (54 - d))) by lia.
    rewrite Z.shiftl_mul_pow2, div_eucl_1, Z2Pos.id by lia. reflexivity.
  - replace (Z.min (Z.max (d + 0 - (1 + 0) - prec) (-1074)) (0 - 0)) with 0 by (unfold prec; lia).
    rewrite div_eucl_1. reflexivity.
Qed.

(** [1.0], the multiplier of the empty metric prefix. *)
Lemma float_of_pow10_0 : float_of_pow10 0 = S754_finite false (Z.to_pos (2 ^ 52)) (-52).
Proof. reflexivity. Qed.

(** [x * 1.0 = x] on a normal double. *)
Lemma SFmul_one s m e :
  2 ^ 52 ≤ Zpos m < 2 ^ 53 -> -1074 ≤ e ≤ emax - prec ->
  SFmul prec emax (S754_finite s m e) (float_of_pow10 0) = S754_finite s m e.
Proof.
  intros Hm He. rewrite float_of_pow10_0. unfold SFmul.
  rewrite Pos2Z.inj_mul, Z2Pos.id, xorb_false_r by lia.
  replace (e + -52) with (e - 52) by lia. by rewrite round_exact by lia.
Qed.

(** A whole number below [2^53] is read exactly. *)
Lemma float_of_whole_small p :
  Zpos p < 2 ^ 53 -> float_as_Z (SFmul prec emax (float_of_decimal false (Zpos p) 0) (float_of_pow10 0)) = Some (Zpos p).
Proof.
  intros Hp. pose proof (Zdigits2_bounds (Zpos p) eq_refl) as Hb.
  rewrite float_of_decimal_int. set (d := Zdigits2 (Zpos p)) in *.
  assert (1 ≤ d) by (unfold d; simpl; lia).
  assert (d ≤ 53).
  { destruct (decide (d ≤ 53)); [done|]. pose proof (Z.pow_le_mono_r 2 53 (d - 1)). lia. }
  rewrite bool_decide_eq_true_2 by done.
  assert (2 ^ 52 = 2 ^ (d - 1) * 2 ^ (53 - d) ∧ 2 ^ 53 = 2 ^ d * 2 ^ (53 - d)) as [H52 H53]
    by (rewrite <-!Z.pow_add_r by lia; split; f_equal; lia).
  replace (Zpos p * 2 ^ (54 - d)) with (Zpos p * 2 ^ (53 - d) * 2 ^ 1)
    by (rewrite <-Z.mul_assoc, <-Z.pow_add_r by lia; do 2 f_equal; lia).
  replace (d - 54) with (d - 53 - 1) by lia.
  assert (0 < 2 ^ (53 - d)) by (apply Z.pow_pos_nonneg; lia).
  rewrite round_exact, SFmul_one by (rewrite ?Z2Pos.id; unfold emax, prec; nia). simpl.
  case_bool_decide.
  - replace d with 53 by lia. simpl. f_equal. lia.
  - replace (- (d - 53)) with (53 - d) by lia. rewrite Z2Pos.id by nia.
    by rewrite Z.mod_mul, bool_decide_eq_true_2, Z.div_mul by lia.
Qed.

(** Read as a float, a whole number compares equal to an int below
    [2^53] only when that int is the number itself: larger numbers round
    to [2^53] or more, or to infinity. *)
Lemma float_of_whole_exact (n : N) z :
  float_as_Z (SFmul prec emax (float_of_decimal false (Z.of_N n) 0) (float_of_pow10 0)) = Some z ->
  z < 2 ^ 53 -> z = Z.of_N n.
Proof.
  intros Hz Hlt. destruct n as [|p]; [by inversion Hz|]. change (Z.of_N (Npos p)) with (Zpos p) in *.
  destruct (decide (Zpos p < 2 ^ 53)) as [Hp|Hp].
  { rewrite float_of_whole_small in Hz by done. congruence. }
  pose proof (Zdigits2_bounds (Zpos p) eq_refl) as Hb.
  rewrite float_of_decimal_int, bool_decide_eq_false_2 in Hz
    by (intros ?; pose proof (Z.pow_le_mono_r 2 (Zdigits2 (Zpos p)) 53); lia).
  assert (54 ≤ Zdigits2 (Zpos p)) as Hd.
  { destruct (decide (54 ≤ Zdigits2 (Zpos p))); [done|].
    pose proof (Z.pow_le_mono_r 2 (Zdigits2 (Zpos p)) 53). lia. }
  destruct (round_large p Hd) as [Hr|(m & e & Hr & Hm & He)]; rewrite Hr in Hz.
  - by inversion Hz.
  - rewrite SFmul_one in Hz by lia. simpl in Hz. rewrite bool_decide_eq_true_2 in Hz by lia.
    inversion Hz. pose proof (Z.pow_le_mono_r 2 1 e). nia.
Qed.
