(* ===== verification/Units.v ===== *)
(** * YAML scalars, [cv.string] and numbers with a unit: [cv.float_with_unit]

    A scalar of the user's configuration reaches the validators as the
    YAML loader made it: a boolean, an integer or a text ([yaml_scalar]).
    [cv.string] refuses a boolean ("Auto-converted this value to boolean")
    and writes an integer in decimal.

    The I2S platform reads [bits_per_sample] with
    [_validate_bits = cv.float_with_unit("bits", "bit")] (line 51 of
    [i2s_audio/microphone/__init__.py]).  [float_with_unit] belongs to
    esphome's [config_validation], outside the repository; it is modelled
    here as esphome writes it:

    - the value is turned into text with [cv.string] ([str] of a number);
    - the text must match [^(M)\s*(\w*?)bit$] where the mantissa [M] is
      [[-+]?[0-9]*\.?[0-9]*], or the validator raises "Expected bits with unit, got ...";
    - [float(mantissa)] raises [ValueError] on a mantissa without digits,
      which voluptuous reports as "not a valid value";
    - the metric prefix must be a key of [METRIC_SUFFIXES], or it raises
      "Invalid bits suffix ...";
    - the result is [float(mantissa) * METRIC_SUFFIXES[prefix]].

    The number is a Python float ([PyFloat.v]): the mantissa is read by
    [float()], correctly rounded, and multiplied by the prefix's double,
    so [3dbit] is [0.30000000000000004] and [32.000000000000000001bit]
    is [32.0].  Only the regex's greedy reading matters: a shorter
    mantissa never lets the rest match where the longest one fails,
    because the rest would contain the same offending character. *)

From S2P Require Import Prelude PyFloat.
From stdpp Require Export pretty.
From Stdlib Require Import Ascii.

(** A YAML scalar as the configuration front end hands it over: the YAML
    loader turns [true]/[false] into Python booleans, digits into
    integers, and leaves the rest as text. *)
Inductive yaml_scalar := YBool (b : bool) | YInt (z : Z) | YStr (s : string).

#[export] Instance yaml_scalar_eq_dec : EqDecision yaml_scalar.
Proof. solve_decision. Defined.

(** Why [cv.string] refuses a value. *)
Inductive string_error :=
| AutoConvertedBoolean.   (* "Auto-converted this value to boolean, please wrap the value in quotes." *)

(** [cv.string]: a boolean is refused, numbers are written out in
    decimal, as [str] does. *)
Definition cv_string (v : yaml_scalar) : result string_error string :=
  match v with YBool _ => Err AutoConvertedBoolean | YInt z => Ok (pretty z) | YStr s => Ok s end.

(** The ways [float_with_unit] fails. *)
Inductive unit_error :=
| NotAString (e : string_error)                (* raised by cv.string *)
| ExpectedWithUnit (quantity value : string)   (* "Expected {quantity} with unit, got {value}" *)
| InvalidSuffix (quantity suffix : string)     (* "Invalid {quantity} suffix {suffix}" *)
| NotAValidValue.                              (* ValueError of float(), via voluptuous *)

#[export] Instance string_error_eq_dec : EqDecision string_error.
Proof. solve_decision. Defined.
#[export] Instance unit_error_eq_dec : EqDecision unit_error.
Proof. solve_decision. Defined.

(** [METRIC_SUFFIXES], each prefix with the power of ten of its value
    ([1e18], ..., [10], ..., [1e-18], [1]); the value is
    [float_of_pow10] of it. *)
Definition METRIC_SUFFIXES : gmap string Z :=
  list_to_map [("E", 18); ("P", 15); ("T", 12); ("G", 9); ("M", 6); ("k", 3); ("da", 1);
               ("d", -1); ("c", -2); ("m", -3); ("µ", -6); ("u", -6); ("n", -9);
               ("p", -12); ("f", -15); ("a", -18); ("", 0)]%Z.

(** ** The character classes of the pattern *)

Definition is_digit (c : ascii) : bool := bool_decide (48 ≤ nat_of_ascii c ≤ 57)%nat.

(** [\s] of a [str] pattern, Python's whitespace: tab to carriage
    return, the separators [\x1c]-[\x1f] and the space. *)
Definition is_space (c : ascii) : bool :=
  let n := nat_of_ascii c in bool_decide (9 ≤ n ≤ 13 ∨ 28 ≤ n ≤ 32)%nat.

(** [\w] with [re.UNICODE]: letters, digits, [_]; bytes of a multi-byte
    UTF-8 character count as letters. *)
Definition is_word (c : ascii) : bool :=
  let n := nat_of_ascii c in
  is_digit c || bool_decide (65 ≤ n ≤ 90)%nat || bool_decide (97 ≤ n ≤ 122)%nat
  || bool_decide (c = "_"%char) || bool_decide (128 ≤ n)%nat.

Definition digit_value (c : ascii) : Z := (Z.of_nat (nat_of_ascii c) - 48)%Z.

(** The longest prefix of characters satisfying [p], and the rest. *)
Fixpoint span (p : ascii -> bool) (s : string) : string * string :=
  match s with
  | String c s' => if p c then let '(d, r) := span p s' in (String c d, r) else (EmptyString, s)
  | EmptyString => (EmptyString, EmptyString)
  end.

Fixpoint all_chars (p : ascii -> bool) (s : string) : bool :=
  match s with String c s' => p c && all_chars p s' | EmptyString => true end.

Fixpoint digits_value (acc : Z) (d : string) : Z :=
  match d with
  | String c d' => digits_value (10 * acc + digit_value c)%Z d'
  | EmptyString => acc
  end.

(** [s = p ++ suf]: the [p]. *)
Fixpoint strip_suffix (suf s : string) : option string :=
  if bool_decide (s = suf) then Some EmptyString
  else match s with
       | String c s' => String c <$> strip_suffix suf s'
       | EmptyString => None
       end.

(** ** The pattern and the conversion *)

(** The mantissa group [M = [-+]?[0-9]*\.?[0-9]*], read greedily. *)
Record mantissa := { m_neg : bool; m_int : string; m_frac : string }.

Definition scan_mantissa (s : string) : mantissa * string :=
  let '(sg, s1) :=
    match s with
    | String c s' =>
        if bool_decide (c = "-"%char) then (true, s')
        else if bool_decide (c = "+"%char) then (false, s') else (false, s)
    | EmptyString => (false, EmptyString)
    end in
  let '(i, s2) := span is_digit s1 in
  let s3 := match s2 with
            | String c s' => if bool_decide (c = "."%char) then s' else s2
            | EmptyString => s2
            end in
  let '(f, s4) := span is_digit s3 in
  ({| m_neg := sg; m_int := i; m_frac := f |}, s4).

(** [(\w*?)unit$]: [$] also matches before a final newline. *)
Definition unit_tail (unit s : string) : option string :=
  match strip_suffix unit s with
  | Some p => Some p
  | None => strip_suffix (unit +:+ String "010" EmptyString) s
  end.

(** [float(mantissa)], when it has a digit. *)
Definition mantissa_value (m : mantissa) : spec_float :=
  float_of_decimal (m_neg m) (digits_value 0 (m_int m +:+ m_frac m)) (String.length (m_frac m)).

(** [cv.float_with_unit(quantity, unit)] applied to a value. *)
Definition float_with_unit (quantity unit : string) (v : yaml_scalar) : result unit_error spec_float :=
  match cv_string v with
  | Err e => Err (NotAString e)
  | Ok s =>
      let '(m, rest) := scan_mantissa s in
      match unit_tail unit (span is_space rest).2 with
      | Some sfx =>
          if all_chars is_word sfx then
            if bool_decide (m_int m = EmptyString ∧ m_frac m = EmptyString) then Err NotAValidValue
            else match METRIC_SUFFIXES !! sfx with
                 | Some e => Ok (SFmul prec emax (mantissa_value m) (float_of_pow10 e))
                 | None => Err (InvalidSuffix quantity sfx)
                 end
          else Err (ExpectedWithUnit quantity s)
      | None => Err (ExpectedWithUnit quantity s)
      end
  end.

(** ** Lemmas *)

(** The first character, if any, ends the mantissa and is not blank. *)
Definition head_ok (t : string) : bool :=
  match t with
  | String c _ => negb (is_digit c) && negb (bool_decide (c = "."%char)) && negb (is_space c)
  | EmptyString => true
  end.

(** [+:+] does not unfold by [simpl]: its two equations. *)
Lemma string_app_String c a b : String c a +:+ b = String c (a +:+ b).
Proof. reflexivity. Qed.
Lemma string_app_Empty b : EmptyString +:+ b = b.
Proof. reflexivity. Qed.
#[export] Hint Rewrite string_app_String string_app_Empty : mic_rw.

Lemma string_app_assoc (a b c : string) : (a +:+ b) +:+ c = a +:+ (b +:+ c).
Proof. induction a as [|x a IH]; autorewrite with mic_rw; [done|]. by rewrite IH. Qed.

Lemma string_app_nil_r (a : string) : a +:+ EmptyString = a.
Proof. induction a as [|x a IH]; autorewrite with mic_rw; [done|]. by rewrite IH. Qed.

Lemma string_length_app (a b : string) :
  String.length (a +:+ b) = String.length a + String.length b.
Proof. induction a as [|x a IH]; autorewrite with mic_rw; simpl; [done|]. by rewrite IH. Qed.

Lemma all_chars_app p a b : all_chars p (a +:+ b) = all_chars p a && all_chars p b.
Proof.
  induction a as [|x a IH]; autorewrite with mic_rw; simpl; [done|].
  by rewrite IH, andb_assoc.
Qed.

Lemma digits_value_app acc a b : digits_value acc (a +:+ b) = digits_value (digits_value acc a) b.
Proof. revert acc. induction a as [|x a IH]; intros acc; autorewrite with mic_rw; simpl; [done|]. apply IH. Qed.

Lemma pretty_N_char_digit d :
  (d < 10)%N -> is_digit (pretty_N_char d) = true ∧ digit_value (pretty_N_char d) = Z.of_N d.
Proof.
  intros Hd. assert (d = 0 ∨ d = 1 ∨ d = 2 ∨ d = 3 ∨ d = 4 ∨ d = 5 ∨ d = 6 ∨ d = 7 ∨ d = 8 ∨ d = 9)%N
    as Hcases by lia.
  repeat destruct Hcases as [->|Hcases]; [..|subst]; split; reflexivity.
Qed.

(** [pretty_N_go x s] writes the digits of [x] in front of [s]. *)
Lemma pretty_N_go_app x s : pretty_N_go x s = pretty_N_go x EmptyString +:+ s.
Proof.
  revert s. induction (N.lt_wf_0 x) as [x _ IH]; intros s.
  destruct (decide (x = 0)%N) as [->|Hx]; [done|].
  rewrite !(pretty_N_go_step x) by lia.
  assert (x `div` 10 < x)%N as Hlt by (apply N.div_lt; lia).
  rewrite (IH _ Hlt), (IH _ Hlt (String _ EmptyString)).
  by rewrite string_app_assoc.
Qed.

Lemma pretty_N_go_digits x :
  all_chars is_digit (pretty_N_go x EmptyString) = true
  ∧ digits_value 0 (pretty_N_go x EmptyString) = Z.of_N x.
Proof.
  induction (N.lt_wf_0 x) as [x _ IH].
  destruct (decide (x = 0)%N) as [->|Hx]; [done|].
  rewrite pretty_N_go_step, pretty_N_go_app by lia.
  destruct (IH (x `div` 10)%N) as [Hd Hv]; [apply N.div_lt; lia|].
  destruct (pretty_N_char_digit (x `mod` 10)%N) as [Hc Hcv]; [apply N.mod_lt; lia|].
  rewrite all_chars_app, digits_value_app, Hd, Hv. simpl. rewrite Hc, Hcv.
  split; [done|]. pose proof (N.div_mod x 10). lia.
Qed.

(** The decimal text of a natural number: digits only, at least one,
    read back as the number. *)
Lemma pretty_N_digits (n : N) :
  all_chars is_digit (pretty n) = true ∧ pretty n ≠ EmptyString
  ∧ digits_value 0 (pretty n) = Z.of_N n.
Proof.
  unfold pretty, pretty_N. destruct (decide (n = 0)%N) as [->|Hn]; [done|].
  destruct (pretty_N_go_digits n) as [Hd Hv]. split_and!; [done| |done].
  rewrite pretty_N_go_step by lia. rewrite pretty_N_go_app.
  intros Heq. apply (f_equal String.length) in Heq. rewrite string_length_app in Heq.
  simpl in Heq. lia.
Qed.

Lemma span_digits_app d t :
  all_chars is_digit d = true -> head_ok t = true -> span is_digit (d +:+ t) = (d, t).
Proof.
  intros Hd Ht. induction d as [|c d IH]; autorewrite with mic_rw; simpl in *.
  - destruct t as [|c t]; [done|]. simpl in *.
    destruct (is_digit c); simpl in *; [discriminate|done].
  - apply andb_prop in Hd as [-> Hd]. by rewrite IH.
Qed.

Lemma span_space_head t : head_ok t = true -> span is_space t = (EmptyString, t).
Proof. destruct t as [|c t]; simpl; [done|]. destruct (is_space c); [|done]. by rewrite andb_false_r. Qed.

(** A number without sign, followed by a non-digit, is read whole. *)
Lemma scan_mantissa_digits d t :
  all_chars is_digit d = true -> d ≠ EmptyString -> head_ok t = true ->
  scan_mantissa (d +:+ t) = ({| m_neg := false; m_int := d; m_frac := EmptyString |}, t).
Proof.
  intros Hd Hne Ht. destruct d as [|c d']; [done|]. simpl in Hd.
  unfold scan_mantissa. rewrite string_app_String. simpl.
  assert (c ≠ "-"%char ∧ c ≠ "+"%char) as [Hm Hp]
    by (split; intros ->; discriminate).
  rewrite !bool_decide_eq_false_2 by done.
  change (String c (d' +:+ t)) with (String c d' +:+ t).
  rewrite (span_digits_app (String c d') t) by done.
  destruct t as [|c' t']; [done|]. simpl in Ht.
  destruct (is_digit c') eqn:Hc'; [discriminate|].
  destruct (bool_decide (c' = "."%char)); [discriminate|]. simpl. by rewrite Hc'.
Qed.

(** The same after a minus sign. *)
Lemma scan_mantissa_neg d t :
  all_chars is_digit d = true -> head_ok t = true ->
  scan_mantissa ("-" +:+ (d +:+ t)) = ({| m_neg := true; m_int := d; m_frac := EmptyString |}, t).
Proof.
  intros Hd Ht. unfold scan_mantissa. rewrite string_app_String, string_app_Empty. simpl.
  rewrite (span_digits_app d t) by done.
  destruct t as [|c' t']; [done|]. simpl in Ht.
  destruct (is_digit c') eqn:Hc'; [discriminate|].
  destruct (bool_decide (c' = "."%char)); [discriminate|]. simpl. by rewrite Hc'.
Qed.

Lemma strip_suffix_app suf p : strip_suffix suf (p +:+ suf) = Some p.
Proof.
  induction p as [|c p IH]; autorewrite with mic_rw; simpl.
  - destruct suf; simpl; [done|by rewrite bool_decide_eq_true_2].
  - rewrite bool_decide_eq_false_2, IH; [done|].
    intros Heq. apply (f_equal String.length) in Heq. simpl in Heq.
    rewrite string_length_app in Heq. lia.
Qed.

Lemma strip_suffix_short suf s : String.length s < String.length suf -> strip_suffix suf s = None.
Proof.
  induction s as [|c s IH]; intros Hl; simpl in *.
  - rewrite bool_decide_eq_false_2; [done|]. intros <-. simpl in Hl. lia.
  - rewrite bool_decide_eq_false_2 by (intros <-; simpl in Hl; lia). by rewrite IH by lia.
Qed.

(** Every metric prefix is a word, and what follows the mantissa when it
    is written before a unit starting with a letter is not part of the
    mantissa. *)
Lemma METRIC_SUFFIXES_word sfx e :
  METRIC_SUFFIXES !! sfx = Some e ->
  all_chars is_word sfx = true ∧ head_ok (sfx +:+ "bit") = true.
Proof.
  intros He. apply elem_of_list_to_map_2 in He.
  repeat (apply elem_of_cons in He as [He|He]; [simplify_eq; split; reflexivity|]).
  by apply elem_of_nil in He.
Qed.

(** The text of a natural number, a metric prefix and the unit [bit] is
    read as [float(n) * METRIC_SUFFIXES[prefix]]. *)
Lemma float_with_unit_whole q (n : N) sfx e :
  METRIC_SUFFIXES !! sfx = Some e ->
  float_with_unit q "bit" (YStr (pretty n +:+ sfx +:+ "bit"))
  = Ok (SFmul prec emax (float_of_decimal false (Z.of_N n) 0) (float_of_pow10 e)).
Proof.
  intros He. destruct (METRIC_SUFFIXES_word sfx e He) as [Hw Hh].
  destruct (pretty_N_digits n) as (Hd & Hne & Hv).
  unfold float_with_unit. cbn [cv_string].
  rewrite scan_mantissa_digits by done. cbv zeta.
  rewrite span_space_head by done. cbn [snd].
  unfold unit_tail. rewrite strip_suffix_app, Hw, bool_decide_eq_false_2 by naive_solver.
  rewrite He. unfold mantissa_value. cbn [m_neg m_int m_frac].
  by rewrite string_app_nil_r, Hv.
Qed.
