(* ===== verification/Scalars.v ===== *)
(** * esphome's scalar validators: [cv.boolean], [cv.int_], [cv.int_range]

    The I2S platform validates [sample_rate] with [cv.int_range(min=1)]
    (line 73 of [i2s_audio/microphone/__init__.py]), [use_apll] and [pdm]
    with [cv.boolean] (lines 77 and 92); the ADF platform validates
    [gain_log2] with [cv.int_range(0, 7)] (line 28 of
    [adf_pipeline/microphone/__init__.py]).  These validators belong to
    esphome's [config_validation], outside the repository; they are
    modelled here as esphome writes them:

    - [boolean(value)]: a Python [bool] is returned as is; a [str] is
      lowered and must be one of [true yes on enable] or
      [false no off disable]; anything else raises "Expected boolean
      value, but cannot convert ... to a boolean";
    - [int_(value)]: an [int] is returned as is, and a [bool] is one
      ([isinstance(True, int)] holds in Python); a [str] is lowered, read
      in base 16 when it starts with [0x] and in base 10 otherwise, by
      Python's [int(value, base)], whose [ValueError] becomes "Expected
      integer, but cannot parse {value} as an integer";
    - [int_range(min, max)] is [All(int_, Range(min=min, max=max))]:
      "value must be at least {min}", then "value must be at most {max}".

    [int(s, base)] is modelled with Python's grammar on ASCII text:
    surrounding whitespace, an optional sign, for base 16 an optional
    [0x] prefix, digits of the base with single underscores between them
    (and one right after the prefix).  Python also accepts non-ASCII
    decimal digits and whitespace; the model reads UTF-8 bytes and
    rejects them. *)

From S2P Require Import Prelude Units.
From Stdlib Require Import Ascii.

(** ** Text *)

(** [str.lower] on ASCII letters. *)
Definition ascii_lower (c : ascii) : ascii :=
  let n := nat_of_ascii c in
  if bool_decide (65 ≤ n ≤ 90)%nat then ascii_of_nat (n + 32) else c.

Fixpoint str_lower (s : string) : string :=
  match s with String c s' => String (ascii_lower c) (str_lower s') | EmptyString => EmptyString end.

(** [str.lstrip()] and [str.rstrip()] with Python's whitespace. *)
Fixpoint strip_start (s : string) : string :=
  match s with String c s' => if is_space c then strip_start s' else s | EmptyString => EmptyString end.

Fixpoint strip_end (s : string) : string :=
  match s with
  | String c s' =>
      let r := strip_end s' in
      if is_space c && bool_decide (r = EmptyString) then EmptyString else String c r
  | EmptyString => EmptyString
  end.

(** ** [cv.boolean] *)

Inductive scalar_error :=
| ExpectedBoolean                 (* "Expected boolean value, but cannot convert ... to a boolean" *)
| ExpectedInteger (value : string) (* "Expected integer, but cannot parse {value} as an integer" *)
| ValueAtLeast (min : Z)          (* voluptuous Range: "value must be at least {min}" *)
| ValueAtMost (max : Z).          (* voluptuous Range: "value must be at most {max}" *)

#[export] Instance scalar_error_eq_dec : EqDecision scalar_error.
Proof. solve_decision. Defined.

(** The spellings [boolean] accepts, after lowering. *)
Definition BOOLEAN_WORDS (b : bool) : list string :=
  if b then ["true"; "yes"; "on"; "enable"] else ["false"; "no"; "off"; "disable"].

Definition cv_boolean (v : yaml_scalar) : result scalar_error bool :=
  match v with
  | YBool b => Ok b
  | YStr s =>
      let l := str_lower s in
      if bool_decide (l ∈ BOOLEAN_WORDS true) then Ok true
      else if bool_decide (l ∈ BOOLEAN_WORDS false) then Ok false
      else Err ExpectedBoolean
  | YInt _ => Err ExpectedBoolean
  end.

(** ** [int(s, base)] and [cv.int_] *)

(** The value of a digit of [base] (10 or 16). *)
Definition digit_in_base (base : Z) (c : ascii) : option Z :=
  let n := Z.of_nat (nat_of_ascii c) in
  let d := if bool_decide (48 ≤ n ≤ 57)%Z then Some (n - 48)%Z
           else if bool_decide (97 ≤ n ≤ 102)%Z then Some (n - 87)%Z
           else if bool_decide (65 ≤ n ≤ 70)%Z then Some (n - 55)%Z
           else None in
  match d with Some v => if bool_decide (v < base)%Z then Some v else None | None => None end.

(** The digits of the number: [us_ok] when an underscore may come next,
    [need] while a digit is still required. *)
Fixpoint py_digits (base : Z) (us_ok need : bool) (acc : Z) (s : string) : option Z :=
  match s with
  | EmptyString => if need then None else Some acc
  | String c s' =>
      if bool_decide (c = "_"%char) then
        if us_ok then py_digits base false true acc s' else None
      else match digit_in_base base c with
           | Some d => py_digits base true false (base * acc + d)%Z s'
           | None => None
           end
  end.

Definition has_hex_prefix (s : string) : bool :=
  match s with
  | String c0 (String c1 _) => bool_decide (c0 = "0"%char ∧ (c1 = "x"%char ∨ c1 = "X"%char))
  | _ => false
  end.

Definition drop2 (s : string) : string :=
  match s with String _ (String _ s') => s' | _ => EmptyString end.

(** [int(s, base)] for base 10 or 16; [None] is the [ValueError]. *)
Definition py_int (base : Z) (s : string) : option Z :=
  let t := strip_end (strip_start s) in
  let '(neg, t1) :=
    match t with
    | String c t' =>
        if bool_decide (c = "-"%char) then (true, t')
        else if bool_decide (c = "+"%char) then (false, t') else (false, t)
    | EmptyString => (false, EmptyString)
    end in
  let '(prefixed, t2) :=
    if bool_decide (base = 16%Z) && has_hex_prefix t1 then (true, drop2 t1) else (false, t1) in
  (fun z => if neg then (- z)%Z else z) <$> py_digits base prefixed true 0 t2.

(** [cv.int_]: booleans are integers in Python. *)
Definition cv_int (v : yaml_scalar) : result scalar_error Z :=
  match v with
  | YBool b => Ok (if b then 1%Z else 0%Z)
  | YInt z => Ok z
  | YStr s =>
      let l := str_lower s in
      let base := if String.prefix "0x" l then 16%Z else 10%Z in
      match py_int base l with Some z => Ok z | None => Err (ExpectedInteger l) end
  end.

(** voluptuous's [Range(min=min, max=max)] on an integer. *)
Definition Range (min max : option Z) (z : Z) : result scalar_error Z :=
  match min with
  | Some m => if bool_decide (z < m)%Z then Err (ValueAtLeast m) else Ok z
  | None => Ok z
  end ≫= fun z =>
  match max with
  | Some M => if bool_decide (M < z)%Z then Err (ValueAtMost M) else Ok z
  | None => Ok z
  end.

(** [cv.int_range(min, max) = All(int_, Range(min=min, max=max))] *)
Definition int_range (min max : option Z) (v : yaml_scalar) : result scalar_error Z :=
  cv_int v ≫= Range min max.

(** ** Lemmas *)

(** [int_range] returns the integer [int_] reads, when it lies within
    the bounds. *)
Lemma int_range_Ok min max v z :
  int_range min max v = Ok z <->
  cv_int v = Ok z ∧ (∀ m, min = Some m -> (m ≤ z)%Z) ∧ (∀ M, max = Some M -> (z ≤ M)%Z).
Proof.
  unfold int_range, Range. destruct (cv_int v) as [z'|e]; cbn; [|naive_solver].
  destruct min as [m|], max as [M|]; cbn; repeat (case_bool_decide; cbn);
    split; intros Hr; simplify_eq; try (naive_solver lia);
    destruct Hr as ([= ->] & Hm & HM); exfalso;
    try pose proof (Hm _ eq_refl); try pose proof (HM _ eq_refl); lia.
Qed.
