(* ===== verification/Platform.v ===== *)
(** * The ESP32 platform as the microphone platforms see it

    ESP32 variants ([esphome.components.esp32.const]), the variant lists of
    [i2s_audio/microphone/__init__.py] ([INTERNAL_ADC_VARIANTS],
    [PDM_VARIANTS]) and, as the class [AdcPlatform], the collaborators from
    esphome's [adc] and [pins] modules that the schema and [to_code] call:
    the ADC pin tables, [validate_adc_pin] and
    [pins.internal_gpio_input_pin_number].  The class states only what the
    platform code relies on; [esphome_platform] is the instance with
    esphome's tables, used by the examples. *)

From S2P Require Import Prelude.

(** ** Variants *)

(** [esp32.const.VARIANTS]; [esp32.get_esp32_variant()] returns one of
    these for the build, and is modelled as an argument. *)
Inductive esp32_variant :=
| VARIANT_ESP32
| VARIANT_ESP32S2
| VARIANT_ESP32S3
| VARIANT_ESP32C3
| VARIANT_ESP32C2
| VARIANT_ESP32C6
| VARIANT_ESP32H2.

#[export] Instance esp32_variant_eq_dec : EqDecision esp32_variant.
Proof. solve_decision. Defined.

Definition variant_index (v : esp32_variant) : nat :=
  match v with
  | VARIANT_ESP32 => 0 | VARIANT_ESP32S2 => 1 | VARIANT_ESP32S3 => 2
  | VARIANT_ESP32C3 => 3 | VARIANT_ESP32C2 => 4 | VARIANT_ESP32C6 => 5
  | VARIANT_ESP32H2 => 6
  end.

Definition variant_of_index (n : nat) : esp32_variant :=
  match n with
  | 0 => VARIANT_ESP32 | 1 => VARIANT_ESP32S2 | 2 => VARIANT_ESP32S3
  | 3 => VARIANT_ESP32C3 | 4 => VARIANT_ESP32C2 | 5 => VARIANT_ESP32C6
  | _ => VARIANT_ESP32H2
  end.

Lemma variant_of_index_inv v : variant_of_index (variant_index v) = v.
Proof. by destruct v. Qed.

#[export] Instance esp32_variant_countable : Countable esp32_variant :=
  inj_countable' variant_index variant_of_index variant_of_index_inv.

Definition VARIANTS : list esp32_variant :=
  [VARIANT_ESP32; VARIANT_ESP32S2; VARIANT_ESP32S3; VARIANT_ESP32C3;
   VARIANT_ESP32C2; VARIANT_ESP32C6; VARIANT_ESP32H2].

Lemma elem_of_VARIANTS v : v ∈ VARIANTS.
Proof. destruct v; set_solver. Qed.

(** ** The variant lists of the I2S microphone platform *)

(** [INTERNAL_ADC_VARIANTS = [esp32.const.VARIANT_ESP32]] *)
Definition INTERNAL_ADC_VARIANTS : list esp32_variant := [VARIANT_ESP32].

(** [PDM_VARIANTS = [esp32.const.VARIANT_ESP32, esp32.const.VARIANT_ESP32S3]] *)
Definition PDM_VARIANTS : list esp32_variant := [VARIANT_ESP32; VARIANT_ESP32S3].

(** ** The ADC and pin collaborators *)

(** Why [validate_adc_pin] or [internal_gpio_input_pin_number] rejects a
    pin ([cv.Invalid] with these messages). *)
Inductive pin_error :=
| VariantNotSupported (v : esp32_variant)   (* "This ESP32 variant ... is not supported" *)
| NoAdcOnPin (v : esp32_variant) (pin : nat) (* "... doesn't support ADC on this pin" *)
| InvalidPin (v : esp32_variant) (pin : nat). (* "Invalid pin number" *)

#[export] Instance pin_error_eq_dec : EqDecision pin_error.
Proof. solve_decision. Defined.

(** A GPIO pin is a number: the pin schema's [number] field. *)
Abbreviation pin := nat.

(** [d[variant][pin]] on a two-level table, as an option. *)
Definition table_lookup (t : gmap esp32_variant (gmap nat nat)) (v : esp32_variant) (p : pin)
  : option nat := t !! v ≫= (.!! p).

Class AdcPlatform := {
  (** [adc.ESP32_VARIANT_ADC1_PIN_TO_CHANNEL]: variant -> pin -> ADC1 channel *)
  ESP32_VARIANT_ADC1_PIN_TO_CHANNEL : gmap esp32_variant (gmap nat nat);
  (** [adc.ESP32_VARIANT_ADC2_PIN_TO_CHANNEL] *)
  ESP32_VARIANT_ADC2_PIN_TO_CHANNEL : gmap esp32_variant (gmap nat nat);
  (** [adc.validate_adc_pin] on ESP32: the validated pin's number *)
  validate_adc_pin : esp32_variant -> pin -> result pin_error pin;
  (** [pins.internal_gpio_input_pin_number] *)
  internal_gpio_input_pin_number : esp32_variant -> pin -> result pin_error pin;
  (** an accepted ADC pin keeps its number and is a pin of one of the ADCs *)
  validate_adc_pin_sound v p q :
    validate_adc_pin v p = Ok q ->
    q = p /\ (is_Some (table_lookup ESP32_VARIANT_ADC1_PIN_TO_CHANNEL v p)
              \/ is_Some (table_lookup ESP32_VARIANT_ADC2_PIN_TO_CHANNEL v p));
  (** every pin of the first ADC is accepted *)
  validate_adc_pin_adc1 v p :
    is_Some (table_lookup ESP32_VARIANT_ADC1_PIN_TO_CHANNEL v p) ->
    validate_adc_pin v p = Ok p;
  internal_gpio_input_pin_number_sound v p q :
    internal_gpio_input_pin_number v p = Ok q -> q = p
}.

(** ** esphome's values *)

Definition pin_table (l : list (nat * nat)) : gmap nat nat := list_to_map l.

(** The ADC1 table of esphome's [adc] component. *)
Definition esphome_adc1 : gmap esp32_variant (gmap nat nat) :=
  list_to_map
    [(VARIANT_ESP32, pin_table [(36,0); (37,1); (38,2); (39,3); (32,4); (33,5); (34,6); (35,7)]);
     (VARIANT_ESP32S2, pin_table (zip (seq 1 10) (seq 0 10)));
     (VARIANT_ESP32S3, pin_table (zip (seq 1 10) (seq 0 10)));
     (VARIANT_ESP32C3, pin_table (zip (seq 0 5) (seq 0 5)));
     (VARIANT_ESP32C2, pin_table (zip (seq 0 5) (seq 0 5)));
     (VARIANT_ESP32C6, pin_table (zip (seq 0 7) (seq 0 7)));
     (VARIANT_ESP32H2, pin_table (zip (seq 1 5) (seq 0 5)))].

(** The ADC2 table of esphome's [adc] component. *)
Definition esphome_adc2 : gmap esp32_variant (gmap nat nat) :=
  list_to_map
    [(VARIANT_ESP32, pin_table [(4,0); (0,1); (2,2); (15,3); (13,4); (12,5); (14,6); (27,7); (25,8); (26,9)]);
     (VARIANT_ESP32S2, pin_table (zip (seq 11 10) (seq 0 10)));
     (VARIANT_ESP32S3, pin_table (zip (seq 11 10) (seq 0 10)));
     (VARIANT_ESP32C3, pin_table [(5,0)]);
     (VARIANT_ESP32C2, ∅); (VARIANT_ESP32C6, ∅); (VARIANT_ESP32H2, ∅)].

(** The highest GPIO number of each variant. *)
Definition max_gpio (v : esp32_variant) : nat :=
  match v with
  | VARIANT_ESP32 => 39 | VARIANT_ESP32S2 => 46 | VARIANT_ESP32S3 => 48
  | VARIANT_ESP32C3 => 21 | VARIANT_ESP32C2 => 20 | VARIANT_ESP32C6 => 30
  | VARIANT_ESP32H2 => 27
  end.

(** [pins.internal_gpio_input_pin_number]: on the ESP32 the flash pins
    6-11 and the missing pins 20, 24, 28-31 are refused. *)
Definition gpio_input_ok (v : esp32_variant) (p : pin) : bool :=
  bool_decide (p ≤ max_gpio v)
  && negb (bool_decide (v = VARIANT_ESP32 /\ p ∈ [6; 7; 8; 9; 10; 11; 20; 24; 28; 29; 30; 31])).

Definition esphome_gpio_input_pin_number (v : esp32_variant) (p : pin) : result pin_error pin :=
  if gpio_input_ok v p then Ok p else Err (InvalidPin v p).

(** [adc.validate_adc_pin] on the ESP32 family: the pin must be an input
    GPIO and a pin of the first or of the second ADC. *)
Definition esphome_validate_adc_pin (v : esp32_variant) (p : pin) : result pin_error pin :=
  esphome_gpio_input_pin_number v p ≫= fun p =>
  if bool_decide (esphome_adc1 !! v = None /\ esphome_adc2 !! v = None)
  then Err (VariantNotSupported v)
  else if bool_decide (table_lookup esphome_adc1 v p = None
                       /\ table_lookup esphome_adc2 v p = None)
  then Err (NoAdcOnPin v p)
  else Ok p.

Lemma esphome_gpio_input_pin_number_sound v p q :
  esphome_gpio_input_pin_number v p = Ok q -> q = p.
Proof. unfold esphome_gpio_input_pin_number. destruct (gpio_input_ok v p); congruence. Qed.

Lemma esphome_validate_adc_pin_sound v p q :
  esphome_validate_adc_pin v p = Ok q ->
  q = p /\ (is_Some (table_lookup esphome_adc1 v p) \/ is_Some (table_lookup esphome_adc2 v p)).
Proof.
  unfold esphome_validate_adc_pin. intros H. inv_ok.
  apply esphome_gpio_input_pin_number_sound in Ha as ->.
  repeat case_bool_decide; inv_ok; try discriminate.
  split; [done|]. by apply not_both_None.
Qed.

(** Every ADC1 pin is a valid input GPIO of its variant. *)
Lemma esphome_adc1_gpio v p :
  is_Some (table_lookup esphome_adc1 v p) -> esphome_gpio_input_pin_number v p = Ok p.
Proof.
  intros [ch Hs]. unfold table_lookup, esphome_gpio_input_pin_number in *.
  destruct (esphome_adc1 !! v) as [m|] eqn:E; simpl in Hs; [|discriminate].
  assert (map_Forall (λ p _, gpio_input_ok v p = true) m) as Hall.
  { apply map_Forall_to_list.
    destruct v; vm_compute in E; injection E as <-; vm_compute; repeat constructor. }
  by rewrite (Hall p ch Hs).
Qed.

Lemma esphome_validate_adc_pin_adc1 v p :
  is_Some (table_lookup esphome_adc1 v p) -> esphome_validate_adc_pin v p = Ok p.
Proof.
  intros Hs. unfold esphome_validate_adc_pin.
  rewrite (esphome_adc1_gpio v p Hs). simpl.
  rewrite !bool_decide_eq_false_2; [done| |].
  - intros [Hn _]. destruct Hs as [? Hs]. by rewrite Hn in Hs.
  - intros [Hn _]. unfold table_lookup in Hs. destruct (esphome_adc1 !! v); simpl in *.
    + done.
    + by destruct Hs.
Qed.

#[export] Instance esphome_platform : AdcPlatform := {|
  ESP32_VARIANT_ADC1_PIN_TO_CHANNEL := esphome_adc1;
  ESP32_VARIANT_ADC2_PIN_TO_CHANNEL := esphome_adc2;
  validate_adc_pin := esphome_validate_adc_pin;
  internal_gpio_input_pin_number := esphome_gpio_input_pin_number;
  validate_adc_pin_sound := esphome_validate_adc_pin_sound;
  validate_adc_pin_adc1 := esphome_validate_adc_pin_adc1;
  internal_gpio_input_pin_number_sound := esphome_gpio_input_pin_number_sound
|}.
