(* ===== verification/Microphone.v ===== *)
(** * The code generator and esphome's microphone component

    What both microphone platforms emit and call: the C++ statements that
    [cg.new_Pvariable], [cg.register_component], [cg.add(...)] and the
    registration helpers append to the generated program, and the
    registration with esphome's [microphone] component.  Which
    [register_microphone] the build has (one that accepts an
    [audio_device] argument or the older one) is the class
    [MicrophoneComponent]; the compatibility block the I2S [to_code] ends
    with is [register_microphone_compat] (the ADF file has its own copy,
    proved equal to it).  The C++ classes
    the platforms declare ([cpp_class]) and the class each generated call
    needs give the typing of generated programs ([well_typed]). *)

From S2P Require Import Prelude Platform.

(** The statements of the generated C++ program. *)
Inductive stmt :=
| NewPvariable (cls : string)             (* var = new <cls>(); *)
| RegisterComponent                       (* App.register_component(var); *)
| SetAdcChannel (ch : nat)                (* var->set_adc_channel(ch); *)
| RegisterI2SReader                       (* register_i2s_reader(var, config) *)
| SetGainLog2 (g : Z)                     (* var->set_gain_log2(g); *)
| SetupPipelineController                 (* setup_pipeline_controller(var, config) *)
| RegisterMicrophone (audio_device : option (gmap string nat)).
                                          (* microphone.register_microphone(var, config[, audio_device]) *)

#[export] Instance stmt_eq_dec : EqDecision stmt.
Proof. solve_decision. Defined.

(** Why [to_code] fails: a dictionary subscription of a missing key. *)
Inductive codegen_error :=
| KeyErrorConf (key : string)
| KeyErrorVariant (v : esp32_variant)
| KeyErrorPin (pin : nat).

#[export] Instance codegen_error_eq_dec : EqDecision codegen_error.
Proof. solve_decision. Defined.

(** [to_code] runs in this monad: it appends statements and may raise. *)
Abbreviation codegen := (cg (list stmt) codegen_error).

(** The installed [microphone] component: whether
    ["audio_device" in inspect.signature(microphone.register_microphone).parameters]. *)
Class MicrophoneComponent := {
  register_microphone_has_audio_device : bool
}.

(** The two kinds of [microphone] component a build can have. *)
Definition microphone_with_audio_device : MicrophoneComponent :=
  {| register_microphone_has_audio_device := true |}.
Definition microphone_legacy : MicrophoneComponent :=
  {| register_microphone_has_audio_device := false |}.

(** [audio_device = {"max_channels": 1}] *)
Definition audio_device : gmap string nat := {["max_channels" := 1]}.

(** The block that ends both [to_code]s:
    [if "audio_device" in inspect.signature(...).parameters:
       await microphone.register_microphone(var, config, audio_device=audio_device)
     else:
       await microphone.register_microphone(var, config)] *)
Definition register_microphone_compat `{MicrophoneComponent} : codegen unit :=
  if register_microphone_has_audio_device
  then emit (RegisterMicrophone (Some audio_device))
  else emit (RegisterMicrophone None).

(** ** The C++ classes the generated code instantiates

    [ns.class_(name, *parents)] declares a C++ class by its name and the
    classes it derives from, named here as the Python module names them. *)
Record cpp_class := { class_name : string; class_bases : list string }.

(** Whether an object of class [cls] is a [b]. *)
Definition is_a (cls : cpp_class) (b : string) : bool :=
  bool_decide (b = class_name cls ∨ b ∈ class_bases cls).

(** The class each statement's call needs its [var] to be: esphome's
    [cg.register_component] refuses a non-[Component], the registration
    helpers take a [Microphone], an [I2SReader] or an
    [ADFPipelineController], and a setter is a method of its own class. *)
Definition stmt_requires (st : stmt) : option string :=
  match st with
  | NewPvariable _ => None
  | RegisterComponent => Some "cg.Component"
  | SetAdcChannel _ => Some "I2SAudioMicrophone"
  | RegisterI2SReader => Some "I2SReader"
  | SetGainLog2 _ => Some "ADFMicrophone"
  | SetupPipelineController => Some "ADFPipelineController"
  | RegisterMicrophone _ => Some "microphone.Microphone"
  end.

(** A generated program is well typed for [cls]: it creates one variable
    of that class first, and every later statement applies to it a call
    that class supports. *)
Definition well_typed (cls : cpp_class) (prog : list stmt) : bool :=
  match prog with
  | NewPvariable n :: rest =>
      bool_decide (n = class_name cls)
      && forallb (fun st => match stmt_requires st with Some b => is_a cls b | None => false end) rest
  | _ => false
  end.

(** ** Running code generation *)

Lemma emit_run {E} (x : stmt) (s : list stmt) :
  (emit x : cg (list stmt) E unit) s = Ok (tt, s ++ [x]).
Proof. reflexivity. Qed.

Lemma register_microphone_compat_run `{MicrophoneComponent} s :
  register_microphone_compat s
  = Ok (tt, s ++ [RegisterMicrophone (if register_microphone_has_audio_device
                                      then Some audio_device else None)]).
Proof. unfold register_microphone_compat. by destruct register_microphone_has_audio_device. Qed.

#[export] Hint Rewrite @emit_run @register_microphone_compat_run : mic_rw.
