(* ===== verification/I2SConfig.v ===== *)
(** * Configuration validation of the I2S microphone platform

    [CONFIG_SCHEMA] of [src/esphome/components/i2s_audio/microphone/__init__.py]
    (lines 26-102): the typed schema keyed on [adc_type], the fields of
    [BASE_SCHEMA] with their defaults, the mode-specific fields, and
    [validate_esp32_variant].  The input is the user's configuration after
    YAML parsing, one optional value per key; the output is the validated
    dictionary [to_code] reads, or the exception the validation raises.
    The scalar keys stay the YAML scalars the user wrote: [bits_per_sample]
    is read by [_validate_bits] (line 51), esphome's [float_with_unit] of
    [Units.v]; [sample_rate], [use_apll] and [pdm] by [cv.int_range] and
    [cv.boolean] of [Scalars.v].  voluptuous validates every key and
    collects all the errors ([collect]); they are listed in the order of
    the schema's keys, where voluptuous follows the order of the user's
    keys and reports missing required keys last. *)

From S2P Require Import Prelude PyFloat Units Scalars Platform.

(** ** Data *)

(** [DEPENDENCIES = ["i2s_audio"]] *)
Definition DEPENDENCIES : list string := ["i2s_audio"].

(** [i2s_channel_fmt_t], the values of [CHANNELS]. *)
Inductive i2s_channel_fmt_t :=
| I2S_CHANNEL_FMT_ONLY_LEFT
| I2S_CHANNEL_FMT_ONLY_RIGHT.

(** [i2s_bits_per_sample_t], the values of [BITS_PER_SAMPLE]. *)
Inductive i2s_bits_per_sample_t :=
| I2S_BITS_PER_SAMPLE_16BIT
| I2S_BITS_PER_SAMPLE_32BIT.

#[export] Instance i2s_channel_fmt_t_eq_dec : EqDecision i2s_channel_fmt_t.
Proof. solve_decision. Defined.
#[export] Instance i2s_bits_per_sample_t_eq_dec : EqDecision i2s_bits_per_sample_t.
Proof. solve_decision. Defined.

(** [CHANNELS = {"left": ..._ONLY_LEFT, "right": ..._ONLY_RIGHT}] *)
Definition CHANNELS : gmap string i2s_channel_fmt_t :=
  list_to_map [("left", I2S_CHANNEL_FMT_ONLY_LEFT); ("right", I2S_CHANNEL_FMT_ONLY_RIGHT)].

(** [BITS_PER_SAMPLE = {16: ..._16BIT, 32: ..._32BIT}] *)
Definition BITS_PER_SAMPLE : gmap Z i2s_bits_per_sample_t :=
  list_to_map [(16%Z, I2S_BITS_PER_SAMPLE_16BIT); (32%Z, I2S_BITS_PER_SAMPLE_32BIT)].

(** The keys of the configuration ([CONF_*]). *)
Definition CONF_ADC_TYPE := "adc_type".
Definition CONF_CHANNEL := "channel".
Definition CONF_SAMPLE_RATE := "sample_rate".
Definition CONF_BITS_PER_SAMPLE := "bits_per_sample".
Definition CONF_USE_APLL := "use_apll".
Definition CONF_ADC_PIN := "adc_pin".
Definition CONF_I2S_DIN_PIN := "i2s_din_pin".
Definition CONF_PDM := "pdm".
Definition CONF_I2S_ADC := "i2s_adc".

(** The user's configuration: each key present or absent.  Scalars are
    as YAML wrote them ([16000], ["32bit"], [true], ["yes"]); pins are
    GPIO numbers, [i2s_adc] is the ADC model name. *)
Record raw_config := {
  raw_adc_type : option string;
  raw_channel : option string;
  raw_sample_rate : option yaml_scalar;
  raw_bits_per_sample : option yaml_scalar;
  raw_use_apll : option yaml_scalar;
  raw_adc_pin : option nat;
  raw_i2s_din_pin : option nat;
  raw_pdm : option yaml_scalar;
  raw_i2s_adc : option string
}.

(** The validated dictionary.  The mode-specific keys are present only in
    the mode that declares them, as in the Python dictionary. *)
Record mic_config := {
  adc_type : string;
  channel : i2s_channel_fmt_t;
  sample_rate : Z;
  bits_per_sample : i2s_bits_per_sample_t;
  use_apll : bool;
  adc_pin : option nat;
  i2s_din_pin : option nat;
  pdm : option bool;
  i2s_adc : option string
}.

(** Why the schema rejects a configuration ([cv.Invalid] messages). *)
Inductive schema_error :=
| AdcTypeNotSpecified                         (* typed_schema: "adc_type not specified!" *)
| UnknownValue (key : string)                 (* one_of / cv.enum: "Unknown value ..." *)
| ScalarInvalid (key : string) (e : scalar_error) (* cv.int_range, cv.boolean *)
| RequiredKeyMissing (key : string)           (* cv.Required: "required key not provided" *)
| ExtraKey (key : string)                     (* voluptuous: "extra keys not allowed" *)
| UnitInvalid (key : string) (e : unit_error) (* cv.float_with_unit *)
| PinInvalid (key : string) (e : pin_error)   (* validate_adc_pin, internal_gpio_input_pin_number *)
| NoPdmSupport (v : esp32_variant)            (* "{variant} does not support PDM" *)
| NoInternalAdc (v : esp32_variant).          (* "{variant} does not have an internal ADC" *)

#[export] Instance schema_error_eq_dec : EqDecision schema_error.
Proof. solve_decision. Defined.

(** Errors a field of the schema reports, as opposed to the variant
    checks of [validate_esp32_variant]. *)
Definition field_error (e : schema_error) : Prop :=
  match e with NoPdmSupport _ | NoInternalAdc _ => False | _ => True end.

(** The exceptions the configuration code can raise. *)
Inductive py_exc :=
| Invalid (errs : list schema_error)   (* cv.Invalid / MultipleInvalid *)
| KeyError (key : string)
| NotImplementedError.

(** ** voluptuous's mapping validation *)

Abbreviation field A := (result (list schema_error) A).

Definition errs_of {A} (r : field A) : list schema_error :=
  match r with Ok _ => [] | Err es => es end.

(** voluptuous validates every key of a mapping and collects the errors
    of all of them; the dictionary is built only when no key failed.
    [collect] is that applicative: the errors of both sides, in order. *)
Definition collect {A B} (f : field (A -> B)) (a : field A) : field B :=
  match f, a with
  | Ok g, Ok x => Ok (g x)
  | Ok _, Err e | Err e, Ok _ => Err e
  | Err e1, Err e2 => Err (e1 ++ e2)
  end.

Local Infix "<*>" := collect (at level 61, left associativity).

(** The error of a scalar validator, under its key. *)
Definition scalar_field {A} (key : string) (r : result scalar_error A) : field A :=
  match r with Ok a => Ok a | Err e => Err [ScalarInvalid key e] end.

(** A key the selected schema does not declare. *)
Definition extra_key {A} (key : string) (o : option A) : list schema_error :=
  match o with Some _ => [ExtraKey key] | None => [] end.

(** "extra keys not allowed" for every undeclared key present. *)
Definition no_extra_keys (errs : list schema_error) : field unit :=
  match errs with [] => Ok tt | _ => Err errs end.

(** A [cv.Required] key validated by [f]. *)
Definition required {A B} (key : string) (f : A -> result pin_error B) (o : option A) : field B :=
  match o with
  | None => Err [RequiredKeyMissing key]
  | Some a => match f a with Ok b => Ok b | Err e => Err [PinInvalid key e] end
  end.

(** ** The fields of [BASE_SCHEMA] *)

(** [cv.Optional(CONF_CHANNEL, default="right"): cv.enum(CHANNELS)] *)
Definition validate_channel (raw : option string) : field i2s_channel_fmt_t :=
  subscript (fun _ => [UnknownValue CONF_CHANNEL]) CHANNELS (default "right" raw).

(** [cv.Optional(CONF_SAMPLE_RATE, default=16000): cv.int_range(min=1)] *)
Definition validate_sample_rate (raw : option yaml_scalar) : field Z :=
  scalar_field CONF_SAMPLE_RATE (int_range (Some 1%Z) None (default (YInt 16000) raw)).

(** [_validate_bits = cv.float_with_unit("bits", "bit")] *)
Definition _validate_bits : yaml_scalar -> result unit_error spec_float :=
  float_with_unit "bits" "bit".

Arguments _validate_bits : simpl never.
Arguments float_as_Z : simpl never.

(** [cv.Optional(CONF_BITS_PER_SAMPLE, default="32bit"):
     cv.All(_validate_bits, cv.enum(BITS_PER_SAMPLE))]: the default goes
    through the validators too; [cv.enum] finds the float [32.0] under
    the key [32] ([32.0 == 32] and [hash(32.0) == hash(32)]). *)
Definition validate_bits_per_sample (raw : option yaml_scalar) : field i2s_bits_per_sample_t :=
  match _validate_bits (default (YStr "32bit") raw) with
  | Err e => Err [UnitInvalid CONF_BITS_PER_SAMPLE e]
  | Ok x =>
      match float_as_Z x with
      | Some z => subscript (fun _ => [UnknownValue CONF_BITS_PER_SAMPLE]) BITS_PER_SAMPLE z
      | None => Err [UnknownValue CONF_BITS_PER_SAMPLE]
      end
  end.

(** Without the key, the default ["32bit"] gives 32-bit samples. *)
Lemma validate_bits_per_sample_default : validate_bits_per_sample None = Ok I2S_BITS_PER_SAMPLE_32BIT.
Proof. vm_compute. reflexivity. Qed.

(** [cv.Optional(CONF_USE_APLL, default=False): cv.boolean] *)
Definition validate_use_apll (raw : option yaml_scalar) : field bool :=
  scalar_field CONF_USE_APLL (cv_boolean (default (YBool false) raw)).

(** [cv.Required(CONF_PDM): cv.boolean] *)
Definition validate_pdm (raw : option yaml_scalar) : field bool :=
  match raw with
  | None => Err [RequiredKeyMissing CONF_PDM]
  | Some v => scalar_field CONF_PDM (cv_boolean v)
  end.

Section Schema.
Context `{AdcPlatform} (variant : esp32_variant).

(** [BASE_SCHEMA.extend({cv.Required(CONF_ADC_PIN): validate_adc_pin})]:
    the keys of [BASE_SCHEMA], the pin, and no key of the other mode. *)
Definition internal_schema (raw : raw_config) : field mic_config :=
  Ok (fun ch sr bits apll p (_ : unit) =>
        {| adc_type := "internal"; channel := ch; sample_rate := sr; bits_per_sample := bits;
           use_apll := apll; adc_pin := Some p; i2s_din_pin := None; pdm := None;
           i2s_adc := None |})
  <*> validate_channel (raw_channel raw)
  <*> validate_sample_rate (raw_sample_rate raw)
  <*> validate_bits_per_sample (raw_bits_per_sample raw)
  <*> validate_use_apll (raw_use_apll raw)
  <*> required CONF_ADC_PIN (validate_adc_pin variant) (raw_adc_pin raw)
  <*> no_extra_keys (extra_key CONF_I2S_DIN_PIN (raw_i2s_din_pin raw)
                     ++ extra_key CONF_PDM (raw_pdm raw)
                     ++ extra_key CONF_I2S_ADC (raw_i2s_adc raw)).

(** [BASE_SCHEMA.extend({cv.Required(CONF_I2S_DIN_PIN): pins.internal_gpio_input_pin_number,
     cv.Required(CONF_PDM): cv.boolean,
     cv.Optional(CONF_I2S_ADC, default={CONF_MODEL: "generic"}): CONFIG_SCHEMA_ADC})] *)
Definition external_schema (raw : raw_config) : field mic_config :=
  Ok (fun ch sr bits apll d b (_ : unit) =>
        {| adc_type := "external"; channel := ch; sample_rate := sr; bits_per_sample := bits;
           use_apll := apll; adc_pin := None; i2s_din_pin := Some d; pdm := Some b;
           i2s_adc := Some (default "generic" (raw_i2s_adc raw)) |})
  <*> validate_channel (raw_channel raw)
  <*> validate_sample_rate (raw_sample_rate raw)
  <*> validate_bits_per_sample (raw_bits_per_sample raw)
  <*> validate_use_apll (raw_use_apll raw)
  <*> required CONF_I2S_DIN_PIN (internal_gpio_input_pin_number variant) (raw_i2s_din_pin raw)
  <*> validate_pdm (raw_pdm raw)
  <*> no_extra_keys (extra_key CONF_ADC_PIN (raw_adc_pin raw)).

(** [cv.typed_schema({"internal": ..., "external": ...}, key=CONF_ADC_TYPE)]:
    the key selects the schema, which validates the rest, and the key is
    put back into the result. *)
Definition typed_schema (raw : raw_config) : field mic_config :=
  match raw_adc_type raw with
  | None => Err [AdcTypeNotSpecified]
  | Some t =>
      if bool_decide (t = "internal") then internal_schema raw
      else if bool_decide (t = "external") then external_schema raw
      else Err [UnknownValue CONF_ADC_TYPE]
  end.

(** [validate_esp32_variant(config)] (lines 54-65). *)
Definition validate_esp32_variant (config : mic_config) : result py_exc mic_config :=
  if bool_decide (adc_type config = "external") then
    match pdm config with
    | None => Err (KeyError CONF_PDM)
    | Some true =>
        if variant ∈? PDM_VARIANTS then Ok config else Err (Invalid [NoPdmSupport variant])
    | Some false => Ok config
    end
  else if bool_decide (adc_type config = "internal") then
    if variant ∈? INTERNAL_ADC_VARIANTS then Ok config
    else Err (Invalid [NoInternalAdc variant])
  else Err NotImplementedError.

(** [CONFIG_SCHEMA = cv.All(cv.typed_schema(...), validate_esp32_variant)] *)
Definition CONFIG_SCHEMA (raw : raw_config) : result py_exc mic_config :=
  match typed_schema raw with
  | Ok c => validate_esp32_variant c
  | Err es => Err (Invalid es)
  end.
End Schema.

(** ** What an accepted configuration satisfies *)

Section Specification.
Context `{AdcPlatform}.

(** The hardware constraints of spec 4.1 as the code states them: the
    sample rate is positive, and either the internal ADC of a variant
    that has one with a pin of one of its ADCs, or an external I2S input
    pin with PDM only on a PDM-capable variant. *)
Definition hardware_ok (v : esp32_variant) (c : mic_config) : Prop :=
  (1 ≤ sample_rate c)%Z ∧
  ((adc_type c = "internal" ∧ v ∈ INTERNAL_ADC_VARIANTS ∧ pdm c = None
    ∧ i2s_din_pin c = None
    ∧ ∃ p, adc_pin c = Some p
           ∧ (is_Some (table_lookup ESP32_VARIANT_ADC1_PIN_TO_CHANNEL v p)
              ∨ is_Some (table_lookup ESP32_VARIANT_ADC2_PIN_TO_CHANNEL v p)))
   ∨ (adc_type c = "external" ∧ adc_pin c = None ∧ is_Some (i2s_din_pin c)
      ∧ ∃ b, pdm c = Some b ∧ (b = true -> v ∈ PDM_VARIANTS))).
End Specification.

(** ** Lemmas on the fields and the schemas *)

Lemma collect_Ok {A B} (f : field (A -> B)) a b :
  (f <*> a) = Ok b -> ∃ g x, f = Ok g ∧ a = Ok x ∧ b = g x.
Proof. destruct f, a; naive_solver. Qed.

(** Take apart a hypothesis [Ok _ <*> _ <*> ... = Ok c]. *)
Ltac collect_Ok :=
  repeat match goal with
         | H : collect _ _ = Ok _ |- _ => apply collect_Ok in H as (? & ? & ? & ? & ?)
         end; simplify_eq.

(** A field that fails reports at least one error, all field errors. *)
Definition field_ok {A} (r : field A) : Prop :=
  match r with Ok _ => True | Err es => es ≠ [] ∧ Forall field_error es end.

Lemma collect_ok {A B} (f : field (A -> B)) a : field_ok f -> field_ok a -> field_ok (f <*> a).
Proof.
  destruct f as [g|e1], a as [x|e2]; simpl; try done.
  intros [He1 F1] [_ F2]. split; [by destruct e1|by apply Forall_app].
Qed.

Create HintDb field_ok discriminated.
Create HintDb reports discriminated.

Ltac field_ok_tac :=
  repeat (simpl; case_match); simpl; try done; (split; [done|apply Forall_singleton; exact I]).

Lemma scalar_field_ok {A} key (r : result scalar_error A) : field_ok (scalar_field key r).
Proof. unfold scalar_field. field_ok_tac. Qed.

Lemma required_ok {A B} key (f : A -> result pin_error B) o : field_ok (required key f o).
Proof. unfold required. field_ok_tac. Qed.

Lemma validate_channel_ok raw : field_ok (validate_channel raw).
Proof. unfold validate_channel, subscript. field_ok_tac. Qed.

Lemma validate_bits_per_sample_ok raw : field_ok (validate_bits_per_sample raw).
Proof. unfold validate_bits_per_sample, subscript. field_ok_tac. Qed.

Lemma validate_pdm_ok raw : field_ok (validate_pdm raw).
Proof. unfold validate_pdm, scalar_field. field_ok_tac. Qed.

Lemma no_extra_keys_ok errs : Forall field_error errs -> field_ok (no_extra_keys errs).
Proof. destruct errs; done. Qed.

Lemma extra_key_fields {A} key (o : option A) : Forall field_error (extra_key key o).
Proof. destruct o; repeat constructor. Qed.

#[local] Hint Resolve collect_ok scalar_field_ok required_ok validate_channel_ok
  validate_bits_per_sample_ok validate_pdm_ok no_extra_keys_ok extra_key_fields Forall_app_2 : field_ok.

(** [l] is among the errors [r] reports. *)
Definition reports {A} (l : list schema_error) (r : field A) : Prop := ∃ es, r = Err es ∧ l ⊆ es.

Lemma reports_Err {A} l : reports (A:=A) l (Err l).
Proof. by exists l. Qed.

Lemma reports_collect_l {A B} l (f : field (A -> B)) a : reports l f -> reports l (f <*> a).
Proof. intros (es & -> & Hl). destruct a; eexists; (split; [reflexivity|]); set_solver. Qed.

Lemma reports_collect_r {A B} l (f : field (A -> B)) a : reports l a -> reports l (f <*> a).
Proof. intros (es & -> & Hl). destruct f; eexists; (split; [reflexivity|]); set_solver. Qed.

#[local] Hint Resolve reports_Err reports_collect_l reports_collect_r : reports.

Lemma validate_sample_rate_Ok raw z : validate_sample_rate raw = Ok z -> (1 ≤ z)%Z.
Proof.
  unfold validate_sample_rate, scalar_field. destruct int_range eqn:Hr; [|discriminate].
  intros [= <-]. apply int_range_Ok in Hr as (_ & Hm & _). by apply Hm.
Qed.

Lemma required_Ok {A B} key (f : A -> result pin_error B) o b :
  required key f o = Ok b -> exists a, o = Some a /\ f a = Ok b.
Proof. unfold required. destruct o as [a|]; [destruct (f a) eqn:E|]; naive_solver. Qed.

Section SchemaLemmas.
Context `{AdcPlatform} (v : esp32_variant).

Lemma internal_schema_Ok raw c :
  internal_schema v raw = Ok c ->
  adc_type c = "internal" ∧ (1 ≤ sample_rate c)%Z ∧ pdm c = None ∧ i2s_din_pin c = None
  ∧ ∃ p, raw_adc_pin raw = Some p ∧ validate_adc_pin v p = Ok p ∧ adc_pin c = Some p.
Proof.
  unfold internal_schema. intros Hs. collect_Ok. simpl.
  match goal with H : required _ _ _ = Ok _ |- _ => apply required_Ok in H as (p & Hp & Hv) end.
  pose proof (validate_adc_pin_sound _ _ _ Hv) as [-> _].
  split_and!; eauto using validate_sample_rate_Ok.
Qed.

Lemma external_schema_Ok raw c :
  external_schema v raw = Ok c ->
  adc_type c = "external" ∧ (1 ≤ sample_rate c)%Z ∧ adc_pin c = None
  ∧ is_Some (i2s_din_pin c) ∧ ∃ b, pdm c = Some b ∧ validate_pdm (raw_pdm raw) = Ok b.
Proof.
  unfold external_schema. intros Hs. collect_Ok. simpl.
  split_and!; eauto using validate_sample_rate_Ok.
Qed.

Lemma typed_schema_Ok raw c :
  typed_schema v raw = Ok c ->
  internal_schema v raw = Ok c ∨ external_schema v raw = Ok c.
Proof. intros Hs. unfold typed_schema in Hs. repeat case_match; simplify_eq; auto. Qed.

(** A schema that fails reports at least one error, and only field
    errors. *)
Lemma internal_schema_ok raw : field_ok (internal_schema v raw).
Proof.
  unfold internal_schema, validate_sample_rate, validate_use_apll.
  repeat apply collect_ok; try exact I; eauto with field_ok.
Qed.

Lemma external_schema_ok raw : field_ok (external_schema v raw).
Proof.
  unfold external_schema, validate_sample_rate, validate_use_apll.
  repeat apply collect_ok; try exact I; eauto with field_ok.
Qed.

Lemma typed_schema_ok raw : field_ok (typed_schema v raw).
Proof.
  unfold typed_schema. destruct (raw_adc_type raw); [|field_ok_tac].
  repeat case_bool_decide; auto using internal_schema_ok, external_schema_ok; field_ok_tac.
Qed.

Lemma typed_schema_Err raw es :
  typed_schema v raw = Err es -> es ≠ [] ∧ Forall field_error es.
Proof. intros Hs. pose proof (typed_schema_ok raw) as Hok. by rewrite Hs in Hok. Qed.
End SchemaLemmas.

(** ** Properties of [CONFIG_SCHEMA] *)

Section Properties.
Context `{AdcPlatform}.

(** The two shapes of the dictionary the typed schema produces. *)
Lemma typed_schema_Ok_modes v raw c :
  typed_schema v raw = Ok c ->
  (1 ≤ sample_rate c)%Z ∧
  ((adc_type c = "internal" ∧ pdm c = None ∧ i2s_din_pin c = None
    ∧ ∃ p, raw_adc_pin raw = Some p ∧ validate_adc_pin v p = Ok p ∧ adc_pin c = Some p)
   ∨ (adc_type c = "external" ∧ adc_pin c = None ∧ is_Some (i2s_din_pin c)
      ∧ ∃ b, pdm c = Some b ∧ validate_pdm (raw_pdm raw) = Ok b)).
Proof.
  intros [Hi | He]%typed_schema_Ok.
  - destruct (internal_schema_Ok v raw c Hi) as (? & ? & ? & ? & ?). split; [done|]. by left.
  - destruct (external_schema_Ok v raw c He) as (? & ? & ? & ? & ?). split; [done|]. by right.
Qed.

(** [validate_esp32_variant] returns the dictionary it checks unchanged. *)
Lemma CONFIG_SCHEMA_Ok_typed v raw c :
  CONFIG_SCHEMA v raw = Ok c -> typed_schema v raw = Ok c.
Proof.
  unfold CONFIG_SCHEMA, validate_esp32_variant.
  destruct (typed_schema v raw); [|discriminate]. repeat case_match; congruence.
Qed.

(** Run [validate_esp32_variant] in a hypothesis [Hs : CONFIG_SCHEMA .. = ..]
    once the schema's result [Ht] and its [adc_type] [Hty] are known. *)
Ltac run_variant_check Hs Ht Hty :=
  unfold CONFIG_SCHEMA in Hs; rewrite Ht in Hs; unfold validate_esp32_variant in Hs;
  rewrite Hty in Hs; simpl in Hs.

(** An accepted configuration that has the [adc_pin] key is an internal
    one, and its pin passed [validate_adc_pin]. *)
Lemma CONFIG_SCHEMA_adc_pin v raw c p :
  CONFIG_SCHEMA v raw = Ok c -> adc_pin c = Some p ->
  adc_type c = "internal" ∧ validate_adc_pin v p = Ok p.
Proof.
  intros Hs%CONFIG_SCHEMA_Ok_typed Hp.
  destruct (typed_schema_Ok_modes v raw c Hs) as [_ [(? & _ & _ & p' & _ & ? & Ha) | (_ & Ha & _)]];
    split; congruence.
Qed.

(** C1. Every configuration [CONFIG_SCHEMA] accepts satisfies the
    hardware constraints of its variant: a positive sample rate, and
    either the internal ADC on a variant of [INTERNAL_ADC_VARIANTS] with
    an ADC pin, or an external input pin with PDM only on a variant of
    [PDM_VARIANTS]. *)
Theorem CONFIG_SCHEMA_sound v raw c :
  CONFIG_SCHEMA v raw = Ok c -> hardware_ok v c.
Proof.
  intros Hs. pose proof (CONFIG_SCHEMA_Ok_typed v raw c Hs) as Ht.
  destruct (typed_schema_Ok_modes v raw c Ht)
    as [Hsr [(Hty & Hp & Hd & p & _ & Hv & Ha) | (Hty & Ha & Hd & b & Hp & _)]];
    split; try done; run_variant_check Hs Ht Hty.
  - left. split_and!; [done| |done|done|].
    + by case_bool_decide.
    + exists p. split; [done|]. by apply (validate_adc_pin_sound v p p).
  - right. split_and!; [done|done|done|]. exists b. split; [done|].
    intros ->. rewrite Hp in Hs. by case_bool_decide.
Qed.

(** C2. Validation only ever raises [cv.Invalid] with at least one
    error: the [KeyError] of [config[CONF_PDM]] and the
    [NotImplementedError] of [validate_esp32_variant] are unreachable
    behind the typed schema. *)
Theorem CONFIG_SCHEMA_raises_Invalid v raw e :
  CONFIG_SCHEMA v raw = Err e -> ∃ es, e = Invalid es ∧ es ≠ [].
Proof.
  intros Hs. destruct (typed_schema v raw) as [c|es] eqn:Ht.
  - destruct (typed_schema_Ok_modes v raw c Ht)
      as [_ [(Hty & Hp & _) | (Hty & _ & _ & b & Hp & _)]];
      run_variant_check Hs Ht Hty; [|rewrite Hp in Hs; destruct b];
      repeat case_bool_decide; simplify_eq; eauto.
  - unfold CONFIG_SCHEMA in Hs. rewrite Ht in Hs. simplify_eq.
    exists es. split; [done|]. by apply (typed_schema_Err v raw).
Qed.

(** C3. An external microphone whose [pdm] reads as true ([true], [yes],
    [on], [enable] in any case) on a variant outside [PDM_VARIANTS] is
    rejected, and with exactly ["{variant} does not support PDM"] when
    its fields are valid. *)
Theorem CONFIG_SCHEMA_pdm_unsupported v raw :
  raw_adc_type raw = Some "external" -> validate_pdm (raw_pdm raw) = Ok true -> v ∉ PDM_VARIANTS ->
  CONFIG_SCHEMA v raw =
    Err (Invalid (match typed_schema v raw with Ok _ => [NoPdmSupport v] | Err es => es end)).
Proof.
  intros Ht Hp Hv. unfold CONFIG_SCHEMA.
  destruct (typed_schema v raw) as [c|es] eqn:Hs; [|done].
  assert (external_schema v raw = Ok c) as He
    by (unfold typed_schema in Hs; rewrite Ht in Hs; done).
  destruct (external_schema_Ok v raw c He) as (Hty & _ & _ & _ & b & Hpdm & Hb).
  rewrite Hp in Hb. simplify_eq.
  unfold validate_esp32_variant. rewrite Hty, Hpdm. simpl.
  by rewrite bool_decide_eq_false_2.
Qed.

(** C4. An internal-ADC microphone on a variant outside
    [INTERNAL_ADC_VARIANTS] is rejected, with exactly
    ["{variant} does not have an internal ADC"] when its fields are
    valid. *)
Theorem CONFIG_SCHEMA_no_internal_adc v raw :
  raw_adc_type raw = Some "internal" -> v ∉ INTERNAL_ADC_VARIANTS ->
  CONFIG_SCHEMA v raw =
    Err (Invalid (match typed_schema v raw with Ok _ => [NoInternalAdc v] | Err es => es end)).
Proof.
  intros Ht Hv. unfold CONFIG_SCHEMA.
  destruct (typed_schema v raw) as [c|es] eqn:Hs; [|done].
  assert (internal_schema v raw = Ok c) as Hi
    by (unfold typed_schema in Hs; rewrite Ht in Hs; done).
  destruct (internal_schema_Ok v raw c Hi) as (Hty & _).
  unfold validate_esp32_variant. rewrite Hty. simpl.
  by rewrite bool_decide_eq_false_2.
Qed.

(** C6. The field checks of the schema run before the variant checks:
    when a field fails, validation reports the field errors and never a
    variant error, whatever the variant supports. *)
Theorem CONFIG_SCHEMA_field_errors_first v raw es :
  typed_schema v raw = Err es ->
  CONFIG_SCHEMA v raw = Err (Invalid es) ∧ Forall field_error es.
Proof.
  intros Hs. unfold CONFIG_SCHEMA. rewrite Hs.
  split; [done|]. apply (typed_schema_Err v raw es Hs).
Qed.
End Properties.

(** A configuration with only [adc_type] and the mode's pin keys. *)
Definition internal_raw (p : nat) : raw_config :=
  {| raw_adc_type := Some "internal"; raw_channel := None; raw_sample_rate := None;
     raw_bits_per_sample := None; raw_use_apll := None; raw_adc_pin := Some p;
     raw_i2s_din_pin := None; raw_pdm := None; raw_i2s_adc := None |}.

Definition external_raw (din : nat) (pdm_on : bool) : raw_config :=
  {| raw_adc_type := Some "external"; raw_channel := None; raw_sample_rate := None;
     raw_bits_per_sample := None; raw_use_apll := None; raw_adc_pin := None;
     raw_i2s_din_pin := Some din; raw_pdm := Some (YBool pdm_on); raw_i2s_adc := None |}.

Section Defaults.
Context `{AdcPlatform}.

(** C5. The defaults of [BASE_SCHEMA]: an internal microphone on the
    ESP32 with an ADC1 pin and no other key is accepted with the right
    channel, 16000 Hz, 32-bit samples and no APLL. *)
Theorem CONFIG_SCHEMA_internal_defaults p :
  is_Some (table_lookup ESP32_VARIANT_ADC1_PIN_TO_CHANNEL VARIANT_ESP32 p) ->
  CONFIG_SCHEMA VARIANT_ESP32 (internal_raw p) =
    Ok {| adc_type := "internal"; channel := I2S_CHANNEL_FMT_ONLY_RIGHT;
          sample_rate := 16000; bits_per_sample := I2S_BITS_PER_SAMPLE_32BIT;
          use_apll := false; adc_pin := Some p; i2s_din_pin := None; pdm := None;
          i2s_adc := None |}.
Proof.
  intros Hp. unfold CONFIG_SCHEMA, typed_schema, internal_schema, required.
  cbn [internal_raw raw_bits_per_sample raw_adc_pin].
  rewrite validate_bits_per_sample_default, (validate_adc_pin_adc1 _ _ Hp). reflexivity.
Qed.
End Defaults.

(** ** [bits_per_sample]: a number with the unit [bit] *)

(** A decimal integer without the unit is not a number of bits. *)
Lemma validate_bits_int z :
  _validate_bits (YInt z) = Err (ExpectedWithUnit "bits" (pretty z)).
Proof.
  unfold _validate_bits, float_with_unit. cbn [cv_string].
  destruct z as [|p|p]; [reflexivity| |].
  - destruct (pretty_N_digits (Npos p)) as (Hd & Hne & _).
    change (pretty (Zpos p)) with (pretty (Npos p)).
    pose proof (scan_mantissa_digits _ EmptyString Hd Hne eq_refl) as Hs.
    rewrite string_app_nil_r in Hs. rewrite Hs. reflexivity.
  - destruct (pretty_N_digits (Npos p)) as (Hd & _ & _).
    change (pretty (Zneg p)) with ("-" +:+ pretty (Npos p)).
    pose proof (scan_mantissa_neg _ EmptyString Hd eq_refl) as Hs.
    rewrite string_app_nil_r in Hs. rewrite Hs. reflexivity.
Qed.

(** The errors of a field of [BASE_SCHEMA] are among those the typed
    schema reports, in either mode. *)
Lemma typed_schema_reports_base `{AdcPlatform} v raw l :
  raw_adc_type raw = Some "internal" ∨ raw_adc_type raw = Some "external" ->
  validate_sample_rate (raw_sample_rate raw) = Err l
  ∨ validate_bits_per_sample (raw_bits_per_sample raw) = Err l
  ∨ validate_use_apll (raw_use_apll raw) = Err l
  ∨ validate_channel (raw_channel raw) = Err l ->
  reports l (typed_schema v raw).
Proof.
  intros Ht Hf. unfold typed_schema.
  destruct Ht as [-> | ->]; simpl; [unfold internal_schema | unfold external_schema];
    destruct Hf as [-> | [-> | [-> | ->]]]; eauto 10 with reports.
Qed.

(** What the typed schema reports, [CONFIG_SCHEMA] raises. *)
Lemma CONFIG_SCHEMA_reports `{AdcPlatform} v raw l :
  reports l (typed_schema v raw) -> ∃ es, CONFIG_SCHEMA v raw = Err (Invalid es) ∧ l ⊆ es.
Proof. intros (es & Hs & Hl). exists es. unfold CONFIG_SCHEMA. by rewrite Hs. Qed.

(** The keys of [BITS_PER_SAMPLE]. *)
Lemma BITS_PER_SAMPLE_keys z b : BITS_PER_SAMPLE !! z = Some b -> z = 16%Z ∨ z = 32%Z.
Proof.
  unfold BITS_PER_SAMPLE. simpl. rewrite !lookup_insert_Some, lookup_empty. naive_solver.
Qed.

(** C32. [bits_per_sample] must be written with its unit: a plain number
    such as [bits_per_sample: 32] is rejected, whatever else the
    configuration holds, with "Expected bits with unit, got 32". *)
Theorem CONFIG_SCHEMA_bits_without_unit `{AdcPlatform} v raw z :
  raw_bits_per_sample raw = Some (YInt z) ->
  raw_adc_type raw = Some "internal" ∨ raw_adc_type raw = Some "external" ->
  ∃ es, CONFIG_SCHEMA v raw = Err (Invalid es)
        ∧ UnitInvalid CONF_BITS_PER_SAMPLE (ExpectedWithUnit "bits" (pretty z)) ∈ es.
Proof.
  intros Hb Ht.
  assert (validate_bits_per_sample (raw_bits_per_sample raw)
          = Err [UnitInvalid CONF_BITS_PER_SAMPLE (ExpectedWithUnit "bits" (pretty z))]) as Hv
    by (rewrite Hb; unfold validate_bits_per_sample; simpl; by rewrite validate_bits_int).
  destruct (CONFIG_SCHEMA_reports v raw _ (typed_schema_reports_base v raw _ Ht (or_intror (or_introl Hv))))
    as (es & Hs & Hsub).
  exists es. split; [done|]. set_solver.
Qed.

(** C33. Written as a whole number of bits, [bits_per_sample] is
    accepted exactly for 16 and 32, with the matching
    [i2s_bits_per_sample_t]. *)
Theorem validate_bits_per_sample_whole (n : N) b :
  validate_bits_per_sample (Some (YStr (pretty n +:+ "bit"))) = Ok b
  <-> (n = 16%N ∧ b = I2S_BITS_PER_SAMPLE_16BIT) ∨ (n = 32%N ∧ b = I2S_BITS_PER_SAMPLE_32BIT).
Proof.
  unfold validate_bits_per_sample, _validate_bits. cbn [default id].
  pose proof (float_with_unit_whole "bits" n "" 0 eq_refl) as Hr.
  rewrite string_app_Empty in Hr. rewrite Hr. split.
  - destruct (float_as_Z _) as [z|] eqn:Hz; [|discriminate].
    unfold subscript. destruct (BITS_PER_SAMPLE !! z) as [b'|] eqn:Hl; [intros [= <-]|discriminate].
    destruct (BITS_PER_SAMPLE_keys _ _ Hl) as [->| ->]; apply float_of_whole_exact in Hz; try lia.
    + assert (n = 16%N) as -> by lia. vm_compute in Hl. injection Hl as <-. by left.
    + assert (n = 32%N) as -> by lia. vm_compute in Hl. injection Hl as <-. by right.
  - intros [[-> ->]|[-> ->]]; vm_compute; reflexivity.
Qed.

(** ** The optional fields of [BASE_SCHEMA] inside [CONFIG_SCHEMA] *)

(** The configuration [raw] with one key set to [o]. *)
Definition with_channel (raw : raw_config) (o : option string) : raw_config :=
  {| raw_adc_type := raw_adc_type raw; raw_channel := o; raw_sample_rate := raw_sample_rate raw;
     raw_bits_per_sample := raw_bits_per_sample raw; raw_use_apll := raw_use_apll raw;
     raw_adc_pin := raw_adc_pin raw; raw_i2s_din_pin := raw_i2s_din_pin raw;
     raw_pdm := raw_pdm raw; raw_i2s_adc := raw_i2s_adc raw |}.

Definition with_sample_rate (raw : raw_config) (o : option yaml_scalar) : raw_config :=
  {| raw_adc_type := raw_adc_type raw; raw_channel := raw_channel raw; raw_sample_rate := o;
     raw_bits_per_sample := raw_bits_per_sample raw; raw_use_apll := raw_use_apll raw;
     raw_adc_pin := raw_adc_pin raw; raw_i2s_din_pin := raw_i2s_din_pin raw;
     raw_pdm := raw_pdm raw; raw_i2s_adc := raw_i2s_adc raw |}.

Definition with_use_apll (raw : raw_config) (o : option yaml_scalar) : raw_config :=
  {| raw_adc_type := raw_adc_type raw; raw_channel := raw_channel raw;
     raw_sample_rate := raw_sample_rate raw; raw_bits_per_sample := raw_bits_per_sample raw;
     raw_use_apll := o; raw_adc_pin := raw_adc_pin raw; raw_i2s_din_pin := raw_i2s_din_pin raw;
     raw_pdm := raw_pdm raw; raw_i2s_adc := raw_i2s_adc raw |}.

(** The validated dictionary with one entry replaced. *)
Definition set_channel (ch : i2s_channel_fmt_t) (c : mic_config) : mic_config :=
  {| adc_type := adc_type c; channel := ch; sample_rate := sample_rate c;
     bits_per_sample := bits_per_sample c; use_apll := use_apll c; adc_pin := adc_pin c;
     i2s_din_pin := i2s_din_pin c; pdm := pdm c; i2s_adc := i2s_adc c |}.

Definition set_sample_rate (z : Z) (c : mic_config) : mic_config :=
  {| adc_type := adc_type c; channel := channel c; sample_rate := z;
     bits_per_sample := bits_per_sample c; use_apll := use_apll c; adc_pin := adc_pin c;
     i2s_din_pin := i2s_din_pin c; pdm := pdm c; i2s_adc := i2s_adc c |}.

Definition set_use_apll (b : bool) (c : mic_config) : mic_config :=
  {| adc_type := adc_type c; channel := channel c; sample_rate := sample_rate c;
     bits_per_sample := bits_per_sample c; use_apll := b; adc_pin := adc_pin c;
     i2s_din_pin := i2s_din_pin c; pdm := pdm c; i2s_adc := i2s_adc c |}.

(** [CONFIG_SCHEMA] raises [cv.Invalid] with the error [e] among others. *)
Definition raises (e : schema_error) (r : result py_exc mic_config) : Prop :=
  ∃ es, r = Err (Invalid es) ∧ e ∈ es.

(** The variant check reads only [adc_type] and [pdm]. *)
Lemma validate_esp32_variant_map v (h : mic_config -> mic_config) c :
  adc_type (h c) = adc_type c -> pdm (h c) = pdm c ->
  validate_esp32_variant v (h c) = h <$> validate_esp32_variant v c.
Proof.
  intros Ht Hp. unfold validate_esp32_variant. rewrite Ht, Hp.
  repeat case_match; reflexivity.
Qed.

Lemma CONFIG_SCHEMA_map `{AdcPlatform} v (h : mic_config -> mic_config) raw raw' :
  (∀ c, adc_type (h c) = adc_type c ∧ pdm (h c) = pdm c) ->
  typed_schema v raw' = h <$> typed_schema v raw ->
  CONFIG_SCHEMA v raw' = h <$> CONFIG_SCHEMA v raw.
Proof.
  intros Hh Hs. unfold CONFIG_SCHEMA. rewrite Hs.
  destruct (typed_schema v raw) as [c|es]; [|done]. apply validate_esp32_variant_map; apply Hh.
Qed.

(** Take the fields of a schema apart, one [Ok] or [Err] each. *)
Ltac destruct_fields :=
  repeat match goal with
         | |- context [collect _ ?r] =>
             lazymatch r with Ok _ => fail | Err _ => fail | _ => destruct r end
         end; reflexivity.

(** Unfold both typed schemas on two configurations that differ in one
    key, whose validator gives [Ok] on both sides. *)
Ltac typed_schema_congr Ho Ho' :=
  unfold typed_schema, internal_schema, external_schema;
  cbn [with_channel with_sample_rate with_use_apll raw_adc_type raw_channel raw_sample_rate
       raw_bits_per_sample raw_use_apll raw_adc_pin raw_i2s_din_pin raw_pdm raw_i2s_adc];
  rewrite Ho, Ho';
  destruct (raw_adc_type _) as [t|]; [|reflexivity];
  repeat case_bool_decide; try reflexivity; destruct_fields.

Lemma typed_schema_channel `{AdcPlatform} v raw o o' a a' :
  validate_channel o = Ok a -> validate_channel o' = Ok a' ->
  typed_schema v (with_channel raw o) = set_channel a <$> typed_schema v (with_channel raw o').
Proof. intros Ho Ho'. typed_schema_congr Ho Ho'. Qed.

Lemma typed_schema_sample_rate `{AdcPlatform} v raw o o' a a' :
  validate_sample_rate o = Ok a -> validate_sample_rate o' = Ok a' ->
  typed_schema v (with_sample_rate raw o) = set_sample_rate a <$> typed_schema v (with_sample_rate raw o').
Proof. intros Ho Ho'. typed_schema_congr Ho Ho'. Qed.

Lemma typed_schema_use_apll `{AdcPlatform} v raw o o' a a' :
  validate_use_apll o = Ok a -> validate_use_apll o' = Ok a' ->
  typed_schema v (with_use_apll raw o) = set_use_apll a <$> typed_schema v (with_use_apll raw o').
Proof. intros Ho Ho'. typed_schema_congr Ho Ho'. Qed.

(** The errors of [pdm] are among those the external schema reports. *)
Lemma typed_schema_reports_pdm `{AdcPlatform} v raw l :
  raw_adc_type raw = Some "external" -> validate_pdm (raw_pdm raw) = Err l ->
  reports l (typed_schema v raw).
Proof.
  intros Ht Hp. unfold typed_schema. rewrite Ht. simpl. unfold external_schema.
  rewrite Hp. eauto 10 with reports.
Qed.

(** C34. An external microphone whose [pdm] is not a boolean (such as
    [pdm: 1] or [pdm: maybe]) is rejected, whatever else the
    configuration holds, with the error of [cv.boolean] under [pdm]. *)
Theorem CONFIG_SCHEMA_pdm_not_boolean `{AdcPlatform} v raw x e :
  raw_adc_type raw = Some "external" -> raw_pdm raw = Some x -> cv_boolean x = Err e ->
  ∃ es, CONFIG_SCHEMA v raw = Err (Invalid es) ∧ ScalarInvalid CONF_PDM e ∈ es.
Proof.
  intros Ht Hx He.
  assert (validate_pdm (raw_pdm raw) = Err [ScalarInvalid CONF_PDM e]) as Hp
    by (rewrite Hx; simpl; by rewrite He).
  destruct (CONFIG_SCHEMA_reports v raw _ (typed_schema_reports_pdm v raw _ Ht Hp))
    as (es & Hs & Hsub).
  exists es. split; [done|]. set_solver.
Qed.

(** A key the typed schema reports is raised by [CONFIG_SCHEMA]. *)
Lemma raises_of_reports `{AdcPlatform} v raw e :
  reports [e] (typed_schema v raw) -> raises e (CONFIG_SCHEMA v raw).
Proof.
  intros Hr. destruct (CONFIG_SCHEMA_reports v raw _ Hr) as (es & Hs & Hsub).
  exists es. split; [done|]. set_solver.
Qed.

Lemma reports_no_extra_keys k errs : ExtraKey k ∈ errs -> reports [ExtraKey k] (no_extra_keys errs).
Proof. intros Hk. destruct errs as [|e errs]; [set_solver|]. exists (e :: errs). set_solver. Qed.

Lemma extra_key_elem {A} k (o : option A) : is_Some o -> ExtraKey k ∈ extra_key k o.
Proof. intros [a ->]. set_solver. Qed.

#[local] Hint Resolve reports_no_extra_keys extra_key_elem : reports.
#[local] Hint Extern 1 (_ ∈ _ ++ _) => apply elem_of_app : reports.

(** C35. [sample_rate] ([cv.Optional(CONF_SAMPLE_RATE, default=16000):
    cv.int_range(min=1)], line 73), in either mode and whatever the other
    keys: a value [cv.int_] reads as an integer [z ≥ 1], however large, is
    accepted and becomes the configured rate, the rest validated as
    without the key; an integer below 1 is rejected with "value must be at
    least 1" under [sample_rate]; a value [cv.int_] cannot read is
    rejected with its error under [sample_rate]. *)
Theorem CONFIG_SCHEMA_sample_rate `{AdcPlatform} v raw x :
  (∀ z, cv_int x = Ok z -> (1 ≤ z)%Z ->
     CONFIG_SCHEMA v (with_sample_rate raw (Some x))
     = set_sample_rate z <$> CONFIG_SCHEMA v (with_sample_rate raw None))
  ∧ (raw_adc_type raw = Some "internal" ∨ raw_adc_type raw = Some "external" ->
     (∀ z, cv_int x = Ok z -> (z < 1)%Z ->
        raises (ScalarInvalid CONF_SAMPLE_RATE (ValueAtLeast 1)) (CONFIG_SCHEMA v (with_sample_rate raw (Some x))))
     ∧ (∀ e, cv_int x = Err e ->
          raises (ScalarInvalid CONF_SAMPLE_RATE e) (CONFIG_SCHEMA v (with_sample_rate raw (Some x))))).
Proof.
  split; [|intros Ht; split].
  - intros z Hx Hz. apply CONFIG_SCHEMA_map; [done|].
    apply (typed_schema_sample_rate _ _ _ _ z 16000%Z); [|done].
    unfold validate_sample_rate, int_range. cbn [default id]. rewrite Hx. unfold Range. simpl. by rewrite bool_decide_eq_false_2 by lia.
  - intros z Hx Hz. apply raises_of_reports, typed_schema_reports_base; [done|left].
    cbn [with_sample_rate raw_sample_rate]. unfold validate_sample_rate, int_range. cbn [default id]. rewrite Hx. unfold Range. simpl.
    by rewrite bool_decide_eq_true_2 by lia.
  - intros e Hx. apply raises_of_reports, typed_schema_reports_base; [done|left].
    cbn [with_sample_rate raw_sample_rate]. unfold validate_sample_rate, int_range. cbn [default id]. rewrite Hx. reflexivity.
Qed.

(** C36. [use_apll] ([cv.Optional(CONF_USE_APLL, default=False):
    cv.boolean], line 77), in either mode and whatever the other keys:
    without the key an accepted configuration has [use_apll] false; a
    value [cv.boolean] reads as [b] is accepted and sets [use_apll] to
    [b], the rest validated as without the key; a value [cv.boolean]
    refuses (an integer, an unknown word) is rejected with its error under
    [use_apll]. *)
Theorem CONFIG_SCHEMA_use_apll `{AdcPlatform} v raw x :
  (∀ c, CONFIG_SCHEMA v (with_use_apll raw None) = Ok c -> use_apll c = false)
  ∧ (∀ b, cv_boolean x = Ok b ->
       CONFIG_SCHEMA v (with_use_apll raw (Some x)) = set_use_apll b <$> CONFIG_SCHEMA v (with_use_apll raw None))
  ∧ (∀ e, cv_boolean x = Err e ->
       raw_adc_type raw = Some "internal" ∨ raw_adc_type raw = Some "external" ->
       raises (ScalarInvalid CONF_USE_APLL e) (CONFIG_SCHEMA v (with_use_apll raw (Some x)))).
Proof.
  split_and!.
  - intros c Hc.
    assert (CONFIG_SCHEMA v (with_use_apll raw None) = set_use_apll false <$> CONFIG_SCHEMA v (with_use_apll raw None))
      as Hd by (apply CONFIG_SCHEMA_map; [done|by apply (typed_schema_use_apll _ _ _ _ false false)]).
    rewrite Hc in Hd. by injection Hd as ->.
  - intros b Hx. apply CONFIG_SCHEMA_map; [done|].
    apply (typed_schema_use_apll _ _ _ _ b false); [|done]. unfold validate_use_apll. simpl. by rewrite Hx.
  - intros e Hx Ht. apply raises_of_reports, typed_schema_reports_base; [done|right; right; left].
    unfold validate_use_apll. simpl. by rewrite Hx.
Qed.

(** C37. [channel] ([cv.Optional(CONF_CHANNEL, default="right"):
    cv.enum(CHANNELS)], lines 38-41 and 72), in either mode and whatever
    the other keys: without the key an accepted configuration reads the
    right channel only; ["left"] selects [I2S_CHANNEL_FMT_ONLY_LEFT] and
    ["right"] [I2S_CHANNEL_FMT_ONLY_RIGHT], the rest validated as
    without the key; any other word is rejected as an unknown value of
    [channel]. *)
Theorem CONFIG_SCHEMA_channel `{AdcPlatform} v raw s :
  (∀ c, CONFIG_SCHEMA v (with_channel raw None) = Ok c -> channel c = I2S_CHANNEL_FMT_ONLY_RIGHT)
  ∧ CONFIG_SCHEMA v (with_channel raw (Some "left"))
    = set_channel I2S_CHANNEL_FMT_ONLY_LEFT <$> CONFIG_SCHEMA v (with_channel raw None)
  ∧ CONFIG_SCHEMA v (with_channel raw (Some "right"))
    = set_channel I2S_CHANNEL_FMT_ONLY_RIGHT <$> CONFIG_SCHEMA v (with_channel raw None)
  ∧ (s ≠ "left" -> s ≠ "right" ->
     raw_adc_type raw = Some "internal" ∨ raw_adc_type raw = Some "external" ->
     raises (UnknownValue CONF_CHANNEL) (CONFIG_SCHEMA v (with_channel raw (Some s)))).
Proof.
  split_and!.
  - intros c Hc.
    assert (CONFIG_SCHEMA v (with_channel raw None)
            = set_channel I2S_CHANNEL_FMT_ONLY_RIGHT <$> CONFIG_SCHEMA v (with_channel raw None))
      as Hd by (apply CONFIG_SCHEMA_map; [done|by apply (typed_schema_channel _ _ _ _ _ I2S_CHANNEL_FMT_ONLY_RIGHT)]).
    rewrite Hc in Hd. by injection Hd as ->.
  - apply CONFIG_SCHEMA_map; [done|]. by apply (typed_schema_channel _ _ _ _ _ I2S_CHANNEL_FMT_ONLY_RIGHT).
  - apply CONFIG_SCHEMA_map; [done|]. by apply (typed_schema_channel _ _ _ _ _ I2S_CHANNEL_FMT_ONLY_RIGHT).
  - intros Hl Hr Ht. apply raises_of_reports, typed_schema_reports_base; [done|right; right; right].
    unfold validate_channel, subscript, CHANNELS. simpl.
    by rewrite lookup_insert_ne, lookup_insert_ne, lookup_empty by congruence.
Qed.

(** C38. The keys of each mode (lines 84-97): an internal microphone
    requires [adc_pin] and rejects [i2s_din_pin], [pdm] and [i2s_adc] as
    extra keys; an external one requires [i2s_din_pin] and [pdm], rejects
    [adc_pin] as an extra key, and once accepted carries [i2s_adc] with the
    default model "generic". *)
Theorem CONFIG_SCHEMA_mode_keys `{AdcPlatform} v raw :
  (raw_adc_type raw = Some "internal" ->
     (raw_adc_pin raw = None -> raises (RequiredKeyMissing CONF_ADC_PIN) (CONFIG_SCHEMA v raw))
     ∧ (is_Some (raw_i2s_din_pin raw) -> raises (ExtraKey CONF_I2S_DIN_PIN) (CONFIG_SCHEMA v raw))
     ∧ (is_Some (raw_pdm raw) -> raises (ExtraKey CONF_PDM) (CONFIG_SCHEMA v raw))
     ∧ (is_Some (raw_i2s_adc raw) -> raises (ExtraKey CONF_I2S_ADC) (CONFIG_SCHEMA v raw)))
  ∧ (raw_adc_type raw = Some "external" ->
     (raw_i2s_din_pin raw = None -> raises (RequiredKeyMissing CONF_I2S_DIN_PIN) (CONFIG_SCHEMA v raw))
     ∧ (raw_pdm raw = None -> raises (RequiredKeyMissing CONF_PDM) (CONFIG_SCHEMA v raw))
     ∧ (is_Some (raw_adc_pin raw) -> raises (ExtraKey CONF_ADC_PIN) (CONFIG_SCHEMA v raw))
     ∧ (∀ c, CONFIG_SCHEMA v raw = Ok c -> i2s_adc c = Some (default "generic" (raw_i2s_adc raw)))).
Proof.
  split; intros Ht; split_and!;
    try (intros Hk; apply raises_of_reports; unfold typed_schema; rewrite Ht; simpl;
         unfold internal_schema, external_schema, required, validate_pdm;
         rewrite ?Hk; eauto 12 with reports).
  intros c Hc. unfold CONFIG_SCHEMA, typed_schema in Hc. rewrite Ht in Hc. simpl in Hc.
  unfold external_schema in Hc.
  destruct (collect _ _) as [c'|] eqn:Hs in Hc; [|done].
  collect_Ok. unfold validate_esp32_variant in Hc. simpl in Hc.
  repeat case_match; simplify_eq; done.
Qed.

(** ** Examples on esphome's platform *)

(** The configuration [to_code] receives for [adc_type: internal,
    adc_pin: 34] on the ESP32. *)
Definition esp32_internal_34 : mic_config :=
  {| adc_type := "internal"; channel := I2S_CHANNEL_FMT_ONLY_RIGHT; sample_rate := 16000;
     bits_per_sample := I2S_BITS_PER_SAMPLE_32BIT; use_apll := false; adc_pin := Some 34;
     i2s_din_pin := None; pdm := None; i2s_adc := None |}.

(** An external PDM microphone with a zero sample rate and 24-bit samples. *)
Definition bad_external_raw : raw_config :=
  {| raw_adc_type := Some "external"; raw_channel := Some "left"; raw_sample_rate := Some (YInt 0);
     raw_bits_per_sample := Some (YStr "24bit"); raw_use_apll := None; raw_adc_pin := None;
     raw_i2s_din_pin := Some 4; raw_pdm := Some (YBool true); raw_i2s_adc := None |}.

Lemma CONFIG_SCHEMA_sound_witness :
  CONFIG_SCHEMA VARIANT_ESP32 (internal_raw 34) = Ok esp32_internal_34
  ∧ hardware_ok VARIANT_ESP32 esp32_internal_34.
Proof.
  assert (Hc : CONFIG_SCHEMA VARIANT_ESP32 (internal_raw 34) = Ok esp32_internal_34)
    by (vm_compute; reflexivity).
  exact (conj Hc (CONFIG_SCHEMA_sound _ _ _ Hc)).
Defined.

Lemma CONFIG_SCHEMA_raises_Invalid_witness :
  CONFIG_SCHEMA VARIANT_ESP32C3 bad_external_raw
    = Err (Invalid [ScalarInvalid CONF_SAMPLE_RATE (ValueAtLeast 1); UnknownValue CONF_BITS_PER_SAMPLE])
  ∧ ∃ es, Invalid [ScalarInvalid CONF_SAMPLE_RATE (ValueAtLeast 1); UnknownValue CONF_BITS_PER_SAMPLE]
          = Invalid es ∧ es ≠ [].
Proof.
  assert (Hc : CONFIG_SCHEMA VARIANT_ESP32C3 bad_external_raw
    = Err (Invalid [ScalarInvalid CONF_SAMPLE_RATE (ValueAtLeast 1); UnknownValue CONF_BITS_PER_SAMPLE]))
    by (vm_compute; reflexivity).
  exact (conj Hc (CONFIG_SCHEMA_raises_Invalid _ _ _ Hc)).
Defined.

Lemma CONFIG_SCHEMA_pdm_unsupported_witness :
  CONFIG_SCHEMA VARIANT_ESP32C3 (external_raw 4 true) = Err (Invalid [NoPdmSupport VARIANT_ESP32C3]).
Proof.
  rewrite (CONFIG_SCHEMA_pdm_unsupported VARIANT_ESP32C3 (external_raw 4 true));
    [vm_compute; reflexivity | reflexivity | reflexivity | apply (bool_decide_unpack _); vm_compute; exact I].
Defined.

Lemma CONFIG_SCHEMA_no_internal_adc_witness :
  CONFIG_SCHEMA VARIANT_ESP32S3 (internal_raw 1) = Err (Invalid [NoInternalAdc VARIANT_ESP32S3]).
Proof.
  rewrite (CONFIG_SCHEMA_no_internal_adc VARIANT_ESP32S3 (internal_raw 1));
    [vm_compute; reflexivity | reflexivity | apply (bool_decide_unpack _); vm_compute; exact I].
Defined.

Lemma CONFIG_SCHEMA_internal_defaults_witness :
  CONFIG_SCHEMA VARIANT_ESP32 (internal_raw 34) = Ok esp32_internal_34.
Proof.
  apply (CONFIG_SCHEMA_internal_defaults 34). vm_compute. eexists. reflexivity.
Defined.

Lemma CONFIG_SCHEMA_field_errors_first_witness :
  CONFIG_SCHEMA VARIANT_ESP32C3 bad_external_raw
    = Err (Invalid [ScalarInvalid CONF_SAMPLE_RATE (ValueAtLeast 1); UnknownValue CONF_BITS_PER_SAMPLE])
  ∧ Forall field_error [ScalarInvalid CONF_SAMPLE_RATE (ValueAtLeast 1); UnknownValue CONF_BITS_PER_SAMPLE].
Proof.
  apply (CONFIG_SCHEMA_field_errors_first VARIANT_ESP32C3 bad_external_raw). vm_compute. reflexivity.
Defined.

(** The scenario of spec 8 (an S3-class variant, internal mode, pin 34)
    is rejected on the pin: pin 34 is not an ADC pin of the ESP32-S3, and
    the variant has no internal ADC for this platform either. *)
Example CONFIG_SCHEMA_s3_pin34 :
  CONFIG_SCHEMA VARIANT_ESP32S3 (internal_raw 34)
    = Err (Invalid [PinInvalid CONF_ADC_PIN (NoAdcOnPin VARIANT_ESP32S3 34)]).
Proof. vm_compute. reflexivity. Qed.

(** [adc_type: internal, adc_pin: 34, bits_per_sample: 32] *)
Definition internal_raw_bits32 : raw_config :=
  {| raw_adc_type := Some "internal"; raw_channel := None; raw_sample_rate := None;
     raw_bits_per_sample := Some (YInt 32); raw_use_apll := None; raw_adc_pin := Some 34;
     raw_i2s_din_pin := None; raw_pdm := None; raw_i2s_adc := None |}.

Lemma CONFIG_SCHEMA_bits_without_unit_witness :
  ∃ es, CONFIG_SCHEMA VARIANT_ESP32 internal_raw_bits32 = Err (Invalid es)
        ∧ UnitInvalid CONF_BITS_PER_SAMPLE (ExpectedWithUnit "bits" "32") ∈ es.
Proof.
  exact (CONFIG_SCHEMA_bits_without_unit VARIANT_ESP32 internal_raw_bits32 32 eq_refl (or_introl eq_refl)).
Defined.

(** [adc_type: external, i2s_din_pin: 4, pdm: 1] *)
Definition external_raw_pdm1 : raw_config :=
  {| raw_adc_type := Some "external"; raw_channel := None; raw_sample_rate := None;
     raw_bits_per_sample := None; raw_use_apll := None; raw_adc_pin := None;
     raw_i2s_din_pin := Some 4; raw_pdm := Some (YInt 1); raw_i2s_adc := None |}.

Lemma CONFIG_SCHEMA_pdm_not_boolean_witness :
  ∃ es, CONFIG_SCHEMA VARIANT_ESP32 external_raw_pdm1 = Err (Invalid es)
        ∧ ScalarInvalid CONF_PDM ExpectedBoolean ∈ es.
Proof.
  exact (CONFIG_SCHEMA_pdm_not_boolean VARIANT_ESP32 external_raw_pdm1 (YInt 1) ExpectedBoolean
           eq_refl eq_refl eq_refl).
Defined.

Lemma CONFIG_SCHEMA_sample_rate_witness :
  CONFIG_SCHEMA VARIANT_ESP32 (with_sample_rate (internal_raw 34) (Some (YBool true)))
  = Ok (set_sample_rate 1 esp32_internal_34).
Proof.
  rewrite (proj1 (CONFIG_SCHEMA_sample_rate VARIANT_ESP32 (internal_raw 34) (YBool true)) 1%Z eq_refl);
    [vm_compute; reflexivity|lia].
Defined.

Lemma CONFIG_SCHEMA_use_apll_witness :
  CONFIG_SCHEMA VARIANT_ESP32 (with_use_apll (internal_raw 34) (Some (YStr "Yes")))
  = Ok (set_use_apll true esp32_internal_34).
Proof.
  rewrite (proj1 (proj2 (CONFIG_SCHEMA_use_apll VARIANT_ESP32 (internal_raw 34) (YStr "Yes"))) true eq_refl).
  vm_compute. reflexivity.
Defined.

Lemma CONFIG_SCHEMA_channel_witness :
  raises (UnknownValue CONF_CHANNEL) (CONFIG_SCHEMA VARIANT_ESP32 (with_channel (internal_raw 34) (Some "both"))).
Proof.
  apply (proj2 (proj2 (proj2 (CONFIG_SCHEMA_channel VARIANT_ESP32 (internal_raw 34) "both"))));
    [discriminate|discriminate|left; reflexivity].
Defined.

(** [adc_type: external, i2s_din_pin: 4] without [pdm]. *)
Definition external_raw_nopdm : raw_config :=
  {| raw_adc_type := Some "external"; raw_channel := None; raw_sample_rate := None;
     raw_bits_per_sample := None; raw_use_apll := None; raw_adc_pin := None;
     raw_i2s_din_pin := Some 4; raw_pdm := None; raw_i2s_adc := None |}.

Lemma CONFIG_SCHEMA_mode_keys_witness :
  raises (RequiredKeyMissing CONF_PDM) (CONFIG_SCHEMA VARIANT_ESP32 external_raw_nopdm).
Proof.
  exact (proj1 (proj2 (proj2 (CONFIG_SCHEMA_mode_keys VARIANT_ESP32 external_raw_nopdm) eq_refl)) eq_refl).
Defined.

(** Python floats in [_validate_bits]: [0.032kbit] is [32.0]; the
    mantissa [32.000000000000000001] rounds to [32.0]; [3dbit] is
    [0.30000000000000004], not [0.3]. *)
Example validate_bits_per_sample_floats :
  validate_bits_per_sample (Some (YStr "0.032kbit")) = Ok I2S_BITS_PER_SAMPLE_32BIT
  ∧ validate_bits_per_sample (Some (YStr "32.000000000000000001bit")) = Ok I2S_BITS_PER_SAMPLE_32BIT
  ∧ validate_bits_per_sample (Some (YStr "3200cbit")) = Ok I2S_BITS_PER_SAMPLE_32BIT
  ∧ _validate_bits (YStr "3dbit") = Ok (S754_finite false 5404319552844596 (-54))
  ∧ float_as_Z (S754_finite false 5404319552844596 (-54)) = None.
Proof. vm_compute. repeat split. Qed.
