(* ===== verification/I2SCodegen.v ===== *)
(** * Code generation of the I2S microphone platform

    [to_code] of [src/esphome/components/i2s_audio/microphone/__init__.py]
    (lines 105-128) as a computation that appends C++ statements and may
    raise [KeyError]: the internal ADC branch looks the channel up in
    [ESP32_VARIANT_ADC1_PIN_TO_CHANNEL[variant][pin_num]], the external
    branch registers the I2S reader, and both end with the registration of
    the microphone.  The theorems run it on the configurations
    [CONFIG_SCHEMA] accepts. *)

From S2P Require Import Prelude Platform Microphone I2SConfig.

(** [I2SAudioMicrophone = i2s_audio_ns.class_("I2SAudioMicrophone", I2SReader,
     microphone.Microphone, cg.Component)] *)
Definition I2SAudioMicrophone : cpp_class :=
  {| class_name := "I2SAudioMicrophone";
     class_bases := ["I2SReader"; "microphone.Microphone"; "cg.Component"] |}.

Section ToCode.
Context `{AdcPlatform} `{MicrophoneComponent} (variant : esp32_variant).

(** [pin_num = config[CONF_ADC_PIN][CONF_NUMBER]
     channel = ESP32_VARIANT_ADC1_PIN_TO_CHANNEL[variant][pin_num]
     cg.add(var.set_adc_channel(channel))] *)
Definition set_adc_channel (config : mic_config) : codegen unit :=
  pin_num ← lift_result (match adc_pin config with
                         | Some p => Ok p | None => Err (KeyErrorConf CONF_ADC_PIN) end);
  pins ← lift_result (subscript KeyErrorVariant ESP32_VARIANT_ADC1_PIN_TO_CHANNEL variant);
  channel ← lift_result (subscript KeyErrorPin pins pin_num);
  emit (SetAdcChannel channel).

(** [async def to_code(config)] *)
Definition to_code (config : mic_config) : codegen unit :=
  emit (NewPvariable (class_name I2SAudioMicrophone));;
  emit RegisterComponent;;
  (if bool_decide (adc_type config = "internal")
   then set_adc_channel config
   else emit RegisterI2SReader);;
  register_microphone_compat.

End ToCode.

(** ** Running [to_code] *)

Section Run.
Context `{AdcPlatform} `{MicrophoneComponent}.

(** The statement the compatibility block emits. *)
Definition mic_registration : stmt :=
  RegisterMicrophone (if register_microphone_has_audio_device then Some audio_device else None).

Lemma set_adc_channel_found v c p ch s :
  adc_pin c = Some p -> table_lookup ESP32_VARIANT_ADC1_PIN_TO_CHANNEL v p = Some ch ->
  set_adc_channel v c s = Ok (tt, s ++ [SetAdcChannel ch]).
Proof.
  unfold set_adc_channel, table_lookup, subscript. intros Hp Hl. rewrite Hp.
  destruct (ESP32_VARIANT_ADC1_PIN_TO_CHANNEL !! v); simpl in *; [|discriminate].
  autorewrite with mic_rw. by rewrite Hl.
Qed.

Lemma set_adc_channel_missing v c p s :
  adc_pin c = Some p -> is_Some (ESP32_VARIANT_ADC1_PIN_TO_CHANNEL !! v) ->
  table_lookup ESP32_VARIANT_ADC1_PIN_TO_CHANNEL v p = None ->
  set_adc_channel v c s = Err (KeyErrorPin p).
Proof.
  unfold set_adc_channel, table_lookup, subscript. intros Hp [m Hm] Hl. rewrite Hp, Hm in *.
  simpl in *. autorewrite with mic_rw. by rewrite Hl.
Qed.

Lemma set_adc_channel_Ok v c s u s' :
  set_adc_channel v c s = Ok (u, s') -> ∃ ch, s' = s ++ [SetAdcChannel ch].
Proof.
  unfold set_adc_channel, subscript.
  repeat (case_match; autorewrite with mic_rw); intros; simplify_eq; eauto.
Qed.

Lemma to_code_run v c s :
  to_code v c s =
    match (if bool_decide (adc_type c = "internal") then set_adc_channel v c
           else emit RegisterI2SReader)
            (s ++ [NewPvariable "I2SAudioMicrophone"; RegisterComponent]) with
    | Ok (_, s') => Ok (tt, s' ++ [mic_registration])
    | Err e => Err e
    end.
Proof.
  unfold to_code. autorewrite with mic_rw. rewrite <-app_assoc. simpl.
  rewrite cg_bind_run. destruct (_ _) as [[[] s'] | e]; [|done].
  by rewrite register_microphone_compat_run.
Qed.

(** What a successful [set_adc_channel] looked up. *)
Lemma set_adc_channel_Ok_lookup v c s u s' :
  set_adc_channel v c s = Ok (u, s') ->
  ∃ p ch, adc_pin c = Some p ∧ table_lookup ESP32_VARIANT_ADC1_PIN_TO_CHANNEL v p = Some ch
          ∧ s' = s ++ [SetAdcChannel ch].
Proof.
  unfold set_adc_channel, subscript, table_lookup.
  repeat (case_match; autorewrite with mic_rw); intros; simplify_eq; simpl; eauto 6.
Qed.

(** The two programs a successful [to_code] generates. *)
Lemma to_code_Ok_cases v c prog :
  to_code v c [] = Ok (tt, prog) ->
  (adc_type c = "internal" ∧ ∃ p ch, adc_pin c = Some p
     ∧ table_lookup ESP32_VARIANT_ADC1_PIN_TO_CHANNEL v p = Some ch
     ∧ prog = [NewPvariable "I2SAudioMicrophone"; RegisterComponent; SetAdcChannel ch; mic_registration])
  ∨ (adc_type c ≠ "internal"
     ∧ prog = [NewPvariable "I2SAudioMicrophone"; RegisterComponent; RegisterI2SReader; mic_registration]).
Proof.
  rewrite to_code_run. case_bool_decide as Ht.
  - destruct (set_adc_channel v c _) as [[u s']|] eqn:Hs; [|discriminate]. intros [= <-].
    destruct (set_adc_channel_Ok_lookup v c _ u s' Hs) as (p & ch & Hp & Hl & ->).
    left. split; [done|]. eauto 6.
  - autorewrite with mic_rw. intros [= <-]. by right.
Qed.

(** C7. On the internal ADC, the generated program creates the
    [I2SAudioMicrophone], registers it, sets the ADC1 channel that
    [ESP32_VARIANT_ADC1_PIN_TO_CHANNEL] gives for the configured pin, and
    registers the microphone. *)
Theorem to_code_internal_channel v c p ch s :
  adc_type c = "internal" -> adc_pin c = Some p ->
  table_lookup ESP32_VARIANT_ADC1_PIN_TO_CHANNEL v p = Some ch ->
  to_code v c s = Ok (tt, s ++ [NewPvariable "I2SAudioMicrophone"; RegisterComponent;
                                SetAdcChannel ch; mic_registration]).
Proof.
  intros Ht Hp Hl. rewrite to_code_run, Ht, bool_decide_eq_true_2 by done.
  rewrite (set_adc_channel_found v c p ch _ Hp Hl). by rewrite <-!app_assoc.
Qed.

(** C8. On an external microphone, the generated program creates and
    registers the component, registers it as an I2S reader and registers
    the microphone; no ADC channel is set and nothing can fail. *)
Theorem to_code_external v c s :
  adc_type c = "external" ->
  to_code v c s = Ok (tt, s ++ [NewPvariable "I2SAudioMicrophone"; RegisterComponent;
                                RegisterI2SReader; mic_registration]).
Proof.
  intros Ht. rewrite to_code_run, Ht, bool_decide_eq_false_2 by done.
  autorewrite with mic_rw. by rewrite <-!app_assoc.
Qed.

(** C9. A pin that [CONFIG_SCHEMA] accepts for the internal ADC but that
    is not in the variant's ADC1 table (with esphome's [validate_adc_pin],
    a pin of the second ADC) makes [to_code] raise [KeyError]: validation
    and code generation disagree on the pins of the internal ADC. *)
Theorem to_code_adc2_pin_KeyError v raw c p s :
  CONFIG_SCHEMA v raw = Ok c -> adc_pin c = Some p ->
  is_Some (ESP32_VARIANT_ADC1_PIN_TO_CHANNEL !! v) ->
  table_lookup ESP32_VARIANT_ADC1_PIN_TO_CHANNEL v p = None ->
  to_code v c s = Err (KeyErrorPin p).
Proof.
  intros Hs Hp Hv Hl. destruct (CONFIG_SCHEMA_adc_pin v raw c p Hs Hp) as [Ht _].
  rewrite to_code_run, Ht, bool_decide_eq_true_2 by done.
  by rewrite (set_adc_channel_missing v c p _ Hp Hv Hl).
Qed.

(** C10. Whatever the configuration, a successful [to_code] appends
    exactly: the [new I2SAudioMicrophone], its registration, one ADC
    channel or the I2S reader registration, and last the microphone
    registration, with [audio_device = {"max_channels": 1}] exactly when
    the installed [register_microphone] accepts it. *)
Theorem to_code_shape v c s u s' :
  to_code v c s = Ok (u, s') ->
  ∃ mid, s' = s ++ [NewPvariable "I2SAudioMicrophone"; RegisterComponent] ++ mid ++
                [RegisterMicrophone (if register_microphone_has_audio_device
                                     then Some audio_device else None)]
         ∧ (mid = [RegisterI2SReader] ∨ ∃ ch, mid = [SetAdcChannel ch]).
Proof.
  rewrite to_code_run. case_bool_decide.
  - destruct (set_adc_channel _ _ _) as [[[] s0]|] eqn:E; [|discriminate].
    intros [= <- <-]. destruct (set_adc_channel_Ok _ _ _ _ _ E) as [ch ->].
    exists [SetAdcChannel ch]. rewrite <-!app_assoc. eauto.
  - autorewrite with mic_rw. intros [= <- <-].
    exists [RegisterI2SReader]. rewrite <-!app_assoc. eauto.
Qed.

(** C27. Every program [to_code] generates is well typed for the class
    the platform declares: it creates an [I2SAudioMicrophone], and the
    class derives from everything the later calls need ([cg.Component]
    for [register_component], [I2SReader] for [register_i2s_reader],
    [microphone.Microphone] for [register_microphone]). *)
Theorem to_code_well_typed v c prog :
  to_code v c [] = Ok (tt, prog) -> well_typed I2SAudioMicrophone prog = true.
Proof.
  intros Ht. unfold mic_registration in Ht.
  destruct (to_code_Ok_cases v c prog Ht) as [(_ & p & ch & _ & _ & ->)|[_ ->]];
    unfold mic_registration; by destruct register_microphone_has_audio_device.
Qed.
End Run.

(** ** Examples on esphome's platform *)

Lemma to_code_internal_channel_witness :
  @to_code esphome_platform microphone_with_audio_device VARIANT_ESP32 esp32_internal_34 []
  = Ok (tt, [NewPvariable "I2SAudioMicrophone"; RegisterComponent; SetAdcChannel 6;
             RegisterMicrophone (Some audio_device)]).
Proof.
  apply (@to_code_internal_channel esphome_platform microphone_with_audio_device
           VARIANT_ESP32 esp32_internal_34 34 6 []); vm_compute; reflexivity.
Defined.

(** An external microphone on the ESP32-S3, GPIO 4, PDM. *)
Definition s3_external_pdm : mic_config :=
  {| adc_type := "external"; channel := I2S_CHANNEL_FMT_ONLY_RIGHT; sample_rate := 16000;
     bits_per_sample := I2S_BITS_PER_SAMPLE_32BIT; use_apll := false; adc_pin := None;
     i2s_din_pin := Some 4; pdm := Some true; i2s_adc := Some "generic" |}.

Lemma to_code_external_witness :
  @to_code esphome_platform microphone_legacy VARIANT_ESP32S3 s3_external_pdm []
  = Ok (tt, [NewPvariable "I2SAudioMicrophone"; RegisterComponent; RegisterI2SReader;
             RegisterMicrophone None]).
Proof.
  apply (@to_code_external esphome_platform microphone_legacy VARIANT_ESP32S3 s3_external_pdm []).
  reflexivity.
Defined.

(** GPIO 25 is ADC2 channel 8 of the ESP32: [CONFIG_SCHEMA] accepts it
    and [to_code] raises [KeyError: 25]. *)
Definition esp32_internal_25 : mic_config :=
  {| adc_type := "internal"; channel := I2S_CHANNEL_FMT_ONLY_RIGHT; sample_rate := 16000;
     bits_per_sample := I2S_BITS_PER_SAMPLE_32BIT; use_apll := false; adc_pin := Some 25;
     i2s_din_pin := None; pdm := None; i2s_adc := None |}.

Lemma to_code_adc2_pin_KeyError_witness :
  @CONFIG_SCHEMA esphome_platform VARIANT_ESP32 (internal_raw 25) = Ok esp32_internal_25
  ∧ @to_code esphome_platform microphone_with_audio_device VARIANT_ESP32 esp32_internal_25 []
    = Err (KeyErrorPin 25).
Proof.
  assert (Hs : @CONFIG_SCHEMA esphome_platform VARIANT_ESP32 (internal_raw 25) = Ok esp32_internal_25)
    by (vm_compute; reflexivity).
  split; [exact Hs|].
  apply (@to_code_adc2_pin_KeyError esphome_platform microphone_with_audio_device
           VARIANT_ESP32 (internal_raw 25) esp32_internal_25 25 [] Hs);
    [reflexivity | vm_compute; eexists; reflexivity | vm_compute; reflexivity].
Defined.

Lemma to_code_shape_witness :
  ∃ mid, [NewPvariable "I2SAudioMicrophone"; RegisterComponent; SetAdcChannel 6;
          RegisterMicrophone (Some audio_device)]
         = [] ++ [NewPvariable "I2SAudioMicrophone"; RegisterComponent] ++ mid ++
             [RegisterMicrophone (Some audio_device)]
         ∧ (mid = [RegisterI2SReader] ∨ ∃ ch, mid = [SetAdcChannel ch]).
Proof.
  apply (@to_code_shape esphome_platform microphone_with_audio_device
           VARIANT_ESP32 esp32_internal_34 [] tt).
  vm_compute. reflexivity.
Defined.

Lemma to_code_well_typed_witness :
  well_typed I2SAudioMicrophone
    [NewPvariable "I2SAudioMicrophone"; RegisterComponent; SetAdcChannel 6;
     RegisterMicrophone (Some audio_device)] = true.
Proof.
  apply (@to_code_well_typed esphome_platform microphone_with_audio_device VARIANT_ESP32
           esp32_internal_34). vm_compute. reflexivity.
Defined.
