(* ===== verification/AdfMicrophone.v ===== *)
(** * The ADF pipeline microphone platform

    [src/esphome/components/adf_pipeline/microphone/__init__.py]: the
    schema adds [gain_log2], an integer in [0, 7] with default 0, to the
    microphone and pipeline-controller schemas, and [to_code] creates the
    [ADFMicrophone], sets its gain, registers it, sets the pipeline
    controller up and registers the microphone.  The pipeline-controller
    schema and [setup_pipeline_controller] belong to the parent package,
    which is not under src/: the latter is one emitted statement. *)

From S2P Require Import Prelude Units Scalars Platform Microphone I2SConfig.

Module ADFMicrophone.

(** [DEPENDENCIES = ["adf_pipeline", "microphone"]] *)
Definition DEPENDENCIES : list string := ["adf_pipeline"; "microphone"].

(** [CONF_GAIN_LOG_2 = "gain_log2"] *)
Definition CONF_GAIN_LOG_2 := "gain_log2".

(** [ADFMicrophone = esp_adf_ns.class_("ADFMicrophone", ADFPipelineController,
     microphone.Microphone, cg.Component)] *)
Definition ADFMicrophone : cpp_class :=
  {| class_name := "ADFMicrophone";
     class_bases := ["ADFPipelineController"; "microphone.Microphone"; "cg.Component"] |}.

(** The user's configuration: the [gain_log2] key, present or absent,
    as the YAML scalar written. *)
Record raw_config := { raw_gain_log2 : option yaml_scalar }.

(** The validated dictionary. *)
Record config := { gain_log2 : Z }.

(** [cv.Optional(CONF_GAIN_LOG_2, default=0): cv.int_range(0, 7)] *)
Definition validate_gain_log2 (raw : option yaml_scalar) : result (list schema_error) Z :=
  scalar_field CONF_GAIN_LOG_2 (int_range (Some 0%Z) (Some 7%Z) (default (YInt 0) raw)).

(** [CONFIG_SCHEMA = microphone.MICROPHONE_SCHEMA.extend({...}).extend(ADF_PIPELINE_CONTROLLER_SCHEMA)] *)
Definition CONFIG_SCHEMA (raw : raw_config) : result py_exc config :=
  match validate_gain_log2 (raw_gain_log2 raw) with
  | Ok g => Ok {| gain_log2 := g |}
  | Err es => Err (Invalid es)
  end.

(** [audio_device = {"max_channels": 1}], this file's own copy. *)
Definition audio_device : gmap string nat := {["max_channels" := 1]}.

(** This file's copy of the compatibility block:
    [if "audio_device" in inspect.signature(microphone.register_microphone).parameters:
       await microphone.register_microphone(var, config, audio_device=audio_device)
     else:
       await microphone.register_microphone(var, config)] *)
Definition register_microphone_compat `{MicrophoneComponent} : codegen unit :=
  if register_microphone_has_audio_device
  then emit (RegisterMicrophone (Some audio_device))
  else emit (RegisterMicrophone None).

(** [async def to_code(config)] *)
Definition to_code `{MicrophoneComponent} (c : config) : codegen unit :=
  emit (NewPvariable (class_name ADFMicrophone));;
  emit (SetGainLog2 (gain_log2 c));;
  emit RegisterComponent;;
  emit SetupPipelineController;;
  register_microphone_compat.

(** ** Properties *)

Lemma validate_gain_log2_Ok raw g :
  validate_gain_log2 raw = Ok g <-> cv_int (default (YInt 0) raw) = Ok g ∧ (0 ≤ g ≤ 7)%Z.
Proof.
  unfold validate_gain_log2, scalar_field. destruct int_range as [z|e] eqn:Hr.
  - apply int_range_Ok in Hr as (Hc & Hm & HM).
    pose proof (Hm 0%Z eq_refl). pose proof (HM 7%Z eq_refl).
    split; [intros [= <-]; done|]. intros [Hc' _]. congruence.
  - split; [discriminate|]. intros [Hc Hb].
    assert (int_range (Some 0%Z) (Some 7%Z) (default (YInt 0) raw) = Ok g) as Hg
      by (apply int_range_Ok; naive_solver). congruence.
Qed.

(** Both platforms register the microphone with the same offer. *)
Lemma register_microphone_compat_shared `{MicrophoneComponent} :
  register_microphone_compat = Microphone.register_microphone_compat.
Proof. reflexivity. Qed.

(** C11. [CONFIG_SCHEMA] accepts a configuration exactly when [int_]
    reads its gain (0 when absent) as an integer in [0, 7], and the
    accepted configuration keeps that integer. *)
Theorem CONFIG_SCHEMA_gain_range raw c :
  CONFIG_SCHEMA raw = Ok c
  <-> cv_int (default (YInt 0) (raw_gain_log2 raw)) = Ok (gain_log2 c) ∧ (0 ≤ gain_log2 c ≤ 7)%Z.
Proof.
  rewrite <-validate_gain_log2_Ok. unfold CONFIG_SCHEMA.
  destruct (validate_gain_log2 _) as [g|es]; [|naive_solver].
  destruct c as [g']. naive_solver.
Qed.

(** The gain of an accepted configuration is in [0, 7]. *)
Lemma CONFIG_SCHEMA_Ok_gain raw c : CONFIG_SCHEMA raw = Ok c -> (0 ≤ gain_log2 c ≤ 7)%Z.
Proof.
  unfold CONFIG_SCHEMA. destruct (validate_gain_log2 _) as [g|] eqn:Hg; [|discriminate].
  intros [= <-]. simpl. by apply validate_gain_log2_Ok in Hg as [_ ?].
Qed.

(** C12. The program [to_code] generates: the [new ADFMicrophone], the
    gain set before the component is registered, the pipeline controller
    set up, and last the microphone registration; code generation of this
    platform cannot fail. *)
Theorem to_code_program `{MicrophoneComponent} c s :
  to_code c s =
    Ok (tt, s ++ [NewPvariable "ADFMicrophone"; SetGainLog2 (gain_log2 c); RegisterComponent;
                  SetupPipelineController;
                  RegisterMicrophone (if register_microphone_has_audio_device
                                      then Some audio_device else None)]).
Proof.
  unfold to_code. rewrite register_microphone_compat_shared. autorewrite with mic_rw.
  by rewrite <-!app_assoc.
Qed.

(** C28. The program [to_code] generates is well typed for the class the
    platform declares: an [ADFMicrophone], which has [set_gain_log2] and
    derives from [cg.Component], [ADFPipelineController] and
    [microphone.Microphone], as the later calls need. *)
Theorem adf_to_code_well_typed `{MicrophoneComponent} c :
  ∃ prog, to_code c [] = Ok (tt, prog) ∧ well_typed ADFMicrophone prog = true.
Proof.
  unfold to_code. rewrite register_microphone_compat_shared. autorewrite with mic_rw.
  eexists. split; [reflexivity|]. by destruct register_microphone_has_audio_device.
Qed.

End ADFMicrophone.
