(* ===== verification/Normalizer.v ===== *)
(** * The format normaliser (spec 4.3, 4.4)

    The C++ runtime that consumes the generated configuration is not under
    src/; this file models, from the spec, the step that turns a raw frame
    into the negotiated output format: the channel count is padded or
    truncated, and the gain [gain_log2] of the ADF platform is applied to
    each sample as a left shift by [g] bits that saturates at the range of
    the [w]-bit signed sample word instead of wrapping around.

    [sat_shl] is the per-sample step written so that it never leaves the
    word: it compares the sample against the saturation thresholds shifted
    right, and shifts only when the result fits.  [sat_shl_ref] is the
    specification: shift in unbounded integers, then clamp.  They agree
    when [g < w] ([sat_shl_spec]); [wrap_shl] is what a plain shift of a
    [w]-bit word computes, for comparison. *)

From S2P Require Import Prelude Units I2SConfig AdfMicrophone.

Local Open Scope Z_scope.

(** ** Sample words *)

(** The range of a signed [w]-bit sample. *)
Definition int_min (w : Z) : Z := - 2 ^ (w - 1).
Definition int_max (w : Z) : Z := 2 ^ (w - 1) - 1.

Definition in_range (w x : Z) : bool := (int_min w <=? x) && (x <=? int_max w).

Definition clamp (w x : Z) : Z := Z.max (int_min w) (Z.min (int_max w) x).

(** The bit depth of [BITS_PER_SAMPLE]. *)
Definition bit_depth (b : i2s_bits_per_sample_t) : Z :=
  match b with I2S_BITS_PER_SAMPLE_16BIT => 16 | I2S_BITS_PER_SAMPLE_32BIT => 32 end.

(** ** Gain *)

(** Specification: the sample times [2^g], saturated. *)
Definition sat_shl_ref (w g x : Z) : Z := clamp w (Z.shiftl x g).

(** The normaliser's step: saturate when the sample is beyond the
    thresholds [int_max w >> g] and [int_min w >> g], shift otherwise. *)
Definition sat_shl (w g x : Z) : Z :=
  if Z.shiftr (int_max w) g <? x then int_max w
  else if x <? Z.shiftr (int_min w) g then int_min w
  else Z.shiftl x g.

(** A shift of a [w]-bit two's complement word: the wrap-around that the
    saturation avoids. *)
Definition wrap_shl (w g x : Z) : Z :=
  let m := Z.shiftl x g mod 2 ^ w in
  if m <? 2 ^ (w - 1) then m else m - 2 ^ w.

(** ** Channels *)

(** Pad with silence or truncate a frame to [n] channels. *)
Definition fit_channels (n : nat) (frame : list Z) : list Z :=
  take n frame ++ replicate (n - length frame)%nat 0.

(** [normalize(rawFrame, bitDepth, channelCount, gainLog2)] *)
Definition normalize (w : Z) (n : nat) (g : Z) (frame : list Z) : list Z :=
  map (sat_shl w g) (fit_channels n frame).

(** ** Lemmas on the sample range *)

Section Width.
Context (w : Z) (Hw : 1 ≤ w).

Lemma int_min_max : int_min w < 0 ≤ int_max w.
Proof.
  unfold int_min, int_max. assert (0 < 2 ^ (w - 1)) by (apply Z.pow_pos_nonneg; lia). lia.
Qed.

Lemma in_range_iff x : in_range w x = true <-> int_min w ≤ x ≤ int_max w.
Proof. unfold in_range. rewrite andb_true_iff, !Z.leb_le. done. Qed.

Lemma clamp_in_range x : in_range w (clamp w x) = true.
Proof. apply in_range_iff. pose proof int_min_max. unfold clamp. lia. Qed.

Lemma clamp_id x : in_range w x = true -> clamp w x = x.
Proof. rewrite in_range_iff. unfold clamp. lia. Qed.

Lemma clamp_mono x y : x ≤ y -> clamp w x ≤ clamp w y.
Proof. unfold clamp. lia. Qed.

(** [2^(w-1)] splits as [2^(w-1-g) * 2^g] when [g < w]. *)
Lemma half_range_split g : 0 ≤ g < w -> 2 ^ (w - 1) = 2 ^ (w - 1 - g) * 2 ^ g.
Proof. intros Hg. rewrite <-Z.pow_add_r by lia. f_equal. lia. Qed.

(** The step of the normaliser computes the specification. *)
Lemma sat_shl_spec g x : 0 ≤ g < w -> sat_shl w g x = sat_shl_ref w g x.
Proof.
  intros Hg. unfold sat_shl, sat_shl_ref, clamp, int_min, int_max.
  rewrite !Z.shiftr_div_pow2, Z.shiftl_mul_pow2 by lia.
  pose proof (half_range_split g Hg) as Hsplit.
  set (P := 2 ^ g) in *. set (K := 2 ^ (w - 1 - g)) in *.
  assert (0 < P) by (apply Z.pow_pos_nonneg; lia).
  assert (0 < K) by (apply Z.pow_pos_nonneg; lia).
  rewrite Hsplit.
  replace (- (K * P)) with ((- K) * P) by lia. rewrite Z.div_mul by lia.
  pose proof (Z.mul_div_le (K * P - 1) P ltac:(lia)) as Hle.
  pose proof (Z.mod_pos_bound (K * P - 1) P ltac:(lia)) as Hmod.
  pose proof (Z.div_mod (K * P - 1) P ltac:(lia)) as Hdm.
  set (q := (K * P - 1) / P) in *.
  destruct (Z.ltb_spec q x); [nia|].
  destruct (Z.ltb_spec x (- K)); nia.
Qed.
End Width.

Lemma sat_shl_in_range w g x : 1 ≤ w -> 0 ≤ g < w -> in_range w (sat_shl w g x) = true.
Proof. intros Hw Hg. rewrite sat_shl_spec by lia. apply clamp_in_range; lia. Qed.

Lemma length_fit_channels n frame : length (fit_channels n frame) = n.
Proof. unfold fit_channels. rewrite length_app, length_take, length_replicate. lia. Qed.

Lemma fit_channels_id frame : fit_channels (length frame) frame = frame.
Proof. unfold fit_channels. by rewrite firstn_all, Nat.sub_diag, app_nil_r. Qed.

Lemma sat_shl_0 w x : 1 ≤ w -> in_range w x = true -> sat_shl w 0 x = x.
Proof.
  intros Hw Hx. rewrite sat_shl_spec by lia. unfold sat_shl_ref.
  rewrite Z.shiftl_0_r. by apply clamp_id.
Qed.

(** A normalised frame is the specification applied to the fitted frame. *)
Lemma normalize_ref w n g frame :
  1 ≤ w -> 0 ≤ g < w -> normalize w n g frame = map (sat_shl_ref w g) (fit_channels n frame).
Proof. intros Hw Hg. apply map_ext. intros x. by apply sat_shl_spec. Qed.

Lemma normalize_in_range w n g frame :
  1 ≤ w -> 0 ≤ g < w -> Forall (fun y => in_range w y = true) (normalize w n g frame).
Proof.
  intros Hw Hg. apply Forall_map, Forall_forall. intros x _. by apply sat_shl_in_range.
Qed.

#[export] Hint Resolve sat_shl_in_range clamp_in_range normalize_in_range : mic.
#[export] Hint Rewrite length_fit_channels fit_channels_id : mic_rw.

(** The gain of an accepted ADF configuration fits both sample widths. *)
Lemma adf_gain_width raw c b :
  ADFMicrophone.CONFIG_SCHEMA raw = Ok c ->
  1 ≤ bit_depth b ∧ 0 ≤ ADFMicrophone.gain_log2 c < bit_depth b.
Proof. intros Hs%ADFMicrophone.CONFIG_SCHEMA_Ok_gain. destruct b; simpl; lia. Qed.

(** ** Properties *)

(** C13. For every gain the ADF platform accepts and either bit depth of
    [BITS_PER_SAMPLE], the normaliser computes spec 4.3: each channel of
    the fitted frame multiplied by [2^gain_log2] and clamped to the sample
    range. *)
Theorem normalize_equiv raw c b n frame :
  ADFMicrophone.CONFIG_SCHEMA raw = Ok c ->
  normalize (bit_depth b) n (ADFMicrophone.gain_log2 c) frame
  = map (fun x => clamp (bit_depth b) (x * 2 ^ ADFMicrophone.gain_log2 c)) (fit_channels n frame).
Proof.
  intros Hs. destruct (adf_gain_width raw c b Hs) as [Hw Hg].
  rewrite normalize_ref by done. apply map_ext. intros x.
  unfold sat_shl_ref. by rewrite Z.shiftl_mul_pow2 by lia.
Qed.

(** C14. For every accepted gain and bit depth, a normalised frame has
    exactly the negotiated number of channels and every sample is in the
    range of the sample word: the gain never wraps around. *)
Theorem normalize_bounds raw c b n frame :
  ADFMicrophone.CONFIG_SCHEMA raw = Ok c ->
  let y := normalize (bit_depth b) n (ADFMicrophone.gain_log2 c) frame in
  length y = n ∧ Forall (fun s => in_range (bit_depth b) s = true) y.
Proof.
  intros Hs y. destruct (adf_gain_width raw c b Hs) as [Hw Hg].
  split; [|subst y; auto with mic].
  subst y. unfold normalize. by rewrite length_map, length_fit_channels.
Qed.

(** C15. With the default gain (no [gain_log2] key) and the frame's own
    channel count, the normaliser is the identity on in-range samples of
    either bit depth (spec 8: 32 bits, gain 0). *)
Theorem normalize_identity c b frame :
  ADFMicrophone.CONFIG_SCHEMA {| ADFMicrophone.raw_gain_log2 := None |} = Ok c ->
  Forall (fun x => in_range (bit_depth b) x = true) frame ->
  normalize (bit_depth b) (length frame) (ADFMicrophone.gain_log2 c) frame = frame.
Proof.
  intros [= <-] Hall. simpl. unfold normalize. rewrite fit_channels_id.
  assert (1 ≤ bit_depth b) by (destruct b; simpl; lia).
  induction Hall as [|x l Hx _ IH]; [done|]. simpl. by rewrite sat_shl_0, IH.
Qed.

(** C16. For every accepted gain and bit depth, the gain preserves the
    order of samples: a louder input never comes out quieter, which a
    wrapping shift does not guarantee. *)
Theorem sat_shl_monotone raw c b x y :
  ADFMicrophone.CONFIG_SCHEMA raw = Ok c -> x ≤ y ->
  sat_shl (bit_depth b) (ADFMicrophone.gain_log2 c) x
  ≤ sat_shl (bit_depth b) (ADFMicrophone.gain_log2 c) y.
Proof.
  intros Hs Hxy. destruct (adf_gain_width raw c b Hs) as [Hw Hg].
  rewrite !sat_shl_spec by lia. unfold sat_shl_ref.
  apply clamp_mono. rewrite !Z.shiftl_mul_pow2 by lia.
  apply Z.mul_le_mono_nonneg_r; [|done]. apply Z.pow_nonneg. lia.
Qed.

(** ** Examples *)

(** [gain_log2: 3] and [gain_log2: 7]. *)
Definition adf_gain (g : Z) : ADFMicrophone.raw_config := {| ADFMicrophone.raw_gain_log2 := Some (YInt g) |}.

Lemma adf_gain_3 : ADFMicrophone.CONFIG_SCHEMA (adf_gain 3) = Ok {| ADFMicrophone.gain_log2 := 3 |}.
Proof. reflexivity. Qed.

Lemma adf_gain_7 : ADFMicrophone.CONFIG_SCHEMA (adf_gain 7) = Ok {| ADFMicrophone.gain_log2 := 7 |}.
Proof. reflexivity. Qed.

Lemma normalize_equiv_witness : normalize 16 3 3 [4096; -100] = [32767; -800; 0].
Proof.
  pose proof (normalize_equiv _ _ I2S_BITS_PER_SAMPLE_16BIT 3 [4096; -100] adf_gain_3) as He.
  simpl in He. rewrite He. vm_compute. reflexivity.
Defined.

Lemma normalize_bounds_witness :
  length (normalize 32 1 7 [2 ^ 30; 5]) = 1%nat
  ∧ Forall (fun y => in_range 32 y = true) (normalize 32 1 7 [2 ^ 30; 5]).
Proof. exact (normalize_bounds _ _ I2S_BITS_PER_SAMPLE_32BIT 1 [2 ^ 30; 5] adf_gain_7). Defined.

Lemma normalize_identity_witness :
  normalize 32 3 0 [1; -2; 2147483647] = [1; -2; 2147483647].
Proof.
  apply (normalize_identity {| ADFMicrophone.gain_log2 := 0 |} I2S_BITS_PER_SAMPLE_32BIT
           [1; -2; 2147483647]); [reflexivity|].
  repeat (constructor; [reflexivity|]). constructor.
Defined.

(** A wrapping shift turns the louder sample 4096 into the most negative
    one; the saturating shift keeps the order. *)
Lemma sat_shl_monotone_witness :
  sat_shl 16 3 4095 ≤ sat_shl 16 3 4096 ∧ wrap_shl 16 3 4096 < wrap_shl 16 3 4095.
Proof.
  split; [apply (sat_shl_monotone _ _ I2S_BITS_PER_SAMPLE_16BIT 4095 4096 adf_gain_3); lia
         | vm_compute; reflexivity].
Defined.
