(* ===== verification/SampleBuffer.v ===== *)
(** * The sample buffer (spec 3, 4.3, 5)

    The bounded buffer between the acquisition engine (the producer,
    running in the interrupt or DMA-completion context) and the pipeline
    (the consumer), modelled from the spec: the C++ runtime is not under
    src/.  It is a ring of [cap] slots with free-running read and write
    cursors; the producer only writes the slot under the write cursor and
    advances it, the consumer only reads under the read cursor and
    advances it.  A frame produced while the ring is full is dropped and
    counted, never blocking the producer and never overwriting unread data.

    [Queue] is the abstract specification, a FIFO list with a capacity and
    a drop counter; [ring_refines] relates the two and every operation
    preserves it.  [run] interleaves producer and consumer events, and
    the conservation lemmas state that a frame is delivered once, in
    production order, unless it was dropped and counted. *)

From S2P Require Import Prelude.

Section Ring.
Context {A : Type} `{Inhabited A}.

(** ** The ring *)

Record ring := {
  cap : nat;
  slots : list A;
  rd : nat;          (* read cursor: frames consumed so far *)
  wr : nat;          (* write cursor: frames stored so far *)
  overruns : nat     (* frames dropped because the ring was full *)
}.

(** A new ring of [n] slots. *)
Definition ring_new (n : nat) : ring :=
  {| cap := n; slots := replicate n inhabitant; rd := 0; wr := 0; overruns := 0 |}.

Definition ring_full (r : ring) : bool := bool_decide (wr r - rd r = cap r).

(** The producer: store at the write cursor, or drop and count. *)
Definition ring_push (x : A) (r : ring) : ring :=
  if ring_full r then
    {| cap := cap r; slots := slots r; rd := rd r; wr := wr r; overruns := S (overruns r) |}
  else
    {| cap := cap r; slots := <[wr r mod cap r := x]> (slots r); rd := rd r; wr := S (wr r);
       overruns := overruns r |}.

(** The consumer: take the frame under the read cursor, if any. *)
Definition ring_pop (r : ring) : option (A * ring) :=
  if bool_decide (rd r = wr r) then None
  else Some (slots r !!! (rd r mod cap r),
             {| cap := cap r; slots := slots r; rd := S (rd r); wr := wr r;
                overruns := overruns r |}).

(** The unread frames, oldest first. *)
Definition contents (r : ring) : list A :=
  map (fun i => slots r !!! (i mod cap r)) (seq (rd r) (wr r - rd r)).

(** Well-formedness: at least one slot, the cursors at most [cap] apart. *)
Definition ring_wf (r : ring) : Prop :=
  0 < cap r ∧ length (slots r) = cap r ∧ rd r ≤ wr r ≤ rd r + cap r.

(** ** The specification: a bounded FIFO queue that drops when full *)

Record queue := { qcap : nat; items : list A; dropped : nat }.

Definition queue_push (x : A) (q : queue) : queue :=
  if bool_decide (length (items q) = qcap q)
  then {| qcap := qcap q; items := items q; dropped := S (dropped q) |}
  else {| qcap := qcap q; items := items q ++ [x]; dropped := dropped q |}.

Definition queue_pop (q : queue) : option (A * queue) :=
  match items q with
  | [] => None
  | x :: l => Some (x, {| qcap := qcap q; items := l; dropped := dropped q |})
  end.

(** The ring implements the queue [q]. *)
Definition ring_refines (r : ring) (q : queue) : Prop :=
  ring_wf r ∧ cap r = qcap q ∧ contents r = items q ∧ overruns r = dropped q.

(** ** Producer and consumer interleaved *)

Inductive event := Produce (x : A) | Consume.

(** One event: the ring after it and the frame the consumer received. *)
Definition ring_step (e : event) (r : ring) : ring * option A :=
  match e with
  | Produce x => (ring_push x r, None)
  | Consume => match ring_pop r with Some (x, r') => (r', Some x) | None => (r, None) end
  end.

(** A sequence of events: the final ring and the delivered frames. *)
Fixpoint run (es : list event) (r : ring) : ring * list A :=
  match es with
  | [] => (r, [])
  | e :: es' =>
      let '(r1, o) := ring_step e r in
      let '(r2, out) := run es' r1 in
      (r2, option_list o ++ out)
  end.

(** The frames the producer offered, in order. *)
Fixpoint produced (es : list event) : list A :=
  match es with
  | [] => []
  | Produce x :: es' => x :: produced es'
  | Consume :: es' => produced es'
  end.

End Ring.

Arguments ring A : clear implicits.
Arguments queue A : clear implicits.
Arguments event A : clear implicits.

(** ** The ring refines the queue *)

Section RingLemmas.
Context {A : Type} `{Inhabited A}.
Implicit Types (r : ring A) (q : queue A).

Lemma length_contents r : length (contents r) = wr r - rd r.
Proof. unfold contents. by rewrite length_map, length_seq. Qed.

Lemma ring_new_refines n :
  0 < n -> ring_refines (ring_new (A:=A) n) {| qcap := n; items := []; dropped := 0 |}.
Proof. intros Hn. repeat split; simpl; rewrite ?length_replicate; lia. Qed.

(** The slots the write leaves alone still hold the unread frames. *)
Lemma contents_insert_write r x :
  ring_wf r -> wr r - rd r < cap r ->
  map (fun i => <[wr r mod cap r := x]> (slots r) !!! (i mod cap r)) (seq (rd r) (wr r - rd r))
  = contents r.
Proof.
  intros (Hc & Hl & Hrw) Hnf. unfold contents. apply map_ext_in. intros i Hi%in_seq.
  rewrite list_lookup_total_insert_ne; [done|].
  apply not_eq_sym, mod_window_neq; lia.
Qed.

Lemma ring_push_refines r q x :
  ring_refines r q -> ring_refines (ring_push x r) (queue_push x q).
Proof.
  intros (Hwf & Hc & Hi & Ho). pose proof Hwf as (Hcap & Hl & Hrw).
  unfold ring_push, queue_push, ring_full.
  rewrite <-Hi, length_contents, <-Hc.
  case_bool_decide as Hfull.
  - repeat split; simpl; auto with lia.
  - repeat split; simpl; rewrite ?length_insert; try lia.
    unfold contents at 1. simpl.
    replace (S (wr r) - rd r) with (wr r - rd r + 1) by lia.
    rewrite seq_app, map_app, contents_insert_write by (done || lia).
    simpl. rewrite Nat.add_comm, Nat.sub_add by lia.
    rewrite list_lookup_total_insert_eq; [done|].
    rewrite Hl. apply Nat.mod_upper_bound. lia.
Qed.

(** The consumer gets the oldest unread frame, or nothing from an empty
    ring, exactly as from the queue. *)
Lemma ring_pop_refines r q :
  ring_refines r q ->
  match ring_pop r, queue_pop q with
  | None, None => True
  | Some (x, r'), Some (y, q') => x = y ∧ ring_refines r' q'
  | _, _ => False
  end.
Proof.
  intros (Hwf & Hc & Hi & Ho). pose proof Hwf as (Hcap & Hl & Hrw).
  unfold ring_pop, queue_pop. rewrite <-Hi.
  case_bool_decide as He.
  - unfold contents. by rewrite He, Nat.sub_diag.
  - unfold contents. destruct (wr r - rd r) as [|k] eqn:Hk; [lia|]. simpl.
    split; [done|]. repeat split; simpl; try lia.
    unfold contents. simpl. by replace (wr r - S (rd r)) with k by lia.
Qed.
(** The ring's abstraction: what it implements. *)
Definition ring_abs r : queue A := {| qcap := cap r; items := contents r; dropped := overruns r |}.

Lemma ring_wf_refines r : ring_wf r -> ring_refines r (ring_abs r).
Proof. done. Qed.

Lemma ring_push_wf r x : ring_wf r -> ring_wf (ring_push x r) ∧ cap (ring_push x r) = cap r.
Proof.
  intros Hwf. destruct (ring_push_refines r _ x (ring_wf_refines r Hwf)) as (Hwf' & Hc & _).
  split; [done|]. rewrite Hc. unfold queue_push. by case_bool_decide.
Qed.

Lemma ring_pop_wf r x r' : ring_wf r -> ring_pop r = Some (x, r') -> ring_wf r' ∧ cap r' = cap r.
Proof.
  intros Hwf Hp. pose proof (ring_pop_refines r _ (ring_wf_refines r Hwf)) as Hr.
  rewrite Hp in Hr. unfold queue_pop in Hr. simpl in Hr.
  destruct (contents r); [done|]. by destruct Hr as [_ (? & -> & _)].
Qed.

Lemma length_contents_wf r : ring_wf r -> length (contents r) ≤ cap r.
Proof. intros (_ & _ & Hrw). rewrite length_contents. lia. Qed.

(** [ring_pop] takes the head of the contents. *)
Lemma ring_pop_contents r :
  ring_wf r ->
  match ring_pop r with
  | None => contents r = []
  | Some (x, r') => contents r = x :: contents r' ∧ ring_wf r' ∧ cap r' = cap r
                    ∧ overruns r' = overruns r
  end.
Proof.
  intros Hwf. pose proof (ring_pop_refines r _ (ring_wf_refines r Hwf)) as Hr.
  unfold queue_pop in Hr. simpl in Hr.
  destruct (ring_pop r) as [[x r']|], (contents r) as [|y l]; try done.
  destruct Hr as [-> (Hwf' & Hc & Hi & Ho)]. simpl in *. by rewrite Hi.
Qed.
End RingLemmas.

(** ** Runs of the queue *)

Section QueueRun.
Context {A : Type}.
Implicit Types (q : queue A) (es : list (event A)).

Definition queue_step (e : event A) q : queue A * option A :=
  match e with
  | Produce x => (queue_push x q, None)
  | Consume => match queue_pop q with Some (x, q') => (q', Some x) | None => (q, None) end
  end.

Fixpoint queue_run es q : queue A * list A :=
  match es with
  | [] => (q, [])
  | e :: es' =>
      let '(q1, o) := queue_step e q in
      let '(q2, out) := queue_run es' q1 in
      (q2, option_list o ++ out)
  end.

Lemma queue_run_app es1 es2 q :
  queue_run (es1 ++ es2) q =
    let '(q1, o1) := queue_run es1 q in
    let '(q2, o2) := queue_run es2 q1 in (q2, o1 ++ o2).
Proof.
  revert q. induction es1 as [|e es1 IH]; intros q; simpl.
  - by destruct (queue_run es2 q).
  - destruct (queue_step e q) as [q1 o]. rewrite IH.
    destruct (queue_run es1 q1) as [q2 o1], (queue_run es2 q2) as [q3 o2].
    by rewrite app_assoc.
Qed.

(** Every frame offered is either delivered, still buffered, or dropped
    and counted; the delivered and buffered ones keep production order and
    none is duplicated. *)
Lemma queue_run_conservation es q :
  let '(q', out) := queue_run es q in
  ∃ kept, sublist kept (produced es) ∧ items q ++ kept = out ++ items q'
          ∧ length (produced es) = length kept + (dropped q' - dropped q)
          ∧ dropped q ≤ dropped q' ∧ qcap q' = qcap q.
Proof.
  revert q. induction es as [|[x|] es IH]; intros q; simpl.
  - exists []. rewrite app_nil_r. split_and!; [apply sublist_nil_l|done|simpl; lia|lia|done].
  - specialize (IH (queue_push x q)). destruct (queue_run es (queue_push x q)) as [q' out].
    destruct IH as (kept & Hsub & Hitems & Hlen & Hd & Hc).
    unfold queue_push in *. case_bool_decide; simpl in *.
    + exists kept. split_and!; [by constructor|done|lia|lia|done].
    + exists (x :: kept). split_and!; [by constructor| |simpl; lia|lia|done].
      by rewrite <-Hitems, <-app_assoc.
  - unfold queue_pop. destruct (items q) as [|y l] eqn:Hq; simpl.
    + specialize (IH q). destruct (queue_run es q) as [q' out]. rewrite Hq in IH. exact IH.
    + specialize (IH {| qcap := qcap q; items := l; dropped := dropped q |}).
      destruct (queue_run es _) as [q' out]. simpl in IH.
      destruct IH as (kept & Hsub & Hitems & Hlen & Hd & Hc).
      exists kept. split_and!; try done. simpl. by rewrite Hitems.
Qed.

(** Producing into a queue with room for all the frames drops nothing. *)
Lemma queue_run_produce_room q l :
  length (items q) + length l ≤ qcap q ->
  queue_run (map Produce l) q = ({| qcap := qcap q; items := items q ++ l; dropped := dropped q |}, []).
Proof.
  revert q. induction l as [|x l IH]; intros q Hroom; simpl in *.
  - destruct q. by rewrite app_nil_r.
  - unfold queue_push. rewrite bool_decide_eq_false_2 by lia.
    rewrite IH by (simpl; rewrite length_app; simpl; lia). simpl. by rewrite <-app_assoc.
Qed.

(** Consuming as many times as there are frames delivers them all. *)
Lemma queue_run_consume_all q :
  queue_run (replicate (length (items q)) Consume) q
  = ({| qcap := qcap q; items := []; dropped := dropped q |}, items q).
Proof.
  destruct q as [c l d]. simpl. revert c d. induction l as [|x l IH]; intros c d; simpl; [done|].
  by rewrite IH.
Qed.

(** A burst: the producer offers [b], then the consumer drains it. *)
Definition burst (b : list A) : list (event A) := map Produce b ++ replicate (length b) Consume.

Lemma queue_run_bursts c d bs :
  Forall (fun b => length b ≤ c) bs ->
  queue_run (concat (map burst bs)) {| qcap := c; items := []; dropped := d |}
  = ({| qcap := c; items := []; dropped := d |}, concat bs).
Proof.
  induction 1 as [|b bs Hb _ IH]; simpl; [done|]. unfold burst at 1.
  rewrite !queue_run_app, queue_run_produce_room by (simpl; lia). simpl.
  pose proof (queue_run_consume_all {| qcap := c; items := b; dropped := d |}) as Hc.
  simpl in Hc. by rewrite Hc, IH.
Qed.
End QueueRun.

(** ** Runs of the ring *)

Section RingRun.
Context {A : Type} `{Inhabited A}.

(** Every interleaving of the ring is simulated by the queue: the same
    frames are delivered and the refinement holds at the end. *)
Lemma run_refines es (r : ring A) q :
  ring_refines r q ->
  let '(r', out) := run es r in
  let '(q', out') := queue_run es q in
  out = out' ∧ ring_refines r' q'.
Proof.
  revert r q. induction es as [|[x|] es IH]; intros r q Hrq; simpl; [done|..].
  - specialize (IH _ _ (ring_push_refines r q x Hrq)).
    destruct (run es _), (queue_run es _). naive_solver.
  - pose proof (ring_pop_refines r q Hrq) as Hpop.
    destruct (ring_pop r) as [[x r1]|], (queue_pop q) as [[y q1]|]; try contradiction.
    + destruct Hpop as [-> Hr1]. specialize (IH _ _ Hr1).
      destruct (run es r1), (queue_run es q1). naive_solver.
    + specialize (IH _ _ Hrq). destruct (run es r), (queue_run es q). naive_solver.
Qed.

(** Conservation from a new ring of [n] slots. *)
Lemma ring_run_conservation n es :
  0 < n ->
  let '(r', out) := run es (ring_new (A:=A) n) in
  ring_wf r' ∧ cap r' = n ∧
  ∃ kept, sublist kept (produced es) ∧ kept = out ++ contents r'
          ∧ length (produced es) = length kept + overruns r'.
Proof.
  intros Hn. pose proof (run_refines es _ _ (ring_new_refines n Hn)) as Hsim.
  pose proof (queue_run_conservation es {| qcap := n; items := []; dropped := 0 |}) as Hc.
  destruct (run es _) as [r' out], (queue_run es _) as [q' out'].
  destruct Hsim as [<- (Hwf & Hcap & Hi & Ho)].
  destruct Hc as (kept & Hsub & Hitems & Hlen & _ & Hq). simpl in *.
  split_and!; [done|congruence|]. exists kept. rewrite Hi, Ho. split_and!; [done|done|lia].
Qed.

(** A consumer that drains the ring after at most [n] productions loses
    nothing: every frame is delivered, in order, and nothing is counted. *)
Lemma ring_run_bursts n bs :
  0 < n -> Forall (fun b => length b ≤ n) bs ->
  let '(r', out) := run (concat (map burst bs)) (ring_new (A:=A) n) in
  out = concat bs ∧ overruns r' = 0 ∧ contents r' = [].
Proof.
  intros Hn Hbs. pose proof (run_refines (concat (map burst bs)) _ _ (ring_new_refines n Hn)) as Hsim.
  rewrite (queue_run_bursts n 0 bs Hbs) in Hsim.
  destruct (run _ _) as [r' out]. destruct Hsim as [-> (_ & _ & Hi & Ho)]. done.
Qed.
End RingRun.
