(* ===== verification/Engine.v ===== *)
(** * The sample acquisition engine (spec 4.3, 5)

    The C++ engine is not under src/; it is modelled from the spec.  Each
    engine drives one I2S port (the peripheral); a table [owner] records
    which engine holds each port, and is the only state shared between
    engines.  [engine_start] claims the port and creates a new sample
    buffer, or fails with [PeripheralBusy] (the port is held) or
    [PeripheralInitError] (the driver refuses the parameters) and then
    changes nothing.  [engine_stop] releases the port and destroys the
    buffer, and does nothing on an idle engine.  The producer
    ([engine_produce], the interrupt handler) stores a frame only while
    the engine runs.

    The parameters an engine starts with are those the generated C++
    program gives the component ([component_params]): the ADC channel of
    its [set_adc_channel] statement, and the configuration's I2S settings
    (sample rate, bit depth, channel format, PDM, APLL) only when it was
    registered as an I2S reader; otherwise the component keeps its own
    defaults. *)

From S2P Require Import Prelude Platform Microphone I2SConfig SampleBuffer.

(** A frame: one sample per channel. *)
Abbreviation frame := (list Z).

(** ** Parameters from the generated program *)

(** The I2S settings [register_i2s_reader(var, config)] of the parent
    package hands to the component from its configuration. *)
Record i2s_settings := {
  s_sample_rate : Z;
  s_bits : i2s_bits_per_sample_t;
  s_channel : i2s_channel_fmt_t;
  s_pdm : bool;
  s_use_apll : bool
}.

Record acq_params := {
  p_adc_channel : option nat;
  p_i2s_reader : bool;
  p_i2s_settings : option i2s_settings   (* None: the component's own defaults *)
}.

(** The channel the last [set_adc_channel] of the program sets. *)
Fixpoint adc_channel_of (prog : list stmt) : option nat :=
  match prog with
  | [] => None
  | SetAdcChannel ch :: prog' => match adc_channel_of prog' with Some c => Some c | None => Some ch end
  | _ :: prog' => adc_channel_of prog'
  end.

Definition settings_of (c : mic_config) : i2s_settings :=
  {| s_sample_rate := sample_rate c; s_bits := bits_per_sample c; s_channel := channel c;
     s_pdm := default false (pdm c); s_use_apll := use_apll c |}.

(** What the [I2SAudioMicrophone] receives from the statements of its
    generated setup code: the ADC channel of [set_adc_channel], and the
    configuration's I2S settings only through [register_i2s_reader]. *)
Definition component_params (c : mic_config) (prog : list stmt) : acq_params :=
  let reader := bool_decide (RegisterI2SReader ∈ prog) in
  {| p_adc_channel := adc_channel_of prog;
     p_i2s_reader := reader;
     p_i2s_settings := if reader then Some (settings_of c) else None |}.

(** ** Engines *)

Inductive engine_state := Idle | Running | Failed.

#[export] Instance engine_state_eq_dec : EqDecision engine_state.
Proof. solve_decision. Defined.

Record engine := {
  port : nat;
  estate : engine_state;
  eparams : option acq_params;
  buffer : option (ring frame)
}.

(** All engines and the owner of each port. *)
Record acq_system := {
  owner : gmap nat nat;           (* port -> engine id *)
  engines : gmap nat engine
}.

Inductive engine_error := PeripheralBusy | PeripheralInitError | NoSuchEngine.

#[export] Instance engine_error_eq_dec : EqDecision engine_error.
Proof. solve_decision. Defined.

(** The peripheral driver: which parameters it accepts. *)
Class PeripheralDriver := { driver_accepts : acq_params -> bool }.

Definition set_engine (i : nat) (e : engine) (s : acq_system) : acq_system :=
  {| owner := owner s; engines := <[i := e]> (engines s) |}.

Section Operations.
Context `{PeripheralDriver} (capacity : nat).

(** [start(config)]: claim the port, create the buffer, run. *)
Definition engine_start (i : nat) (p : acq_params) (s : acq_system) : result engine_error acq_system :=
  match engines s !! i with
  | None => Err NoSuchEngine
  | Some e =>
      if bool_decide (is_Some (owner s !! port e)) then Err PeripheralBusy
      else if driver_accepts p then
        Ok {| owner := <[port e := i]> (owner s);
              engines := <[i := {| port := port e; estate := Running; eparams := Some p;
                                   buffer := Some (ring_new capacity) |}]> (engines s) |}
      else Err PeripheralInitError
  end.

(** [stop()]: release the port if this engine holds it, destroy the
    buffer, back to idle; nothing to do on an idle engine. *)
Definition engine_stop (i : nat) (s : acq_system) : acq_system :=
  match engines s !! i with
  | None => s
  | Some e =>
      if bool_decide (estate e = Idle) then s
      else {| owner := if bool_decide (owner s !! port e = Some i) then delete (port e) (owner s)
                       else owner s;
              engines := <[i := {| port := port e; estate := Idle; eparams := None;
                                   buffer := None |}]> (engines s) |}
  end.

(** A completed hardware transfer: one frame for a running engine. *)
Definition engine_produce (i : nat) (x : frame) (s : acq_system) : acq_system :=
  match engines s !! i with
  | Some e =>
      if bool_decide (estate e = Running) then
        match buffer e with
        | Some r => set_engine i {| port := port e; estate := Running; eparams := eparams e;
                                    buffer := Some (ring_push x r) |} s
        | None => s
        end
      else s
  | None => s
  end.

(** The consumer takes the oldest buffered frame. *)
Definition engine_consume (i : nat) (s : acq_system) : acq_system * option frame :=
  match engines s !! i with
  | Some e =>
      match buffer e ≫= ring_pop with
      | Some (x, r') => (set_engine i {| port := port e; estate := estate e; eparams := eparams e;
                                         buffer := Some r' |} s, Some x)
      | None => (s, None)
      end
  | None => (s, None)
  end.

(** An unrecoverable peripheral error: a running engine fails. *)
Definition engine_fail (i : nat) (s : acq_system) : acq_system :=
  match engines s !! i with
  | Some e =>
      if bool_decide (estate e = Running) then
        set_engine i {| port := port e; estate := Failed; eparams := eparams e; buffer := buffer e |} s
      else s
  | None => s
  end.
End Operations.

(** ** The invariant of the acquisition system *)

Section Invariant.
Context `{PeripheralDriver} (capacity : nat) (Hcap : 0 < capacity).

(** A port has an owner exactly when an engine on that port is not idle,
    and that engine is the owner; a non-idle engine has a well-formed
    buffer of the configured capacity, an idle one has none. *)
Definition acq_inv (s : acq_system) : Prop :=
  (∀ p i, owner s !! p = Some i -> ∃ e, engines s !! i = Some e ∧ port e = p ∧ estate e ≠ Idle)
  ∧ (∀ i e, engines s !! i = Some e -> estate e ≠ Idle -> owner s !! port e = Some i)
  ∧ (∀ i e, engines s !! i = Some e ->
       match buffer e with
       | None => estate e = Idle
       | Some r => estate e ≠ Idle ∧ ring_wf r ∧ cap r = capacity
       end)
  ∧ (∀ i e, engines s !! i = Some e -> estate e = Idle -> eparams e = None).

(** The steps engine [i] can take: start, stop, produce, be consumed
    from, fail. *)
Inductive acq_step_by (i : nat) : acq_system -> acq_system -> Prop :=
| step_start p s s' : engine_start capacity i p s = Ok s' -> acq_step_by i s s'
| step_stop s : acq_step_by i s (engine_stop i s)
| step_produce x s : acq_step_by i s (engine_produce i x s)
| step_consume s : acq_step_by i s (engine_consume i s).1
| step_fail s : acq_step_by i s (engine_fail i s).

(** The steps of the system: any engine, in any interleaving. *)
Definition acq_step (s s' : acq_system) : Prop := ∃ i, acq_step_by i s s'.

Lemma acq_inv_empty (es : gmap nat nat) :
  acq_inv {| owner := ∅; engines := (fun p => {| port := p; estate := Idle; eparams := None;
                                                 buffer := None |}) <$> es |}.
Proof.
  split_and!; simpl.
  - intros p i. by rewrite lookup_empty.
  - intros i e. rewrite lookup_fmap. destruct (es !! i); simpl; [|done]. by intros [= <-].
  - intros i e. rewrite lookup_fmap. destruct (es !! i); simpl; [|done]. by intros [= <-].
  - intros i e. rewrite lookup_fmap. destruct (es !! i); simpl; [|done]. by intros [= <-].
Qed.

(** Updating one engine in a way that keeps its port and whether it is
    idle, with a buffer that is still well formed. *)
Lemma acq_inv_set_engine s i e e' :
  acq_inv s -> engines s !! i = Some e -> port e' = port e ->
  (estate e' = Idle <-> estate e = Idle) ->
  match buffer e' with
  | None => estate e' = Idle
  | Some r => estate e' ≠ Idle ∧ ring_wf r ∧ cap r = capacity
  end ->
  (estate e' = Idle -> eparams e' = None) ->
  acq_inv (set_engine i e' s).
Proof.
  intros (H1 & H2 & H3 & H4) He Hp Hidle Hb Hpa. unfold set_engine. split_and!; simpl.
  - intros p j Hj. destruct (H1 p j Hj) as (ej & Hej & <- & Hne).
    destruct (decide (i = j)) as [<-|Hij].
    + rewrite lookup_insert_eq. exists e'. rewrite He in Hej. simplify_eq. naive_solver.
    + rewrite lookup_insert_ne by done. eauto.
  - intros j ej. destruct (decide (i = j)) as [<-|Hij].
    + rewrite lookup_insert_eq. intros [= <-] Hne. rewrite Hp. apply (H2 i e He). naive_solver.
    + rewrite lookup_insert_ne by done. eauto.
  - intros j ej. destruct (decide (i = j)) as [<-|Hij].
    + rewrite lookup_insert_eq. by intros [= <-].
    + rewrite lookup_insert_ne by done. apply H3.
  - intros j ej. destruct (decide (i = j)) as [<-|Hij].
    + rewrite lookup_insert_eq. by intros [= <-].
    + rewrite lookup_insert_ne by done. apply H4.
Qed.
Lemma acq_inv_idle_unowned s i e :
  acq_inv s -> engines s !! i = Some e -> owner s !! port e = None -> estate e = Idle.
Proof.
  intros (_ & H2 & _ & _) He Hown. destruct (decide (estate e = Idle)) as [|Hne]; [done|].
  rewrite (H2 i e He Hne) in Hown. discriminate.
Qed.

Lemma engine_start_inv i p s s' :
  acq_inv s -> engine_start capacity i p s = Ok s' -> acq_inv s'.
Proof.
  intros Hinv. unfold engine_start.
  destruct (engines s !! i) as [e|] eqn:He; [|discriminate].
  case_bool_decide as Hown; [discriminate|]. destruct (driver_accepts p); [|discriminate].
  intros [= <-]. apply eq_None_not_Some in Hown.
  pose proof (acq_inv_idle_unowned s i e Hinv He Hown) as Hidle.
  destruct Hinv as (H1 & H2 & H3 & H4). split_and!; simpl.
  - intros q j. rewrite lookup_insert. case_decide as Hq.
    + intros [= <-]. rewrite lookup_insert_eq. eexists; split_and!; [done|done|done].
    + intros Hj. destruct (H1 q j Hj) as (ej & Hej & <- & Hne).
      rewrite lookup_insert_ne; [eauto|]. intros <-. congruence.
  - intros j ej. rewrite lookup_insert. case_decide as Hij.
    + subst j. intros [= <-] _. simpl. by rewrite lookup_insert_eq.
    + intros Hej Hne. pose proof (H2 j ej Hej Hne) as Ho.
      rewrite lookup_insert_ne; [done|]. intros Hq. rewrite Hq in Hown. congruence.
  - intros j ej. rewrite lookup_insert. case_decide.
    + intros [= <-]. simpl. pose proof (ring_new_refines (A:=frame) capacity Hcap) as [? _].
      done.
    + apply H3.
  - intros j ej. rewrite lookup_insert. case_decide; [by intros [= <-]|]. apply H4.
Qed.

Lemma engine_stop_inv i s : acq_inv s -> acq_inv (engine_stop i s).
Proof.
  intros Hinv. unfold engine_stop.
  destruct (engines s !! i) as [e|] eqn:He; [|done]. case_bool_decide as Hidle; [done|].
  pose proof Hinv as (H1 & H2 & H3 & H4). rewrite bool_decide_eq_true_2 by eauto.
  split_and!; simpl.
  - intros q j. rewrite lookup_delete. case_decide; [discriminate|].
    intros Hj. destruct (H1 q j Hj) as (ej & Hej & <- & Hne).
    rewrite lookup_insert_ne; [eauto|]. intros <-. congruence.
  - intros j ej. rewrite lookup_insert. case_decide as Hij; [by intros [= <-]|].
    intros Hej Hne. pose proof (H2 j ej Hej Hne) as Ho.
    rewrite lookup_delete_ne; [done|]. intros Hq.
    rewrite <-Hq, (H2 i e He Hidle) in Ho. congruence.
  - intros j ej. rewrite lookup_insert. case_decide; [by intros [= <-]|]. apply H3.
  - intros j ej. rewrite lookup_insert. case_decide; [by intros [= <-]|]. apply H4.
Qed.

Lemma engine_produce_inv i x s : acq_inv s -> acq_inv (engine_produce i x s).
Proof.
  intros Hinv. unfold engine_produce.
  destruct (engines s !! i) as [e|] eqn:He; [|done]. case_bool_decide as Hrun; [|done].
  destruct (buffer e) as [r|] eqn:Hb; [|done].
  pose proof Hinv as (_ & _ & H3 & _). specialize (H3 i e He). rewrite Hb in H3.
  destruct H3 as (Hne & Hwf & Hc). destruct (ring_push_wf r x Hwf) as [Hwf' Hc'].
  apply (acq_inv_set_engine s i e); simpl; [done|done|done|by rewrite Hrun| |discriminate].
  split_and!; [done|done|congruence].
Qed.

Lemma engine_consume_inv i s : acq_inv s -> acq_inv (engine_consume i s).1.
Proof.
  intros Hinv. unfold engine_consume.
  destruct (engines s !! i) as [e|] eqn:He; [|done].
  destruct (buffer e) as [r|] eqn:Hb; simpl; [|done].
  destruct (ring_pop r) as [[x r']|] eqn:Hp; simpl; [|done].
  pose proof Hinv as (_ & _ & H3 & _). specialize (H3 i e He). rewrite Hb in H3.
  destruct H3 as (Hne & Hwf & Hc). destruct (ring_pop_wf r x r' Hwf Hp) as [Hwf' Hc'].
  apply (acq_inv_set_engine s i e); simpl; [done|done|done|done| |done].
  split_and!; [done|done|congruence].
Qed.

Lemma engine_fail_inv i s : acq_inv s -> acq_inv (engine_fail i s).
Proof.
  intros Hinv. unfold engine_fail.
  destruct (engines s !! i) as [e|] eqn:He; [|done]. case_bool_decide as Hrun; [|done].
  pose proof Hinv as (_ & _ & H3 & _). specialize (H3 i e He).
  apply (acq_inv_set_engine s i e); simpl;
    [done|done|done|rewrite Hrun; split; discriminate| |discriminate].
  destruct (buffer e); [|congruence]. split_and!; [discriminate|naive_solver..].
Qed.

Lemma acq_step_by_inv i s s' : acq_inv s -> acq_step_by i s s' -> acq_inv s'.
Proof.
  intros Hinv Hstep. revert Hinv.
  destruct Hstep; intros Hinv; [eapply engine_start_inv | apply engine_stop_inv
    | apply engine_produce_inv | apply engine_consume_inv | apply engine_fail_inv]; eauto.
Qed.

Lemma acq_step_inv s s' : acq_inv s -> acq_step s s' -> acq_inv s'.
Proof. intros Hinv [i Hstep]. eauto using acq_step_by_inv. Qed.

(** The invariant holds in every state reachable by any interleaving. *)
Lemma acq_reachable_inv s s' : acq_inv s -> rtc acq_step s s' -> acq_inv s'.
Proof. intros Hinv Hr. induction Hr; eauto using acq_step_inv. Qed.

(** Two engines that are not idle never share a port. *)
Lemma acq_inv_exclusive s i j ei ej :
  acq_inv s -> engines s !! i = Some ei -> engines s !! j = Some ej ->
  estate ei ≠ Idle -> estate ej ≠ Idle -> port ei = port ej -> i = j.
Proof.
  intros (_ & H2 & _ & _) Hi Hj Hni Hnj Hp.
  pose proof (H2 i ei Hi Hni) as Oi. pose proof (H2 j ej Hj Hnj) as Oj. congruence.
Qed.
(** After [stop], an engine is idle with no buffer and its port is free
    unless another engine holds it. *)
Lemma engine_stop_lookup s i e :
  acq_inv s -> engines s !! i = Some e ->
  engines (engine_stop i s) !! i = Some {| port := port e; estate := Idle; eparams := None; buffer := None |}
  ∧ owner (engine_stop i s) !! port e ≠ Some i
  ∧ (∀ j, j ≠ i -> owner (engine_stop i s) !! port e = Some j -> owner s !! port e = Some j).
Proof.
  intros (H1 & H2 & H3 & H4) He. unfold engine_stop. rewrite He.
  case_bool_decide as Hidle.
  - split_and!; [|intros Ho; destruct (H1 _ _ Ho) as (? & ? & ? & ?); congruence|naive_solver].
    rewrite He. f_equal. specialize (H3 i e He). specialize (H4 i e He Hidle).
    destruct e as [pe st pa b]; simpl in *. subst. destruct b; [naive_solver|done].
  - rewrite (bool_decide_eq_true_2 _ (H2 i e He Hidle)). simpl.
    rewrite lookup_insert_eq, lookup_delete_eq. split_and!; [done|done|discriminate].
Qed.

(** No frame reaches a stopped engine. *)
Lemma engine_produce_stopped s i x :
  acq_inv s -> engine_produce i x (engine_stop i s) = engine_stop i s.
Proof.
  intros Hinv. unfold engine_produce.
  destruct (engines s !! i) as [e|] eqn:He.
  - destruct (engine_stop_lookup s i e Hinv He) as [-> _]. by rewrite bool_decide_eq_false_2.
  - unfold engine_stop. by rewrite He, He.
Qed.

(** [stop] followed by [start] with parameters the driver accepts
    succeeds when no other engine holds the port, and the engine runs
    with a new, empty buffer. *)
Lemma engine_stop_start s i e p :
  acq_inv s -> engines s !! i = Some e ->
  (∀ j, owner s !! port e = Some j -> j = i) -> driver_accepts p = true ->
  engine_start capacity i p (engine_stop i s)
  = Ok {| owner := <[port e := i]> (owner (engine_stop i s));
          engines := <[i := {| port := port e; estate := Running; eparams := Some p;
                               buffer := Some (ring_new capacity) |}]> (engines (engine_stop i s)) |}.
Proof.
  intros Hinv He Hown Hdrv.
  destruct (engine_stop_lookup s i e Hinv He) as (Hl & Hrel & Hother).
  unfold engine_start. rewrite Hl. simpl.
  rewrite bool_decide_eq_false_2, Hdrv; [done|].
  intros [j Hj]. destruct (decide (j = i)) as [->|Hji]; [done|].
  pose proof (Hown j (Hother j Hji Hj)). congruence.
Qed.
(** A step of another engine leaves this engine's record alone. *)
Lemma acq_step_by_frame i j s s' :
  acq_step_by j s s' -> j ≠ i -> engines s' !! i = engines s !! i.
Proof.
  intros Hstep Hji. destruct Hstep as [p s s' Hs| s | x s | s | s].
  - revert Hs. unfold engine_start. destruct (engines s !! j); [|discriminate].
    case_bool_decide; [discriminate|]. destruct (driver_accepts p); [|discriminate].
    intros [= <-]. simpl. by rewrite lookup_insert_ne.
  - unfold engine_stop. destruct (engines s !! j); [|done]. case_bool_decide; [done|].
    simpl. by rewrite lookup_insert_ne.
  - unfold engine_produce. repeat case_match; try done. simpl. by rewrite lookup_insert_ne.
  - unfold engine_consume. repeat case_match; try done. simpl. by rewrite lookup_insert_ne.
  - unfold engine_fail. repeat case_match; try done. simpl. by rewrite lookup_insert_ne.
Qed.
(** Producing and consuming keep an engine's port, state and parameters. *)
Definition same_status (e e' : engine) : Prop :=
  port e' = port e ∧ estate e' = estate e ∧ eparams e' = eparams e.

Lemma engine_produce_status i x s e :
  engines s !! i = Some e ->
  ∃ e', engines (engine_produce i x s) !! i = Some e' ∧ same_status e e'.
Proof.
  intros He. unfold engine_produce. rewrite He.
  case_bool_decide as Hr; [destruct (buffer e)|]; simpl; rewrite ?lookup_insert_eq, ?He;
    eexists; (split; [done|]); unfold same_status; naive_solver.
Qed.

Lemma engine_consume_status i s e :
  engines s !! i = Some e ->
  ∃ e', engines (engine_consume i s).1 !! i = Some e' ∧ same_status e e'.
Proof.
  intros He. unfold engine_consume. rewrite He.
  destruct (buffer e ≫= ring_pop) as [[x r']|]; simpl; rewrite ?lookup_insert_eq, ?He;
    eexists; (split; [done|]); unfold same_status; naive_solver.
Qed.
Lemma engine_start_lookup i p s s' e :
  engine_start capacity i p s = Ok s' -> engines s !! i = Some e ->
  engines s' !! i = Some {| port := port e; estate := Running; eparams := Some p;
                            buffer := Some (ring_new capacity) |}.
Proof.
  unfold engine_start. intros Hs He. rewrite He in Hs.
  case_bool_decide; [discriminate|]. destruct (driver_accepts p); [|discriminate].
  injection Hs as <-. simpl. by rewrite lookup_insert_eq.
Qed.

Lemma engine_fail_lookup i s e :
  engines s !! i = Some e -> estate e = Running ->
  engines (engine_fail i s) !! i
  = Some {| port := port e; estate := Failed; eparams := eparams e; buffer := buffer e |}.
Proof.
  intros He Hr. unfold engine_fail. rewrite He, bool_decide_eq_true_2 by done.
  simpl. by rewrite lookup_insert_eq.
Qed.
End Invariant.

Lemma set_engine_twice i e e' s : set_engine i e' (set_engine i e s) = set_engine i e' s.
Proof. unfold set_engine. simpl. by rewrite insert_insert_eq. Qed.

Lemma set_engine_id i e s : engines s !! i = Some e -> set_engine i e s = s.
Proof. destruct s as [o es]. unfold set_engine. simpl. intros He. by rewrite insert_id. Qed.
