(* ===== verification/Negotiation.v ===== *)
(** * Capability negotiation (spec 4.5)

    At setup the microphone offers its capabilities to the consumer, the
    audio pipeline.  The offer is what the generated registration passes
    to esphome's [microphone] component: [audio_device = {"max_channels":
    1}] when [register_microphone] accepts it; a component of the older
    interface gets no [audio_device], and the spec asks that the
    microphone's own default (the same mono offer) apply, transparently.
    The consumer accepts the offer or asks for a narrower one; a wider
    request fails with [CapabilityMismatch]. *)

From S2P Require Import Prelude Platform Microphone I2SConfig I2SCodegen.

(** [CapabilityOffer]. *)
Record offer := {
  max_channels : nat;
  supported_bits : list i2s_bits_per_sample_t;
  supported_rates : list Z
}.

(** [CapabilityRequest]: what the consumer asks for. *)
Record request := {
  req_channels : nat;
  req_bits : i2s_bits_per_sample_t;
  req_rate : Z
}.

Inductive negotiation_error := CapabilityMismatch.

(** The microphone's default: one channel, the configured format. *)
Definition default_offer (c : mic_config) : offer :=
  {| max_channels := 1; supported_bits := [bits_per_sample c];
     supported_rates := [sample_rate c] |}.

(** The offer a registration statement makes: the channel count of its
    [audio_device], or the default when it has none. *)
Definition offer_of_registration (st : stmt) (c : mic_config) : offer :=
  match st with
  | RegisterMicrophone (Some ad) =>
      {| max_channels := default 1 (ad !! "max_channels");
         supported_bits := [bits_per_sample c]; supported_rates := [sample_rate c] |}
  | _ => default_offer c
  end.

(** A request no wider than the offer. *)
Definition within (o : offer) (r : request) : bool :=
  bool_decide (1 ≤ req_channels r ≤ max_channels o)
  && (req_bits r ∈? supported_bits o) && (req_rate r ∈? supported_rates o).

(** The whole offer, as the request of a consumer that asks nothing. *)
Definition full_request (o : offer) (c : mic_config) : request :=
  {| req_channels := max_channels o; req_bits := bits_per_sample c; req_rate := sample_rate c |}.

(** [negotiate]: the consumer's request if the offer covers it, the full
    offer if it asked for nothing. *)
Definition negotiate (o : offer) (c : mic_config) (r : option request)
  : result negotiation_error request :=
  match r with
  | None => Ok (full_request o c)
  | Some r => if within o r then Ok r else Err CapabilityMismatch
  end.

(** ** Properties *)

(** The offer of the registration [to_code] generates, for either kind of
    [microphone] component. *)
Lemma offer_of_mic_registration `{MicrophoneComponent} c :
  offer_of_registration mic_registration c = default_offer c.
Proof. unfold mic_registration. by destruct register_microphone_has_audio_device. Qed.

(** A mono request in the configured format. *)
Definition mono_request (c : mic_config) (n : nat) : request :=
  {| req_channels := n; req_bits := bits_per_sample c; req_rate := sample_rate c |}.

Lemma within_default_offer c r :
  within (default_offer c) r = true <->
  req_channels r = 1 ∧ req_bits r = bits_per_sample c ∧ req_rate r = sample_rate c.
Proof.
  unfold within, default_offer. simpl. rewrite !andb_true_iff, !bool_decide_eq_true.
  rewrite !list_elem_of_singleton. naive_solver lia.
Qed.

(** C17. Negotiation against the offer the generated registration makes
    (spec 8): a request for one channel in the configured format is
    honoured, a request for two channels fails with [CapabilityMismatch],
    whichever [microphone] component the build has. *)
Theorem negotiate_mono `{MicrophoneComponent} c :
  negotiate (offer_of_registration mic_registration c) c (Some (mono_request c 1))
    = Ok (mono_request c 1)
  ∧ negotiate (offer_of_registration mic_registration c) c (Some (mono_request c 2))
    = Err CapabilityMismatch.
Proof.
  rewrite offer_of_mic_registration. unfold negotiate. split.
  - by rewrite (proj2 (within_default_offer c _)).
  - destruct (within (default_offer c) (mono_request c 2)) eqn:Hw; [|done].
    apply within_default_offer in Hw as [Hn _]. discriminate.
Qed.

(** The compatibility path of [to_code] is transparent: a build
    whose [register_microphone] takes no [audio_device] ends with the same
    offer as one that passes [{"max_channels": 1}], so the consumer
    negotiates the same format either way. *)
Lemma negotiate_legacy_transparent c r :
  negotiate (offer_of_registration (@mic_registration microphone_legacy) c) c r
  = negotiate (offer_of_registration (@mic_registration microphone_with_audio_device) c) c r.
Proof. done. Qed.

(** C18. Every request the generated offer lets through is a mono stream
    in the configured bit depth and sample rate, and a consumer that asks
    nothing gets exactly that. *)
Theorem negotiate_sound `{MicrophoneComponent} c r r' :
  negotiate (offer_of_registration mic_registration c) c r = Ok r' ->
  r' = mono_request c 1 ∧ (∀ r0, r = Some r0 -> r0 = r').
Proof.
  rewrite offer_of_mic_registration. unfold negotiate. destruct r as [r0|].
  - destruct (within (default_offer c) r0) eqn:Hw; [|discriminate]. intros [= <-].
    apply within_default_offer in Hw as (Hn & Hb & Hr).
    destruct r0; simpl in *; subst. naive_solver.
  - intros [= <-]. naive_solver.
Qed.

(** ** Examples *)

Lemma negotiate_sound_witness :
  @negotiate (offer_of_registration (@mic_registration microphone_legacy) esp32_internal_34)
    esp32_internal_34 None = Ok (mono_request esp32_internal_34 1)
  ∧ mono_request esp32_internal_34 1 = mono_request esp32_internal_34 1
  ∧ (∀ r0, None = Some r0 -> r0 = mono_request esp32_internal_34 1).
Proof.
  assert (Hn : @negotiate (offer_of_registration (@mic_registration microphone_legacy) esp32_internal_34)
                 esp32_internal_34 None = Ok (mono_request esp32_internal_34 1)) by reflexivity.
  exact (conj Hn (@negotiate_sound microphone_legacy _ _ _ Hn)).
Defined.
