(* ===== verification/Pipeline.v ===== *)
(** * The pipeline controller (spec 4.6)

    The lifecycle shell around one microphone, modelled from the spec (the
    C++ controller is not under src/), composed with the code that is:
    [pipeline_setup] validates the I2S configuration with [CONFIG_SCHEMA],
    the gain with the ADF platform's [CONFIG_SCHEMA], and generates the
    setup program with [to_code]; it touches no peripheral.
    [pipeline_start] negotiates the format against the offer of the
    generated registration and starts the pipeline's engine with the
    parameters of the generated program; any failure leaves the
    acquisition system as it was and the pipeline [PFailed].
    [pipeline_drain] forwards the oldest buffered frame, normalised, to the
    consumer; [pipeline_stop] drains what is buffered and stops the engine.

    A world is the pipeline with the acquisition system it shares with
    other engines; [world_step] lets the pipeline and any other engine act
    in any interleaving. *)

From S2P Require Import Prelude Units Platform Microphone I2SConfig I2SCodegen AdfMicrophone Normalizer SampleBuffer Engine Negotiation.

Inductive pipeline_state := PUninitialized | PConfigured | PRunning | PStopped | PFailed.

#[export] Instance pipeline_state_eq_dec : EqDecision pipeline_state.
Proof. solve_decision. Defined.

Inductive pipeline_error :=
| ConfigurationError (e : py_exc)
| GainError (e : py_exc)
| CodegenError (e : codegen_error)
| NegotiationFailed (e : negotiation_error)
| StartFailed (e : engine_error)
| WrongState.

Record pipeline := {
  pstate : pipeline_state;
  pconfig : option mic_config;
  pprog : list stmt;             (* the generated setup program *)
  pgain : Z;                     (* gain_log2 *)
  pchannels : nat;               (* negotiated channel count *)
  peid : nat;                    (* the engine of this microphone *)
  forwarded : list frame         (* frames handed to the consumer *)
}.

Definition set_pstate (st : pipeline_state) (p : pipeline) : pipeline :=
  {| pstate := st; pconfig := pconfig p; pprog := pprog p; pgain := pgain p;
     pchannels := pchannels p; peid := peid p; forwarded := forwarded p |}.

Abbreviation world := (pipeline * acq_system)%type.

(** The registration statement of a generated program: its last one. *)
Definition registration (prog : list stmt) : stmt := default (RegisterMicrophone None) (last prog).

(** The sample width of the configured format. *)
Definition out_width (p : pipeline) : Z :=
  match pconfig p with Some c => bit_depth (bits_per_sample c) | None => 32%Z end.

Definition set_forwarded (l : list frame) (p : pipeline) : pipeline :=
  {| pstate := pstate p; pconfig := pconfig p; pprog := pprog p; pgain := pgain p;
     pchannels := pchannels p; peid := peid p; forwarded := l |}.

(** Hand a frame to the consumer, normalised to the negotiated format. *)
Definition forward (x : frame) (p : pipeline) : pipeline :=
  set_forwarded (forwarded p ++ [normalize (out_width p) (pchannels p) (pgain p) x]) p.

(** A pipeline before [setup()], on engine [eid]. *)
Definition init_pipeline (eid : nat) : pipeline :=
  {| pstate := PUninitialized; pconfig := None; pprog := []; pgain := 0; pchannels := 1;
     peid := eid; forwarded := [] |}.

Definition idle_engine (pt : nat) : engine :=
  {| port := pt; estate := Idle; eparams := None; buffer := None |}.

(** The acquisition system at boot: every engine idle on its port, no
    port held. *)
Definition init_system (es : gmap nat nat) : acq_system :=
  {| owner := ∅; engines := idle_engine <$> es |}.

Section Controller.
Context `{AdcPlatform} `{MicrophoneComponent} `{PeripheralDriver}.
Context (variant : esp32_variant) (capacity : nat).

(** [setup()]: validate, resolve and generate; no peripheral access. *)
Definition pipeline_setup (raw : raw_config) (araw : ADFMicrophone.raw_config) (p : pipeline)
  : result pipeline_error pipeline :=
  if bool_decide (pstate p = PUninitialized) then
    match CONFIG_SCHEMA variant raw with
    | Err e => Err (ConfigurationError e)
    | Ok c =>
        match ADFMicrophone.CONFIG_SCHEMA araw with
        | Err e => Err (GainError e)
        | Ok a =>
            match to_code variant c [] with
            | Err e => Err (CodegenError e)
            | Ok (_, prog) =>
                Ok {| pstate := PConfigured; pconfig := Some c; pprog := prog;
                      pgain := ADFMicrophone.gain_log2 a; pchannels := pchannels p;
                      peid := peid p; forwarded := [] |}
            end
        end
    end
  else Err WrongState.

(** [start()]: negotiate, then start the engine; on failure nothing of
    the acquisition system changes. *)
Definition pipeline_start (req : option request) (w : world) : world * option pipeline_error :=
  let '(p, sys) := w in
  match pconfig p with
  | Some c =>
      if bool_decide (pstate p = PConfigured ∨ pstate p = PStopped) then
        match negotiate (offer_of_registration (registration (pprog p)) c) c req with
        | Err e => ((set_pstate PFailed p, sys), Some (NegotiationFailed e))
        | Ok r =>
            match engine_start capacity (peid p) (component_params c (pprog p)) sys with
            | Err e => ((set_pstate PFailed p, sys), Some (StartFailed e))
            | Ok sys' =>
                (({| pstate := PRunning; pconfig := pconfig p; pprog := pprog p; pgain := pgain p;
                     pchannels := req_channels r; peid := peid p; forwarded := forwarded p |},
                  sys'), None)
            end
        end
      else ((p, sys), Some WrongState)
  | None => ((p, sys), Some WrongState)
  end.

(** The interrupt handler of the pipeline's engine. *)
Definition pipeline_produce (x : frame) (w : world) : world :=
  let '(p, sys) := w in (p, engine_produce (peid p) x sys).

(** One iteration of the scheduling loop: forward the oldest frame. *)
Definition pipeline_drain (w : world) : world :=
  let '(p, sys) := w in
  match engine_consume (peid p) sys with
  | (sys', Some x) => (forward x p, sys')
  | (sys', None) => (p, sys')
  end.

Fixpoint drain_n (n : nat) (w : world) : world :=
  match n with 0 => w | S n' => drain_n n' (pipeline_drain w) end.

(** A run of the producer and the consumer on the pipeline's engine. *)
Definition pipeline_event (ev : event frame) (w : world) : world :=
  match ev with Produce x => pipeline_produce x w | Consume => pipeline_drain w end.

Fixpoint pipeline_run (es : list (event frame)) (w : world) : world :=
  match es with [] => w | ev :: es' => pipeline_run es' (pipeline_event ev w) end.

(** [stop()]: forward what is buffered (at most [capacity] frames), stop
    the engine. *)
Definition pipeline_stop (w : world) : world :=
  let '(p, sys) := drain_n capacity w in
  if bool_decide (pstate p = PRunning ∨ pstate p = PFailed)
  then (set_pstate PStopped p, engine_stop (peid p) sys)
  else (p, sys).

(** An unrecoverable peripheral error. *)
Definition pipeline_fault (w : world) : world :=
  let '(p, sys) := w in
  if bool_decide (pstate p = PRunning) then (set_pstate PFailed p, engine_fail (peid p) sys)
  else (p, sys).

(** The pipeline and the other engines, interleaved. *)
Inductive world_step : world -> world -> Prop :=
| ws_setup raw araw p p' sys :
    pipeline_setup raw araw p = Ok p' -> world_step (p, sys) (p', sys)
| ws_setup_fail raw araw p sys e :
    pstate p = PUninitialized -> pipeline_setup raw araw p = Err e ->
    world_step (p, sys) (set_pstate PFailed p, sys)
| ws_start req w : world_step w (pipeline_start req w).1
| ws_produce x w : world_step w (pipeline_produce x w)
| ws_drain w : world_step w (pipeline_drain w)
| ws_stop w : world_step w (pipeline_stop w)
| ws_fault w : world_step w (pipeline_fault w)
| ws_other j p sys sys' : j ≠ peid p -> acq_step_by capacity j sys sys' -> world_step (p, sys) (p, sys').
End Controller.

(** ** The invariant of a world *)

Section PipelineInvariant.
Context `{AdcPlatform} `{MicrophoneComponent} `{PeripheralDriver}.
Context (variant : esp32_variant) (capacity : nat) (Hcap : 0 < capacity).

(** The pipeline runs exactly when its engine runs; its engine is busy
    only while the pipeline runs or after a failure; and the engine's
    parameters are those of the pipeline's configuration and program. *)
Definition engine_matches (p : pipeline) (e : engine) : Prop :=
  (pstate p = PRunning <-> estate e = Running)
  ∧ (estate e ≠ Idle -> pstate p = PRunning ∨ pstate p = PFailed)
  ∧ (∀ prm, eparams e = Some prm -> ∃ c, pconfig p = Some c ∧ prm = component_params c (pprog p)).

(** The configuration passed [CONFIG_SCHEMA] and the program is its
    [to_code]. *)
Definition config_validated (p : pipeline) : Prop :=
  ∀ c, pconfig p = Some c ->
       (∃ raw, CONFIG_SCHEMA variant raw = Ok c) ∧ to_code variant c [] = Ok (tt, pprog p).

Definition pipe_inv (w : world) : Prop :=
  acq_inv capacity w.2
  ∧ (∃ e, engines w.2 !! peid w.1 = Some e ∧ engine_matches w.1 e)
  ∧ config_validated w.1.

Lemma engine_matches_same p e e' : same_status e e' -> engine_matches p e -> engine_matches p e'.
Proof. intros (Hp & Hs & Hpa). unfold engine_matches. rewrite Hs, Hpa. done. Qed.

(** A pipeline that is not running and has not failed has an idle engine. *)
Lemma engine_matches_idle p e :
  engine_matches p e -> pstate p ≠ PRunning -> pstate p ≠ PFailed -> estate e = Idle.
Proof.
  intros (_ & Hne & _) Hr Hf. destruct (decide (estate e = Idle)) as [|Hn]; [done|].
  destruct (Hne Hn); contradiction.
Qed.

Lemma pipeline_setup_inv raw araw p p' sys :
  pipe_inv (p, sys) -> pipeline_setup variant raw araw p = Ok p' -> pipe_inv (p', sys).
Proof.
  intros (Hacq & (e & He & Hm) & Hcfg). unfold pipeline_setup.
  case_bool_decide as Hu; [|discriminate].
  destruct (CONFIG_SCHEMA variant raw) as [c|] eqn:Hc; [|discriminate].
  destruct (ADFMicrophone.CONFIG_SCHEMA araw) as [a|]; [|discriminate].
  destruct (to_code variant c []) as [[[] prog]|] eqn:Ht; [|discriminate]. intros [= <-].
  assert (estate e = Idle) as Hidle by (apply (engine_matches_idle p e Hm); rewrite Hu; done).
  pose proof Hacq as (_ & _ & _ & H4). pose proof (H4 _ _ He Hidle) as Hpa.
  split_and!; [done| |].
  - exists e. split; [done|]. unfold engine_matches. rewrite Hidle, Hpa. simpl.
    split_and!; [done|done|done].
  - intros c' [= <-]. eauto.
Qed.

(** Marking a pipeline that is not running as failed. *)
Lemma pipe_inv_set_failed p sys :
  pipe_inv (p, sys) -> pstate p ≠ PRunning -> pipe_inv (set_pstate PFailed p, sys).
Proof.
  intros (Hacq & (e & He & (Hr & Hne & Hpa)) & Hcfg) Hnr.
  split_and!; [done| |done].
  exists e. split; [done|]. split_and!; simpl; [|auto|done].
  split; [discriminate|]. intros Hre. by apply Hr in Hre.
Qed.

Lemma pipeline_start_inv req w : pipe_inv w -> pipe_inv (pipeline_start capacity req w).1.
Proof.
  destruct w as [p sys]. intros Hinv. unfold pipeline_start.
  destruct (pconfig p) as [c|] eqn:Hc; [|done]. case_bool_decide as Hs; [|done].
  assert (pstate p ≠ PRunning) as Hnr by (destruct Hs as [-> | ->]; done).
  destruct (negotiate _ c req) as [r|err]; simpl; [|by apply pipe_inv_set_failed].
  destruct (engine_start capacity (peid p) _ sys) as [sys'|err] eqn:Hst; simpl;
    [|by apply pipe_inv_set_failed].
  destruct Hinv as (Hacq & (e & He & Hm) & Hcfg).
  split_and!; simpl.
  - by eapply (engine_start_inv capacity Hcap (peid p) _ sys).
  - eexists. split; [apply (engine_start_lookup capacity _ _ _ _ e Hst He)|].
    split_and!; simpl; [done|auto|]. intros prm [= <-]. eauto.
  - intros c' Hc'. apply Hcfg. simpl in *. congruence.
Qed.

Lemma pipeline_produce_inv x w : pipe_inv w -> pipe_inv (pipeline_produce x w).
Proof.
  destruct w as [p sys]. intros (Hacq & (e & He & Hm) & Hcfg). simpl.
  destruct (engine_produce_status (peid p) x sys e He) as (e' & He' & Hss).
  split_and!; [by apply engine_produce_inv| |done].
  exists e'. split; [done|]. by apply (engine_matches_same p e).
Qed.

Lemma pipeline_drain_inv w : pipe_inv w -> pipe_inv (pipeline_drain w).
Proof.
  destruct w as [p sys]. intros Hinv. pose proof Hinv as (Hacq & (e & He & Hm) & Hcfg).
  unfold pipeline_drain.
  destruct (engine_consume_status (peid p) sys e He) as (e' & He' & Hss).
  pose proof (engine_consume_inv capacity (peid p) sys Hacq) as Hacq'.
  destruct (engine_consume (peid p) sys) as [sys' [x|]] eqn:Hcons; simpl in *.
  - split_and!; [done| |done]. exists e'. split; [done|].
    by apply (engine_matches_same (forward x p) e).
  - split_and!; [done| |done]. exists e'. split; [done|]. by apply (engine_matches_same p e).
Qed.

Lemma drain_n_inv n w : pipe_inv w -> pipe_inv (drain_n n w).
Proof. revert w. induction n as [|n IH]; intros w Hw; simpl; [done|]. by apply IH, pipeline_drain_inv. Qed.

Lemma pipeline_stop_inv w : pipe_inv w -> pipe_inv (pipeline_stop capacity w).
Proof.
  intros Hw. unfold pipeline_stop. pose proof (drain_n_inv capacity w Hw) as Hd.
  destruct (drain_n capacity w) as [p sys]. case_bool_decide as Hs; [|done].
  destruct Hd as (Hacq & (e & He & Hm) & Hcfg).
  destruct (engine_stop_lookup capacity sys (peid p) e Hacq He) as (Hl & _ & _).
  split_and!; simpl; [by apply engine_stop_inv| |done].
  eexists. split; [exact Hl|]. split_and!; simpl; [done|done|done].
Qed.

Lemma pipeline_fault_inv w : pipe_inv w -> pipe_inv (pipeline_fault w).
Proof.
  destruct w as [p sys]. intros Hinv. unfold pipeline_fault.
  case_bool_decide as Hs; [|done]. destruct Hinv as (Hacq & (e & He & (Hr & Hne & Hpa)) & Hcfg).
  pose proof (proj1 Hr Hs) as Her.
  split_and!; simpl; [by apply engine_fail_inv| |done].
  eexists. split; [by apply engine_fail_lookup|]. split_and!; simpl; [done|auto|done].
Qed.

Lemma world_step_inv w w' : pipe_inv w -> world_step variant capacity w w' -> pipe_inv w'.
Proof.
  intros Hw Hstep. revert Hw. destruct Hstep as [raw araw p p' sys Hs|raw araw p sys e Hu Hs|req w|x w|w|w|w|j p sys sys' Hj Hs];
    intros Hw.
  - by apply (pipeline_setup_inv raw araw p).
  - apply pipe_inv_set_failed; [done|]. by rewrite Hu.
  - by apply pipeline_start_inv.
  - by apply pipeline_produce_inv.
  - by apply pipeline_drain_inv.
  - by apply pipeline_stop_inv.
  - by apply pipeline_fault_inv.
  - destruct Hw as (Hacq & (e & He & Hm) & Hcfg). split_and!; simpl.
    + by apply (acq_step_by_inv capacity Hcap j sys).
    + exists e. split; [|done]. rewrite (acq_step_by_frame capacity (peid p) j sys sys' Hs Hj). done.
    + done.
Qed.

Lemma world_reachable_inv w w' : pipe_inv w -> rtc (world_step variant capacity) w w' -> pipe_inv w'.
Proof. intros Hw Hr. induction Hr; eauto using world_step_inv. Qed.
End PipelineInvariant.

(** ** Sessions: the producer and the consumer on a running pipeline *)

Lemma pipeline_run_running es p sys pt pa r :
  engines sys !! peid p = Some {| port := pt; estate := Running; eparams := pa; buffer := Some r |} ->
  pipeline_run es (p, sys) =
    (set_forwarded (forwarded p ++ map (normalize (out_width p) (pchannels p) (pgain p)) (run es r).2) p,
     set_engine (peid p) {| port := pt; estate := Running; eparams := pa; buffer := Some (run es r).1 |} sys).
Proof.
  revert p sys r. induction es as [|[x|] es IH]; intros p sys r He; simpl.
  - rewrite app_nil_r, set_engine_id by done. by destruct p.
  - unfold engine_produce. rewrite He, bool_decide_eq_true_2 by done. simpl.
    rewrite (IH p _ (ring_push x r)) by (simpl; by rewrite lookup_insert_eq).
    destruct (run es (ring_push x r)). by rewrite set_engine_twice.
  - unfold engine_consume. rewrite He. simpl.
    destruct (ring_pop r) as [[x r']|]; simpl.
    + rewrite (IH _ _ r') by (simpl; by rewrite lookup_insert_eq).
      destruct (run es r'). simpl. rewrite set_engine_twice, <-app_assoc. done.
    + rewrite (IH _ _ r) by done. by destruct (run es r).
Qed.

Lemma drain_n_all n p sys pt st pa r :
  engines sys !! peid p = Some {| port := pt; estate := st; eparams := pa; buffer := Some r |} ->
  ring_wf r -> length (contents r) ≤ n ->
  ∃ r', contents r' = [] ∧ ring_wf r' ∧ overruns r' = overruns r ∧
    drain_n n (p, sys) =
      (set_forwarded (forwarded p ++ map (normalize (out_width p) (pchannels p) (pgain p)) (contents r)) p,
       set_engine (peid p) {| port := pt; estate := st; eparams := pa; buffer := Some r' |} sys).
Proof.
  revert p sys r. induction n as [|n IH]; intros p sys r He Hwf Hlen; simpl.
  - destruct (contents r) eqn:Hc; [|simpl in Hlen; lia].
    exists r. rewrite app_nil_r, set_engine_id by done. destruct p. done.
  - unfold engine_consume. rewrite He. simpl.
    pose proof (ring_pop_contents r Hwf) as Hpop.
    destruct (ring_pop r) as [[x r1]|]; simpl.
    + destruct Hpop as (Hc & Hwf1 & _ & Ho). rewrite Hc in Hlen |- *. simpl in Hlen.
      destruct (IH (forward x p)
        (set_engine (peid p) {| port := pt; estate := st; eparams := pa; buffer := Some r1 |} sys) r1) as (r' & Hr' & Hwf' & Ho' & ->);
        [simpl; by rewrite lookup_insert_eq|done|lia|].
      exists r'. split_and!; [done|done|congruence|]. simpl.
      rewrite set_engine_twice, <-app_assoc. done.
    + destruct (IH p sys r) as (r' & Hr' & Hwf' & Ho' & ->); [done|done|rewrite Hpop; simpl; lia|].
      exists r'. rewrite Hpop. done.
Qed.

(** ** The pipeline's engine and its start *)

Section Start.
Context `{AdcPlatform} `{MicrophoneComponent} `{PeripheralDriver}.
Context (variant : esp32_variant) (capacity : nat).

Lemma pipe_inv_init es eid pt :
  es !! eid = Some pt -> pipe_inv variant capacity (init_pipeline eid, init_system es).
Proof.
  intros Hpt. split_and!; simpl.
  - apply acq_inv_empty.
  - exists (idle_engine pt). rewrite lookup_fmap, Hpt. split; [done|].
    split_and!; simpl; [done|done|discriminate].
  - intros c [=].
Qed.

Lemma drain_n_peid n w : peid (drain_n n w).1 = peid w.1.
Proof.
  revert w. induction n as [|n IH]; intros [p sys]; simpl; [done|].
  rewrite IH. unfold pipeline_drain. by repeat case_match.
Qed.

Lemma world_step_peid w w' : world_step variant capacity w w' -> peid w'.1 = peid w.1.
Proof.
  destruct 1 as [raw araw p p' sys Hs| | req [p sys] | x [p sys] | [p sys] | w | [p sys] |]; try done.
  - revert Hs. unfold pipeline_setup. repeat case_match; intros; simplify_eq; done.
  - unfold pipeline_start. by repeat case_match.
  - unfold pipeline_drain. by repeat case_match.
  - unfold pipeline_stop. pose proof (drain_n_peid capacity w).
    destruct (drain_n capacity w). by case_match.
  - unfold pipeline_fault. by case_match.
Qed.

Lemma reachable_peid w w' : rtc (world_step variant capacity) w w' -> peid w'.1 = peid w.1.
Proof. induction 1 as [|w1 w2 w3 Hs _ IH]; [done|]. by rewrite IH, (world_step_peid w1 w2 Hs). Qed.

Lemma pipeline_setup_Ok raw araw p0 p :
  pipeline_setup variant raw araw p0 = Ok p ->
  ∃ c a prog, pstate p0 = PUninitialized ∧ CONFIG_SCHEMA variant raw = Ok c
    ∧ ADFMicrophone.CONFIG_SCHEMA araw = Ok a ∧ to_code variant c [] = Ok (tt, prog)
    ∧ p = {| pstate := PConfigured; pconfig := Some c; pprog := prog;
             pgain := ADFMicrophone.gain_log2 a; pchannels := pchannels p0; peid := peid p0;
             forwarded := [] |}.
Proof.
  unfold pipeline_setup. case_bool_decide; [|discriminate].
  destruct (CONFIG_SCHEMA variant raw) as [c|] eqn:Hc; [|discriminate].
  destruct (ADFMicrophone.CONFIG_SCHEMA araw) as [a|] eqn:Ha; [|discriminate].
  destruct (to_code variant c []) as [[[] prog]|] eqn:Ht; [|discriminate].
  intros [= <-]. by exists c, a, prog.
Qed.

Lemma pipeline_start_Ok req p sys w :
  pipeline_start capacity req (p, sys) = (w, None) ->
  ∃ c r e, pconfig p = Some c
    ∧ negotiate (offer_of_registration (registration (pprog p)) c) c req = Ok r
    ∧ engines sys !! peid p = Some e ∧ owner sys !! port e = None
    ∧ driver_accepts (component_params c (pprog p)) = true
    ∧ w = ({| pstate := PRunning; pconfig := pconfig p; pprog := pprog p; pgain := pgain p;
              pchannels := req_channels r; peid := peid p; forwarded := forwarded p |},
           {| owner := <[port e := peid p]> (owner sys);
              engines := <[peid p := {| port := port e; estate := Running;
                                        eparams := Some (component_params c (pprog p));
                                        buffer := Some (ring_new capacity) |}]> (engines sys) |}).
Proof.
  unfold pipeline_start, engine_start.
  repeat (case_match; try discriminate); intros; simplify_eq.
  do 3 eexists. split_and!; eauto.
  match goal with H : bool_decide _ = false |- _ => apply bool_decide_eq_false in H end.
  by apply eq_None_not_Some.
Qed.
(** The registration is the last statement [to_code] generates. *)
Lemma registration_to_code c prog :
  to_code variant c [] = Ok (tt, prog) -> registration prog = mic_registration.
Proof. intros Ht. by destruct (to_code_Ok_cases variant c prog Ht) as [(_ & ? & ? & _ & _ & ->)|[_ ->]]. Qed.

Lemma negotiate_channels c req r :
  negotiate (offer_of_registration mic_registration c) c req = Ok r -> req_channels r = 1.
Proof.
  rewrite offer_of_mic_registration. unfold negotiate. destruct req as [r0|]; [|by intros [= <-]].
  destruct (within _ r0) eqn:Hw; [|discriminate]. intros [= <-].
  by apply within_default_offer in Hw as [-> _].
Qed.

(** A pipeline set up from validated configurations and started: its
    engine runs the generated program's parameters with a new buffer and
    holds its port; the consumer gets mono frames. *)
Lemma pipeline_started raw araw p0 p c a sys req w :
  pipeline_setup variant raw araw p0 = Ok p -> CONFIG_SCHEMA variant raw = Ok c ->
  ADFMicrophone.CONFIG_SCHEMA araw = Ok a -> pipeline_start capacity req (p, sys) = (w, None) ->
  ∃ e, engines sys !! peid p = Some e ∧ owner sys !! port e = None
    ∧ to_code variant c [] = Ok (tt, pprog p)
    ∧ driver_accepts (component_params c (pprog p)) = true
    ∧ w = ({| pstate := PRunning; pconfig := Some c; pprog := pprog p;
              pgain := ADFMicrophone.gain_log2 a; pchannels := 1; peid := peid p; forwarded := [] |},
           {| owner := <[port e := peid p]> (owner sys);
              engines := <[peid p := {| port := port e; estate := Running;
                                        eparams := Some (component_params c (pprog p));
                                        buffer := Some (ring_new capacity) |}]> (engines sys) |}).
Proof.
  intros Hs Hc Ha Hst.
  destruct (pipeline_setup_Ok raw araw p0 p Hs) as (c' & a' & prog & _ & Hc' & Ha' & Ht & ->).
  rewrite Hc in Hc'. rewrite Ha in Ha'. injection Hc' as <-. injection Ha' as <-.
  destruct (pipeline_start_Ok req _ sys w Hst) as (c' & r & e & [= <-] & Hn & He & Ho & Hd & ->).
  cbn [pprog pconfig peid pgain forwarded] in *. rewrite (registration_to_code c prog Ht) in Hn.
  exists e. split_and!; try done. by rewrite (negotiate_channels c req r Hn).
Qed.
(** [stop()] on a running pipeline forwards every buffered frame, then
    the engine is idle and its port free. *)
Lemma pipeline_stop_running p sys pt pa r :
  engines sys !! peid p = Some {| port := pt; estate := Running; eparams := pa; buffer := Some r |} ->
  owner sys !! pt = Some (peid p) -> pstate p = PRunning -> ring_wf r -> length (contents r) ≤ capacity ->
  pipeline_stop capacity (p, sys)
  = (set_pstate PStopped
       (set_forwarded (forwarded p ++ map (normalize (out_width p) (pchannels p) (pgain p)) (contents r)) p),
     {| owner := delete pt (owner sys); engines := <[peid p := idle_engine pt]> (engines sys) |}).
Proof.
  intros He Ho Hr Hwf Hlen.
  destruct (drain_n_all capacity p sys pt Running pa r He Hwf Hlen) as (r' & _ & _ & _ & Hd).
  unfold pipeline_stop. rewrite Hd. simpl. case_bool_decide as Hb; [|naive_solver].
  unfold engine_stop. simpl. rewrite lookup_insert_eq. simpl.
  rewrite (bool_decide_eq_true_2 (owner sys !! pt = Some (peid p))) by exact Ho.
  by rewrite insert_insert_eq.
Qed.
(** A session followed by [stop()], computed: the consumer has the kept
    frames, normalised; the engine is idle on its port and the port table
    is back to what it was before [start()]. *)
Lemma pipeline_session_stop (Hcap : 0 < capacity) raw araw p0 p c a sys req w es :
  pipeline_setup variant raw araw p0 = Ok p -> CONFIG_SCHEMA variant raw = Ok c ->
  ADFMicrophone.CONFIG_SCHEMA araw = Ok a -> pipeline_start capacity req (p, sys) = (w, None) ->
  ∃ e kept r, engines sys !! peid p = Some e ∧ owner sys !! port e = None
    ∧ driver_accepts (component_params c (pprog p)) = true
    ∧ to_code variant c [] = Ok (tt, pprog p)
    ∧ buffer <$> engines (pipeline_run es w).2 !! peid p = Some (Some r)
    ∧ sublist kept (produced es) ∧ length (produced es) = length kept + overruns r
    ∧ pipeline_stop capacity (pipeline_run es w)
      = ({| pstate := PStopped; pconfig := Some c; pprog := pprog p;
            pgain := ADFMicrophone.gain_log2 a; pchannels := 1; peid := peid p;
            forwarded := map (normalize (bit_depth (bits_per_sample c)) 1 (ADFMicrophone.gain_log2 a)) kept |},
         {| owner := owner sys; engines := <[peid p := idle_engine (port e)]> (engines sys) |}).
Proof.
  intros Hs Hc Ha Hst.
  destruct (pipeline_started raw araw p0 p c a sys req w Hs Hc Ha Hst) as (e & He & Ho & Ht & Hd & ->).
  rewrite (pipeline_run_running es _ _ (port e) _ (ring_new capacity))
    by (simpl; by rewrite lookup_insert_eq).
  pose proof (ring_run_conservation capacity es Hcap) as Hrun.
  destruct (run es (ring_new capacity)) as [r out].
  destruct Hrun as (Hwf & Hcr & kept & Hsub & -> & Hlen).
  rewrite (pipeline_stop_running _ _ (port e) (Some (component_params c (pprog p))) r); simpl;
    rewrite ?lookup_insert_eq; try done; [|rewrite <-Hcr; by apply length_contents_wf].
  exists e, (out ++ contents r), r. split_and!; try done.
  rewrite map_app, !insert_insert_eq, delete_insert_id by done. reflexivity.
Qed.
(** The producer and the consumer are steps of the world. *)
Lemma pipeline_run_steps es w : rtc (world_step variant capacity) w (pipeline_run es w).
Proof.
  revert w. induction es as [|[x|] es IH]; intros w; simpl; [done| |];
    (eapply rtc_l; [|apply IH]); constructor.
Qed.

(** Every world reachable from boot satisfies the invariant, for the
    pipeline on its own engine. *)
Lemma reachable_from_boot (Hcap : 0 < capacity) es eid pt w :
  es !! eid = Some pt -> rtc (world_step variant capacity) (init_pipeline eid, init_system es) w ->
  peid w.1 = eid ∧ pipe_inv variant capacity w.
Proof.
  intros Hpt Hr. split; [apply (reachable_peid _ _ Hr)|].
  exact (world_reachable_inv variant capacity Hcap _ _ (pipe_inv_init es eid pt Hpt) Hr).
Qed.
End Start.

(** ** Properties of the pipeline *)

Section PipelineProperties.
Context `{AdcPlatform} `{MicrophoneComponent} `{PeripheralDriver}.
Context (variant : esp32_variant) (capacity : nat) (Hcap : 0 < capacity).

(** C19. In every world reachable from boot, whatever the pipeline and
    the other engines did in between, the pipeline's engine holds
    parameters only while the pipeline runs or has failed, and those
    parameters are the [component_params] of a configuration that
    [CONFIG_SCHEMA] accepted and of the program [to_code] generated for it. *)
Theorem pipeline_engine_params_validated es eid pt w e prm :
  es !! eid = Some pt ->
  rtc (world_step variant capacity) (init_pipeline eid, init_system es) w ->
  engines w.2 !! eid = Some e -> eparams e = Some prm ->
  ∃ raw c, CONFIG_SCHEMA variant raw = Ok c ∧ to_code variant c [] = Ok (tt, pprog w.1)
    ∧ pconfig w.1 = Some c ∧ prm = component_params c (pprog w.1)
    ∧ (pstate w.1 = PRunning ∨ pstate w.1 = PFailed).
Proof.
  intros Hpt Hr He Hprm.
  destruct (reachable_from_boot variant capacity Hcap es eid pt w Hpt Hr)
    as (<- & (_ & _ & _ & Hidle) & (e' & He' & (_ & Hne & Hpa)) & Hcfg).
  rewrite He in He'. injection He' as <-.
  destruct (Hpa prm Hprm) as (c & Hc & ->). destruct (Hcfg c Hc) as [[raw Hraw] Ht].
  exists raw, c. split_and!; try done. apply Hne. intros Hi.
  rewrite (Hidle _ _ He Hi) in Hprm. discriminate.
Qed.

(** C20. Starting a pipeline set up from an accepted configuration starts
    its engine with a new buffer of [capacity] frames, on a port that was
    free and that it now holds.  On the internal ADC it samples the ADC1
    channel [ESP32_VARIANT_ADC1_PIN_TO_CHANNEL] gives for [adc_pin], and
    no generated statement hands it the configured sample rate, bit depth,
    channel format or APLL setting; otherwise it reads the I2S bus with
    the configured settings. *)
Theorem pipeline_start_channel raw araw p0 p c sys req w :
  pipeline_setup variant raw araw p0 = Ok p -> CONFIG_SCHEMA variant raw = Ok c ->
  pipeline_start capacity req (p, sys) = (w, None) ->
  ∃ e prm, engines sys !! peid p = Some e ∧ owner sys !! port e = None
    ∧ engines w.2 !! peid p = Some {| port := port e; estate := Running; eparams := Some prm;
                                      buffer := Some (ring_new capacity) |}
    ∧ owner w.2 !! port e = Some (peid p) ∧ pstate w.1 = PRunning
    ∧ (adc_type c = "internal" ->
       ∃ pin, adc_pin c = Some pin
              ∧ p_adc_channel prm = table_lookup ESP32_VARIANT_ADC1_PIN_TO_CHANNEL variant pin
              ∧ p_i2s_reader prm = false ∧ p_i2s_settings prm = None)
    ∧ (adc_type c ≠ "internal" ->
       p_adc_channel prm = None ∧ p_i2s_reader prm = true ∧ p_i2s_settings prm = Some (settings_of c)).
Proof.
  intros Hs Hc Hst. destruct (pipeline_setup_Ok variant raw araw p0 p Hs) as (_ & a & _ & _ & _ & Ha & _).
  destruct (pipeline_started variant capacity raw araw p0 p c a sys req w Hs Hc Ha Hst)
    as (e & He & Ho & Ht & _ & ->).
  exists e, (component_params c (pprog p)). simpl. rewrite !lookup_insert_eq.
  split_and!; try done; destruct (to_code_Ok_cases variant c _ Ht)
    as [(Hi & pin & ch & Hp & Hl & ->)|[Hni ->]]; intros; try done.
  exists pin. unfold component_params. simpl. by rewrite Hl.
Qed.

(** C21. Exclusive access to the peripheral: when the port of the
    pipeline's engine is held, [start()] fails, leaves every engine and the
    port table as they were and marks the pipeline failed; a consumer
    that takes the offer gets [PeripheralBusy]. *)
Theorem pipeline_start_busy raw araw p0 p sys e req :
  pipeline_setup variant raw araw p0 = Ok p -> engines sys !! peid p = Some e ->
  is_Some (owner sys !! port e) ->
  (pipeline_start capacity req (p, sys)).1 = (set_pstate PFailed p, sys)
  ∧ (pipeline_start capacity None (p, sys)).2 = Some (StartFailed PeripheralBusy).
Proof.
  intros Hs He Hbusy.
  destruct (pipeline_setup_Ok variant raw araw p0 p Hs) as (c & a & prog & _ & _ & _ & _ & ->).
  simpl in He. unfold pipeline_start, engine_start. simpl.
  rewrite He, (bool_decide_eq_true_2 (is_Some _)) by done.
  split; [|done]. by destruct (negotiate _ c req).
Qed.
(** C22. Conservation of frames over a session: after [start()], for
    any interleaving [es] of hardware transfers and scheduler iterations,
    the frames kept are a subsequence of those produced, in order; each
    produced frame is either kept or counted as an overrun; those kept
    were forwarded or are still buffered (at most [capacity]); and the
    consumer received each forwarded one normalised to the configured bit
    depth, mono, shifted by the validated [gain_log2]. *)
Theorem pipeline_session_conservation raw araw p0 p c a sys req w es :
  pipeline_setup variant raw araw p0 = Ok p -> CONFIG_SCHEMA variant raw = Ok c ->
  ADFMicrophone.CONFIG_SCHEMA araw = Ok a -> pipeline_start capacity req (p, sys) = (w, None) ->
  ∃ kept out r, sublist kept (produced es) ∧ kept = out ++ contents r
    ∧ length (produced es) = length kept + overruns r ∧ length (contents r) ≤ capacity
    ∧ forwarded (pipeline_run es w).1
      = map (normalize (bit_depth (bits_per_sample c)) 1 (ADFMicrophone.gain_log2 a)) out
    ∧ buffer <$> engines (pipeline_run es w).2 !! peid p = Some (Some r).
Proof.
  intros Hs Hc Ha Hst.
  destruct (pipeline_started variant capacity raw araw p0 p c a sys req w Hs Hc Ha Hst)
    as (e & _ & _ & _ & _ & ->).
  rewrite (pipeline_run_running es _ _ (port e) _ (ring_new capacity))
    by (simpl; by rewrite lookup_insert_eq).
  pose proof (ring_run_conservation capacity es Hcap) as Hrun.
  destruct (run es (ring_new capacity)) as [r out].
  destruct Hrun as (Hwf & Hcr & kept & Hsub & Hk & Hlen).
  exists kept, out, r. simpl. rewrite lookup_insert_eq.
  split_and!; try done. rewrite <-Hcr. by apply length_contents_wf.
Qed.

(** C23. No frame is lost when the scheduler keeps up: if the consumer
    drains the buffer after every burst of at most [capacity] transfers,
    the consumer receives every produced frame, in order, normalised, and
    no overrun is counted. *)
Theorem pipeline_session_lossless raw araw p0 p c a sys req w bs :
  pipeline_setup variant raw araw p0 = Ok p -> CONFIG_SCHEMA variant raw = Ok c ->
  ADFMicrophone.CONFIG_SCHEMA araw = Ok a -> pipeline_start capacity req (p, sys) = (w, None) ->
  Forall (fun b => length b ≤ capacity) bs ->
  forwarded (pipeline_run (concat (map burst bs)) w).1
    = map (normalize (bit_depth (bits_per_sample c)) 1 (ADFMicrophone.gain_log2 a)) (concat bs)
  ∧ ∃ r, buffer <$> engines (pipeline_run (concat (map burst bs)) w).2 !! peid p = Some (Some r)
         ∧ contents r = [] ∧ overruns r = 0.
Proof.
  intros Hs Hc Ha Hst Hbs.
  destruct (pipeline_started variant capacity raw araw p0 p c a sys req w Hs Hc Ha Hst)
    as (e & _ & _ & _ & _ & ->).
  rewrite (pipeline_run_running _ _ _ (port e) _ (ring_new capacity))
    by (simpl; by rewrite lookup_insert_eq).
  pose proof (ring_run_bursts capacity bs Hcap Hbs) as Hrun.
  destruct (run _ (ring_new capacity)) as [r out]. destruct Hrun as (-> & Ho & Hc').
  simpl. rewrite lookup_insert_eq. split; [done|]. by exists r.
Qed.

(** C24. [stop()] loses nothing the buffer accepted: after any session,
    stopping forwards every frame still buffered, so the consumer has
    received exactly the kept frames (a subsequence of those produced,
    the others counted as overruns), normalised; the engine is idle with
    no buffer and its port is free again. *)
Theorem pipeline_stop_flushes raw araw p0 p c a sys req w es :
  pipeline_setup variant raw araw p0 = Ok p -> CONFIG_SCHEMA variant raw = Ok c ->
  ADFMicrophone.CONFIG_SCHEMA araw = Ok a -> pipeline_start capacity req (p, sys) = (w, None) ->
  ∃ e kept r, engines sys !! peid p = Some e
    ∧ buffer <$> engines (pipeline_run es w).2 !! peid p = Some (Some r)
    ∧ sublist kept (produced es) ∧ length (produced es) = length kept + overruns r
    ∧ forwarded (pipeline_stop capacity (pipeline_run es w)).1
      = map (normalize (bit_depth (bits_per_sample c)) 1 (ADFMicrophone.gain_log2 a)) kept
    ∧ pstate (pipeline_stop capacity (pipeline_run es w)).1 = PStopped
    ∧ engines (pipeline_stop capacity (pipeline_run es w)).2 !! peid p = Some (idle_engine (port e))
    ∧ owner (pipeline_stop capacity (pipeline_run es w)).2 !! port e = None.
Proof.
  intros Hs Hc Ha Hst.
  destruct (pipeline_session_stop variant capacity Hcap raw araw p0 p c a sys req w es Hs Hc Ha Hst)
    as (e & kept & r & He & Ho & _ & _ & Hb & Hsub & Hlen & ->).
  exists e, kept, r. simpl. rewrite lookup_insert_eq. by split_and!.
Qed.
(** C25. [stop()] followed immediately by [start()] succeeds (spec 8):
    the engine runs again with a new, empty buffer, and from then on the
    consumer receives only frames produced after the restart, in order,
    after those it had before [stop()]. *)
Theorem pipeline_restart_fresh raw araw p0 p c a sys req w es :
  pipeline_setup variant raw araw p0 = Ok p -> CONFIG_SCHEMA variant raw = Ok c ->
  ADFMicrophone.CONFIG_SCHEMA araw = Ok a -> pipeline_start capacity req (p, sys) = (w, None) ->
  ∃ w', pipeline_start capacity None (pipeline_stop capacity (pipeline_run es w)) = (w', None)
    ∧ buffer <$> engines w'.2 !! peid p = Some (Some (ring_new capacity))
    ∧ ∀ es', ∃ fresh, sublist fresh (produced es')
      ∧ forwarded (pipeline_run es' w').1
        = forwarded (pipeline_stop capacity (pipeline_run es w)).1
          ++ map (normalize (bit_depth (bits_per_sample c)) 1 (ADFMicrophone.gain_log2 a)) fresh.
Proof.
  intros Hs Hc Ha Hst.
  destruct (pipeline_session_stop variant capacity Hcap raw araw p0 p c a sys req w es Hs Hc Ha Hst)
    as (e & kept & r & He & Ho & Hd & Ht & _ & _ & _ & ->).
  unfold pipeline_start at 1. cbn [set_pstate pconfig pstate pprog peid].
  rewrite (registration_to_code variant c _ Ht), offer_of_mic_registration.
  unfold engine_start. cbn [engines owner]. rewrite lookup_insert_eq.
  unfold idle_engine at 1. cbn [port]. rewrite (bool_decide_eq_false_2 (is_Some _)) by (rewrite Ho; by intros [? ?]).
  rewrite Hd. eexists. split; [reflexivity|]. simpl. rewrite lookup_insert_eq. split; [done|].
  intros es'. rewrite (pipeline_run_running es' _ _ (port e) _ (ring_new capacity))
    by (simpl; by rewrite lookup_insert_eq).
  pose proof (ring_run_conservation capacity es' Hcap) as Hrun.
  destruct (run es' (ring_new capacity)) as [r' out]. destruct Hrun as (_ & _ & kept' & Hsub & -> & _).
  exists out. split; [|done]. transitivity (out ++ contents r'); [|done].
  by apply sublist_inserts_r.
Qed.

(** C26. Once [stop()] has returned, no frame reaches the pipeline: any
    later hardware transfers and scheduler iterations leave the world
    unchanged until the next [start()] (spec 5, cancellation). *)
Theorem pipeline_stop_quiesces raw araw p0 p c a sys req w es es' :
  pipeline_setup variant raw araw p0 = Ok p -> CONFIG_SCHEMA variant raw = Ok c ->
  ADFMicrophone.CONFIG_SCHEMA araw = Ok a -> pipeline_start capacity req (p, sys) = (w, None) ->
  pipeline_run es' (pipeline_stop capacity (pipeline_run es w)) = pipeline_stop capacity (pipeline_run es w).
Proof.
  intros Hs Hc Ha Hst.
  destruct (pipeline_session_stop variant capacity Hcap raw araw p0 p c a sys req w es Hs Hc Ha Hst)
    as (e & kept & r & _ & _ & _ & _ & _ & _ & _ & ->).
  induction es' as [|[x|] es' IH]; [done| |]; simpl;
    unfold engine_produce, engine_consume; simpl; rewrite lookup_insert_eq; exact IH.
Qed.
(** C29. The pipeline session refines the abstract microphone: a bounded
    FIFO queue of [capacity] frames that drops and counts when full, whose
    output the consumer receives normalised.  After [start()], for any
    interleaving [es], the consumer has received exactly the queue's
    output, and the engine's ring buffer is related to the queue's state
    by the abstraction (same contents, same capacity, overruns = drops). *)
Theorem pipeline_session_refines raw araw p0 p c a sys req w es :
  pipeline_setup variant raw araw p0 = Ok p -> CONFIG_SCHEMA variant raw = Ok c ->
  ADFMicrophone.CONFIG_SCHEMA araw = Ok a -> pipeline_start capacity req (p, sys) = (w, None) ->
  let '(q, out) := queue_run es {| qcap := capacity; items := []; dropped := 0 |} in
  forwarded (pipeline_run es w).1
    = map (normalize (bit_depth (bits_per_sample c)) 1 (ADFMicrophone.gain_log2 a)) out
  ∧ ∃ r, buffer <$> engines (pipeline_run es w).2 !! peid p = Some (Some r) ∧ ring_refines r q.
Proof.
  intros Hs Hc Ha Hst.
  destruct (pipeline_started variant capacity raw araw p0 p c a sys req w Hs Hc Ha Hst)
    as (e & _ & _ & _ & _ & ->).
  rewrite (pipeline_run_running es _ _ (port e) _ (ring_new capacity))
    by (simpl; by rewrite lookup_insert_eq).
  pose proof (run_refines es _ _ (ring_new_refines capacity Hcap)) as Hsim.
  destruct (run es (ring_new capacity)) as [r out], (queue_run es _) as [q out'].
  destruct Hsim as [<- Hr]. simpl. rewrite lookup_insert_eq. eauto.
Qed.

(** C30. The scheduling loop terminates: in every world reachable from
    boot, [capacity] iterations of the drain loop forward every frame the
    pipeline's engine has buffered, in order and normalised to the
    configured bit depth, and leave the buffer empty with its overrun count
    unchanged. *)
Theorem scheduler_drain_terminates es eid pt w e r c :
  es !! eid = Some pt -> rtc (world_step variant capacity) (init_pipeline eid, init_system es) w ->
  engines w.2 !! eid = Some e -> buffer e = Some r -> pconfig w.1 = Some c ->
  ∃ r', contents r' = [] ∧ overruns r' = overruns r
    ∧ forwarded (drain_n capacity w).1
      = forwarded w.1 ++ map (normalize (bit_depth (bits_per_sample c)) (pchannels w.1) (pgain w.1)) (contents r)
    ∧ buffer <$> engines (drain_n capacity w).2 !! eid = Some (Some r').
Proof.
  intros Hpt Hr He Hb Hc.
  destruct (reachable_from_boot variant capacity Hcap es eid pt w Hpt Hr) as (Hid & (_ & _ & Hbuf & _) & _).
  pose proof (Hbuf _ _ He) as Hbe. rewrite Hb in Hbe. destruct Hbe as (_ & Hwf & Hcr).
  destruct w as [p sys]. destruct e as [pe st pa b]. simpl in *. subst b eid.
  destruct (drain_n_all capacity p sys pe st pa r He Hwf) as (r' & Hr' & _ & Ho & ->);
    [rewrite <-Hcr; by apply length_contents_wf|].
  exists r'. simpl. rewrite lookup_insert_eq. unfold out_width. rewrite Hc. by split_and!.
Qed.

(** C31. [stop()] can always be called and always releases the
    peripheral: from every world reachable from boot, whatever the
    pipeline's state (running, failed, never started), after [stop()] its
    engine is idle without a buffer, no longer holds its port, and the
    pipeline is not running. *)
Theorem pipeline_stop_releases es eid pt w :
  es !! eid = Some pt -> rtc (world_step variant capacity) (init_pipeline eid, init_system es) w ->
  ∃ e, engines (pipeline_stop capacity w).2 !! eid = Some e ∧ estate e = Idle ∧ buffer e = None
    ∧ owner (pipeline_stop capacity w).2 !! port e ≠ Some eid
    ∧ pstate (pipeline_stop capacity w).1 ≠ PRunning.
Proof.
  intros Hpt Hr. destruct (reachable_from_boot variant capacity Hcap es eid pt w Hpt Hr) as (<- & Hw).
  rewrite <-(drain_n_peid capacity w). unfold pipeline_stop.
  pose proof (drain_n_inv variant capacity capacity w Hw) as Hd.
  destruct (drain_n capacity w) as [p sys]. simpl.
  destruct Hd as (Hacq & (e & He & Hm) & _). simpl in *.
  case_bool_decide as Hs; simpl.
  - destruct (engine_stop_lookup capacity sys (peid p) e Hacq He) as (Hl & Ho & _).
    eexists. split; [exact Hl|]. by split_and!.
  - assert (estate e = Idle) as Hi by (apply (engine_matches_idle p e Hm); naive_solver).
    pose proof Hacq as (Hown & _ & Hbuf & _). exists e. split_and!; [done|done| | |naive_solver].
    + specialize (Hbuf _ _ He). destruct (buffer e); [naive_solver|done].
    + intros Ho. destruct (Hown _ _ Ho) as (e' & He' & _ & Hn). congruence.
Qed.
End PipelineProperties.

(** ** Examples

    One microphone on engine 0 of an ESP32, on the internal ADC at pin 34
    with [gain_log2: 3]; engine 1 shares I2S port 0.  The buffer holds 4
    frames and the driver accepts every configuration. *)

Definition driver_any : PeripheralDriver := {| driver_accepts _ := true |}.

#[local] Existing Instance microphone_with_audio_device.
#[local] Existing Instance driver_any.

Definition demo_gain : ADFMicrophone.raw_config := {| ADFMicrophone.raw_gain_log2 := Some (YInt 3) |}.

Definition demo_setup : pipeline :=
  {| pstate := PConfigured; pconfig := Some esp32_internal_34;
     pprog := [NewPvariable "I2SAudioMicrophone"; RegisterComponent; SetAdcChannel 6;
               RegisterMicrophone (Some audio_device)];
     pgain := 3; pchannels := 1; peid := 0; forwarded := [] |}.

Definition demo_engines : gmap nat nat := {[0 := 0; 1 := 0]}.

Definition demo_started : world := (pipeline_start 4 None (demo_setup, init_system demo_engines)).1.

(** Two transfers, one scheduler iteration, one more transfer. *)
Definition demo_session : list (event frame) := [Produce [100%Z]; Produce [(-200)%Z]; Consume; Produce [300%Z]].

Lemma demo_setup_Ok :
  pipeline_setup VARIANT_ESP32 (internal_raw 34) demo_gain (init_pipeline 0) = Ok demo_setup.
Proof. vm_compute. reflexivity. Qed.

Lemma demo_config_Ok : CONFIG_SCHEMA VARIANT_ESP32 (internal_raw 34) = Ok esp32_internal_34.
Proof. vm_compute. reflexivity. Qed.

Lemma demo_gain_Ok : ADFMicrophone.CONFIG_SCHEMA demo_gain = Ok {| ADFMicrophone.gain_log2 := 3 |}.
Proof. reflexivity. Qed.

Lemma demo_start_Ok :
  pipeline_start 4 None (demo_setup, init_system demo_engines) = (demo_started, None).
Proof. vm_compute. reflexivity. Qed.

Lemma pipeline_engine_params_validated_witness :
  ∃ raw c, CONFIG_SCHEMA VARIANT_ESP32 raw = Ok c
    ∧ to_code VARIANT_ESP32 c [] = Ok (tt, pprog demo_started.1)
    ∧ pconfig demo_started.1 = Some c
    ∧ component_params esp32_internal_34 (pprog demo_setup) = component_params c (pprog demo_started.1)
    ∧ (pstate demo_started.1 = PRunning ∨ pstate demo_started.1 = PFailed).
Proof.
  apply (pipeline_engine_params_validated VARIANT_ESP32 4 ltac:(lia) demo_engines 0 0 demo_started
           {| port := 0; estate := Running;
              eparams := Some (component_params esp32_internal_34 (pprog demo_setup));
              buffer := Some (ring_new 4) |}).
  - reflexivity.
  - eapply rtc_l; [eapply ws_setup; exact demo_setup_Ok|].
    eapply rtc_l; [apply (ws_start VARIANT_ESP32 4 None)|]. apply rtc_refl.
  - vm_compute. reflexivity.
  - reflexivity.
Defined.

(** The demo microphone's engine samples ADC1 channel 6 (GPIO34). *)
Lemma pipeline_start_channel_witness :
  ∃ prm, engines demo_started.2 !! 0
         = Some {| port := 0; estate := Running; eparams := Some prm; buffer := Some (ring_new 4) |}
    ∧ p_adc_channel prm = Some 6 ∧ p_i2s_reader prm = false ∧ p_i2s_settings prm = None.
Proof.
  destruct (pipeline_start_channel VARIANT_ESP32 4 (internal_raw 34) demo_gain (init_pipeline 0)
              demo_setup esp32_internal_34 (init_system demo_engines) None demo_started
              demo_setup_Ok demo_config_Ok demo_start_Ok)
    as (e & prm & He & _ & He' & _ & _ & Hint & _).
  vm_compute in He. injection He as <-.
  destruct (Hint eq_refl) as (pin & Hp & Hch & Hrd & Hset). vm_compute in Hp. injection Hp as <-.
  exists prm. split_and!; [exact He'|rewrite Hch; reflexivity|exact Hrd|exact Hset].
Defined.

Definition demo_busy : acq_system :=
  {| owner := {[0 := 1]};
     engines := {[0 := idle_engine 0;
                  1 := {| port := 0; estate := Running; eparams := None; buffer := Some (ring_new 4) |}]} |}.

Lemma pipeline_start_busy_witness :
  (pipeline_start 4 None (demo_setup, demo_busy)).1 = (set_pstate PFailed demo_setup, demo_busy)
  ∧ (pipeline_start 4 None (demo_setup, demo_busy)).2 = Some (StartFailed PeripheralBusy).
Proof.
  apply (pipeline_start_busy VARIANT_ESP32 4 (internal_raw 34) demo_gain (init_pipeline 0)
           demo_setup demo_busy (idle_engine 0) None demo_setup_Ok).
  - reflexivity.
  - vm_compute. eexists. reflexivity.
Defined.

Lemma pipeline_session_conservation_witness :
  ∃ kept out r, sublist kept (produced demo_session) ∧ kept = out ++ contents r
    ∧ length (produced demo_session) = length kept + overruns r
    ∧ forwarded (pipeline_run demo_session demo_started).1
      = map (normalize (bit_depth (bits_per_sample esp32_internal_34)) 1 3) out.
Proof.
  destruct (pipeline_session_conservation VARIANT_ESP32 4 ltac:(lia) (internal_raw 34) demo_gain
              (init_pipeline 0) demo_setup esp32_internal_34 {| ADFMicrophone.gain_log2 := 3 |}
              (init_system demo_engines) None demo_started demo_session
              demo_setup_Ok demo_config_Ok demo_gain_Ok demo_start_Ok)
    as (kept & out & r & Hsub & Hk & Hlen & _ & Hfw & _).
  exists kept, out, r. split_and!; assumption.
Defined.

Definition demo_bursts : list (list frame) := [[[1%Z]; [2%Z]; [3%Z]; [4%Z]]; [[5%Z]]].

Lemma pipeline_session_lossless_witness :
  forwarded (pipeline_run (concat (map burst demo_bursts)) demo_started).1
  = map (normalize (bit_depth (bits_per_sample esp32_internal_34)) 1 3) (concat demo_bursts).
Proof.
  apply (pipeline_session_lossless VARIANT_ESP32 4 ltac:(lia) (internal_raw 34) demo_gain
           (init_pipeline 0) demo_setup esp32_internal_34 {| ADFMicrophone.gain_log2 := 3 |}
           (init_system demo_engines) None demo_started demo_bursts
           demo_setup_Ok demo_config_Ok demo_gain_Ok demo_start_Ok).
  repeat constructor; simpl; lia.
Defined.

Lemma pipeline_stop_flushes_witness :
  ∃ kept, sublist kept (produced demo_session)
    ∧ forwarded (pipeline_stop 4 (pipeline_run demo_session demo_started)).1
      = map (normalize (bit_depth (bits_per_sample esp32_internal_34)) 1 3) kept
    ∧ engines (pipeline_stop 4 (pipeline_run demo_session demo_started)).2 !! 0 = Some (idle_engine 0).
Proof.
  destruct (pipeline_stop_flushes VARIANT_ESP32 4 ltac:(lia) (internal_raw 34) demo_gain
              (init_pipeline 0) demo_setup esp32_internal_34 {| ADFMicrophone.gain_log2 := 3 |}
              (init_system demo_engines) None demo_started demo_session
              demo_setup_Ok demo_config_Ok demo_gain_Ok demo_start_Ok)
    as (e & kept & r & He & _ & Hsub & _ & Hfw & _ & Hidle & _).
  vm_compute in He. injection He as <-.
  exists kept. split_and!; assumption.
Defined.

Lemma pipeline_restart_fresh_witness :
  ∃ w', pipeline_start 4 None (pipeline_stop 4 (pipeline_run demo_session demo_started)) = (w', None)
    ∧ buffer <$> engines w'.2 !! 0 = Some (Some (ring_new 4)).
Proof.
  destruct (pipeline_restart_fresh VARIANT_ESP32 4 ltac:(lia) (internal_raw 34) demo_gain
              (init_pipeline 0) demo_setup esp32_internal_34 {| ADFMicrophone.gain_log2 := 3 |}
              (init_system demo_engines) None demo_started demo_session
              demo_setup_Ok demo_config_Ok demo_gain_Ok demo_start_Ok)
    as (w' & Hst & Hb & _).
  exists w'. split; [exact Hst|exact Hb].
Defined.

(** After [stop()], the demo session replayed changes nothing. *)
Lemma pipeline_stop_quiesces_witness :
  pipeline_run demo_session (pipeline_stop 4 (pipeline_run demo_session demo_started))
  = pipeline_stop 4 (pipeline_run demo_session demo_started).
Proof.
  exact (pipeline_stop_quiesces VARIANT_ESP32 4 ltac:(lia) (internal_raw 34) demo_gain
           (init_pipeline 0) demo_setup esp32_internal_34 {| ADFMicrophone.gain_log2 := 3 |}
           (init_system demo_engines) None demo_started demo_session demo_session
           demo_setup_Ok demo_config_Ok demo_gain_Ok demo_start_Ok).
Defined.

Lemma pipeline_session_refines_witness :
  forwarded (pipeline_run demo_session demo_started).1
  = map (normalize (bit_depth (bits_per_sample esp32_internal_34)) 1 3)
        (queue_run demo_session {| qcap := 4; items := []; dropped := 0 |}).2.
Proof.
  pose proof (pipeline_session_refines VARIANT_ESP32 4 ltac:(lia) (internal_raw 34) demo_gain
                (init_pipeline 0) demo_setup esp32_internal_34 {| ADFMicrophone.gain_log2 := 3 |}
                (init_system demo_engines) None demo_started demo_session
                demo_setup_Ok demo_config_Ok demo_gain_Ok demo_start_Ok) as Href.
  destruct (queue_run demo_session _) as [q out]. exact (proj1 Href).
Defined.

(** The demo world after its session, its engine and the engine's ring. *)
Definition demo_session_world : world := pipeline_run demo_session demo_started.
Definition demo_engine : engine := default (idle_engine 0) (engines demo_session_world.2 !! 0).
Definition demo_ring : ring frame := default (ring_new (A:=frame) 4) (buffer demo_engine).

Lemma demo_reachable :
  rtc (world_step VARIANT_ESP32 4) (init_pipeline 0, init_system demo_engines) demo_session_world.
Proof.
  eapply rtc_l; [eapply ws_setup; exact demo_setup_Ok|].
  eapply rtc_l; [apply (ws_start VARIANT_ESP32 4 None)|]. apply pipeline_run_steps.
Qed.

Lemma scheduler_drain_terminates_witness :
  ∃ r' : ring frame, contents r' = []
    ∧ forwarded (drain_n 4 demo_session_world).1
      = forwarded demo_session_world.1
        ++ map (normalize (bit_depth (bits_per_sample esp32_internal_34))
                  (pchannels demo_session_world.1) (pgain demo_session_world.1)) (contents demo_ring).
Proof.
  destruct (scheduler_drain_terminates VARIANT_ESP32 4 ltac:(lia) demo_engines 0 0 demo_session_world
              demo_engine demo_ring esp32_internal_34 ltac:(reflexivity) demo_reachable
              ltac:(vm_compute; reflexivity) ltac:(vm_compute; reflexivity) ltac:(vm_compute; reflexivity))
    as (r' & Hr' & _ & Hfw & _).
  exists r'. split; [exact Hr'|exact Hfw].
Defined.

Lemma pipeline_stop_releases_witness :
  ∃ e, engines (pipeline_stop 4 demo_session_world).2 !! 0 = Some e ∧ estate e = Idle
    ∧ owner (pipeline_stop 4 demo_session_world).2 !! port e ≠ Some 0.
Proof.
  destruct (pipeline_stop_releases VARIANT_ESP32 4 ltac:(lia) demo_engines 0 0 demo_session_world
              ltac:(reflexivity) demo_reachable) as (e & He & Hi & _ & Ho & _).
  exists e. split_and!; assumption.
Defined.
